(** * CMIP6 global-mean surface temperature notebook: a shallow embedding

    The notebook [notebooks/00s_solution_SSP_exercise.ipynb] loads one
    labelled dataset per simulation run, normalises its dimension names,
    restricts it to a time window, reduces the temperature field to a
    cosine-latitude weighted mean, splices every future-scenario series onto
    the historical series of the same model and removes the seasonal cycle.

    The code cells are embedded as Rocq functions.  Python exceptions are an
    explicit [result]; the dictionaries of the notebook are association
    lists in insertion order.  Floating-point cells have two models: real
    numbers extended with the missing value [NaN] and the infinities, on
    which the arithmetic is exact, for what holds when rounding is left
    out; and IEEE doubles, for what rounding does. *)

From Stdlib Require Import List String Ascii Bool Arith ZArith Lia FinFun Sorted.
From Stdlib Require Import Reals Lra.
From Stdlib Require Floats.
Import ListNotations.

Set Implicit Arguments.

(* ===================================================================== *)
(** * Part I: definitions                                                 *)
(* ===================================================================== *)

(** ** Python: exceptions, strings, dictionaries *)

Module Py.

(** The exceptions the cells can raise, by class. *)
Inductive exn : Type :=
| KeyError (key : string)
| ValueError (what : string)
| TypeError (what : string)
| IndexError.

Definition exn_name (e : exn) : string :=
  match e with
  | KeyError _ => "KeyError"
  | ValueError _ => "ValueError"
  | TypeError _ => "TypeError"
  | IndexError => "IndexError"
  end.

Inductive result (A : Type) : Type :=
| Ok (a : A)
| Raise (e : exn).

Arguments Ok {A} a.
Arguments Raise {A} e.

Definition bind {A B : Type} (r : result A) (k : A -> result B) : result B :=
  match r with
  | Ok a => k a
  | Raise e => Raise e
  end.

(** A loop that stops at the first exception keeps what it had stored in
    the enclosing dictionary up to then. *)
Inductive outcome (S : Type) : Type :=
| Finished (s : S)
| Aborted (e : exn) (s : S).

Arguments Finished {S} s.
Arguments Aborted {S} e s.

(** [p] is a prefix of [s]. *)
Fixpoint startswith (p s : string) : bool :=
  match p, s with
  | EmptyString, _ => true
  | String a p', String b s' => Ascii.eqb a b && startswith p' s'
  | String _ _, EmptyString => false
  end.

(** [sub in s] on strings. *)
Fixpoint str_in (sub s : string) : bool :=
  startswith sub s ||
  match s with
  | EmptyString => false
  | String _ s' => str_in sub s'
  end.

(** [s.split(sep)] for a one-character separator: never the empty list. *)
Fixpoint str_split (sep : ascii) (s : string) : list string :=
  match s with
  | EmptyString => [EmptyString]
  | String c s' =>
      if Ascii.eqb c sep then EmptyString :: str_split sep s'
      else match str_split sep s' with
           | field :: fields => String c field :: fields
           | [] => [String c EmptyString]
           end
  end.

(** [l[i]] for a non-negative index. *)
Definition list_index {A : Type} (l : list A) (i : nat) : result A :=
  match nth_error l i with
  | Some a => Ok a
  | None => Raise IndexError
  end.

(** A dictionary with string keys, in insertion order. *)
Definition dict (A : Type) : Type := list (string * A).

Definition keys {A : Type} (d : dict A) : list string := map fst d.

Fixpoint dict_get {A : Type} (d : dict A) (k : string) : option A :=
  match d with
  | [] => None
  | (k', a) :: d' => if String.eqb k' k then Some a else dict_get d' k
  end.

(** [d[k] = a]: an existing key keeps its place, a new one goes last. *)
Fixpoint dict_set {A : Type} (d : dict A) (k : string) (a : A) : dict A :=
  match d with
  | [] => [(k, a)]
  | (k', a') :: d' =>
      if String.eqb k' k then (k', a) :: d' else (k', a') :: dict_set d' k a
  end.

End Py.

Import Py.

Notation "x <- r ;; k" := (bind r (fun x => k))
  (at level 61, r at next level, right associativity).

(** ** The scenario splicer (the [gmst_ssp_dict] cell) *)

Section Splicer.

(** The values of the dictionary and [xr.concat([h, f], dim='time')]. *)
Variable A : Type.
Variable xr_concat : A -> A -> A.

(** [name.split(".")[2]] *)
Definition model_name_of (name : string) : result string :=
  list_index (str_split "."%char name) 2.

(** [(model_name in hist_name) and ('historical' in hist_name)] *)
Definition is_match (model_name hist_name : string) : bool :=
  str_in model_name hist_name && str_in "historical" hist_name.

(** The inner loop over [gmst_dict.items()]; [add_hist] is
    [add_hist_gmst], [None] before the loop.  The model name is
    extracted again at every iteration, as in the cell. *)
Fixpoint find_hist (name : string) (items : dict A) (add_hist : option A)
  : result (option A) :=
  match items with
  | [] => Ok add_hist
  | (hist_name, hist_gmst) :: rest =>
      model_name <- model_name_of name ;;
      if is_match model_name hist_name
      then find_hist name rest (Some hist_gmst)
      else find_hist name rest add_hist
  end.

(** The outer loop; [gmst_dict] is the whole dictionary, [items] what is
    left to visit, [out] is [gmst_ssp_dict]. *)
Fixpoint splice_loop (gmst_dict items : dict A) (out : dict A)
  : outcome (dict A) :=
  match items with
  | [] => Finished out
  | (name, gmst) :: rest =>
      if negb (str_in "ssp" name) then splice_loop gmst_dict rest out
      else
        match find_hist name gmst_dict None with
        | Raise e => Aborted e out
        | Ok None => splice_loop gmst_dict rest out
        | Ok (Some add_hist_gmst) =>
            splice_loop gmst_dict rest
              (dict_set out name (xr_concat add_hist_gmst gmst))
        end
  end.

Definition splice (gmst_dict : dict A) : outcome (dict A) :=
  splice_loop gmst_dict gmst_dict [].

End Splicer.

(** ** Floating-point cells, rounding left out

    A cell is a real number, the missing value or an infinity.  Arithmetic
    is exact on the numbers and follows IEEE 754 on the other cells; zero
    carries no sign, so a division by zero takes the sign of its numerator.
    What is proved on these cells holds of the doubles of the notebook up
    to rounding; the module [Double] below computes with the doubles
    themselves. *)

Module Float.

Inductive val : Type :=
| NaN
| Num (x : R)
| Inf (negative : bool).

Definition is_zero (x : R) : bool := if Req_dec_T x 0 then true else false.
Definition is_neg (x : R) : bool := if Rlt_dec x 0 then true else false.

Definition isnan (a : val) : bool :=
  match a with NaN => true | _ => false end.

Definition vadd (a b : val) : val :=
  match a, b with
  | NaN, _ | _, NaN => NaN
  | Num x, Num y => Num (x + y)
  | Num _, Inf s | Inf s, Num _ => Inf s
  | Inf s, Inf s' => if Bool.eqb s s' then Inf s else NaN
  end.

Definition vsub (a b : val) : val :=
  match a, b with
  | NaN, _ | _, NaN => NaN
  | Num x, Num y => Num (x - y)
  | Num _, Inf s => Inf (negb s)
  | Inf s, Num _ => Inf s
  | Inf s, Inf s' => if Bool.eqb s s' then NaN else Inf s
  end.

Definition vmul (a b : val) : val :=
  match a, b with
  | NaN, _ | _, NaN => NaN
  | Num x, Num y => Num (x * y)
  | Num x, Inf s | Inf s, Num x =>
      if is_zero x then NaN else Inf (xorb (is_neg x) s)
  | Inf s, Inf s' => Inf (xorb s s')
  end.

Definition vdiv (a b : val) : val :=
  match a, b with
  | NaN, _ | _, NaN => NaN
  | Num x, Num y =>
      if is_zero y then (if is_zero x then NaN else Inf (is_neg x))
      else Num (x / y)
  | Num _, Inf _ => Num 0
  | Inf s, Num y => Inf (xorb s (is_neg y))
  | Inf _, Inf _ => NaN
  end.

Definition vcos (a : val) : val :=
  match a with
  | Num x => Num (cos x)
  | NaN | Inf _ => NaN
  end.

(** [sum] with [skipna=True], the default on floats: the missing cells are
    replaced by zero, and the sum of no cell at all is zero. *)
Definition nan_to_zero (a : val) : val :=
  match a with NaN => Num 0 | _ => a end.

Definition nansum (cells : list val) : val :=
  fold_left vadd (map nan_to_zero cells) (Num 0).

(** [mean] with [skipna=True]: the mean of the cells that hold a value,
    missing when there is none. *)
Definition nanmean (cells : list val) : val :=
  match filter (fun a => negb (isnan a)) cells with
  | [] => NaN
  | present => vdiv (fold_left vadd present (Num 0))
                    (Num (INR (List.length present)))
  end.

End Float.

Import Float.

(** ** Time stamps

    The monthly time steps of the [Amon] table, as the number of months
    since January of year 0. *)

Definition timestamp : Type := Z.

Definition year (t : timestamp) : Z := (t / 12)%Z.
Definition month (t : timestamp) : Z := (t mod 12 + 1)%Z.

(** [slice(first, last)] on years given as strings, both ends included. *)
Definition in_slice (sl : Z * Z) (t : timestamp) : bool :=
  ((fst sl <=? year t) && (year t <=? snd sl))%Z.

(** [time_slice = slice('1850','2100')] *)
Definition time_slice : Z * Z := (1850%Z, 2100%Z).

(** The index is in chronological order; a stamp may come twice. *)
Fixpoint ascending (ts : list timestamp) : bool :=
  match ts with
  | t :: ((t' :: _) as rest) => (t <=? t')%Z && ascending rest
  | _ => true
  end.

(** The index is in reverse chronological order. *)
Fixpoint descending (ts : list timestamp) : bool :=
  match ts with
  | t :: ((t' :: _) as rest) => (t' <=? t)%Z && descending rest
  | _ => true
  end.

(** ** xarray: datasets and arrays with named dimensions *)

Module Xr.

(** A position along every named dimension. *)
Definition Index : Type := string -> nat.

Definition upd (env : Index) (d : string) (i : nat) : Index :=
  fun d' => if String.eqb d' d then i else env d'.

Definition mem (d : string) (l : list string) : bool :=
  existsb (String.eqb d) l.

Fixpoint has_dup (l : list string) : bool :=
  match l with
  | [] => false
  | x :: l' => mem x l' || has_dup l'
  end.

(** A float variable: the dimensions it spans and its cell at every
    position; the positions along other dimensions are ignored. *)
Record Var : Type := {
  v_dims : list string;
  v_at : Index -> val
}.

(** A dataset: the length of each dimension, the decoded time coordinate
    (one-dimensional along the dimension [time]) when there is one, the
    other coordinates and the data variables. *)
Record Dataset : Type := {
  dims : dict nat;
  time : option (list timestamp);
  coords : dict Var;
  data_vars : dict Var
}.

Record DataArray : Type := {
  da_dims : dict nat;
  da_at : Index -> val
}.

Definition dim_names (ds : Dataset) : list string := keys (dims ds).

(** [list(ds.coords)] *)
Definition coord_names (ds : Dataset) : list string :=
  match time ds with
  | Some _ => ["time"%string]
  | None => []
  end ++ keys (coords ds).

Definition var_names (ds : Dataset) : list string :=
  coord_names ds ++ keys (data_vars ds).

Definition dim_size (ds : Dataset) (d : string) : nat :=
  match dict_get (dims ds) d with
  | Some n => n
  | None => 0
  end.

(** *** [Dataset.rename] *)

Definition rename_name (name_dict : dict string) (n : string) : string :=
  match dict_get name_dict n with
  | Some n' => n'
  | None => n
  end.

Definition rename_var (name_dict : dict string) (v : Var) : Var :=
  {| v_dims := map (rename_name name_dict) (v_dims v);
     v_at := fun env => v_at v (fun d => env (rename_name name_dict d)) |}.

Definition rename_entry {B : Type} (name_dict : dict string)
  (f : B -> B) (p : string * B) : string * B :=
  (rename_name name_dict (fst p), f (snd p)).

(** The dataset under its new names. *)
Definition renamed (ds : Dataset) (name_dict : dict string) : Dataset :=
  {| dims := map (rename_entry name_dict (fun n => n)) (dims ds);
     time := time ds;
     coords := map (rename_entry name_dict (rename_var name_dict)) (coords ds);
     data_vars := map (rename_entry name_dict (rename_var name_dict))
                    (data_vars ds) |}.

(** Renames dimensions and variables.  Fails on a name that is neither,
    and when two variables end up with one name.  The time coordinate is
    not among the names the notebook renames. *)
Definition rename (ds : Dataset) (name_dict : dict string) : result Dataset :=
  if negb (forallb (fun k => mem k (var_names ds) || mem k (dim_names ds))
             (keys name_dict))
  then Raise (ValueError "cannot rename: not a variable or dimension")
  else if has_dup (map (rename_name name_dict) (var_names ds))
  then Raise (ValueError "the new name conflicts")
  else Ok (renamed ds name_dict).

(** *** [Dataset.sel(time=slice(...))]

    Label-based slicing on the time index.  The time stamps lie inside
    their month, so that the bounds of the window, the first instant of a
    year and the last instant of another, are no stamps of the index and
    are located by bisection: on an index in chronological order the steps
    inside the window are selected, in order; on an index in reverse order
    the located range is empty; on an index in neither order the bounds are
    not located and the selection raises [KeyError]. *)

Definition kept_positions (sl : Z * Z) (ts : list timestamp) : list nat :=
  filter (fun i => in_slice sl (nth i ts 0%Z)) (seq 0 (List.length ts)).

Definition slice_positions (sl : Z * Z) (ts : list timestamp)
  : result (list nat) :=
  if ascending ts then Ok (kept_positions sl ts)
  else if descending ts then Ok []
  else Raise (KeyError "slice bound not found in the time index").

Definition isel_var (d : string) (pos : list nat) (v : Var) : Var :=
  if mem d (v_dims v)
  then {| v_dims := v_dims v;
          v_at := fun env => v_at v (upd env d (nth (env d) pos 0)) |}
  else v.

(** The steps at the positions [pos] of the time steps [ts]. *)
Definition selected (ds : Dataset) (ts : list timestamp) (pos : list nat)
  : Dataset :=
  {| dims := map (fun p => if String.eqb (fst p) "time"
                           then (fst p, List.length pos) else p) (dims ds);
     time := Some (map (fun i => nth i ts 0%Z) pos);
     coords := map (fun p => (fst p, isel_var "time" pos (snd p))) (coords ds);
     data_vars := map (fun p => (fst p, isel_var "time" pos (snd p)))
                    (data_vars ds) |}.

(** A time dimension without a coordinate is sliced by position, which
    the strings of the window cannot do. *)
Definition sel_time (ds : Dataset) (sl : Z * Z) : result Dataset :=
  match time ds with
  | None =>
      if mem "time" (dim_names ds)
      then Raise (TypeError "slice indices must be integers")
      else Raise (KeyError "time is not a valid dimension or coordinate")
  | Some ts =>
      pos <- slice_positions sl ts ;;
      Ok (selected ds ts pos)
  end.

(** *** [Dataset.drop] of one variable

    The dimensions of a dataset are those of its variables: a dimension
    that the dropped variable was alone to span goes with it. *)

Definition remove_key {B : Type} (name : string) (d : dict B) : dict B :=
  filter (fun p => negb (String.eqb (fst p) name)) d.

(** Some variable spans the dimension [d]. *)
Definition spanned (t : option (list timestamp)) (vars : dict Var)
  (d : string) : bool :=
  (String.eqb d "time" && match t with Some _ => true | None => false end)
  || existsb (fun p => mem d (v_dims (snd p))) vars.

Definition dropped (ds : Dataset) (name : string) : Dataset :=
  let t := if String.eqb name "time" then None else time ds in
  let c := remove_key name (coords ds) in
  let v := remove_key name (data_vars ds) in
  {| dims := filter (fun p => spanned t (c ++ v) (fst p)) (dims ds);
     time := t;
     coords := c;
     data_vars := v |}.

Definition drop (ds : Dataset) (name : string) : result Dataset :=
  if negb (mem name (var_names ds))
  then Raise (ValueError "variable cannot be found in this dataset")
  else Ok (dropped ds name).

(** *** [ds[name]] for a float variable

    The notebook indexes the dataset with ['lat'], ['lon'] and ['tas'].
    A dimension without a coordinate reads as its positions. *)

Definition as_array (ds : Dataset) (v : Var) : DataArray :=
  {| da_dims := map (fun d => (d, dim_size ds d)) (v_dims v);
     da_at := v_at v |}.

Definition getitem (ds : Dataset) (name : string) : result DataArray :=
  match dict_get (coords ds ++ data_vars ds) name with
  | Some v => Ok (as_array ds v)
  | None =>
      if mem name (dim_names ds)
      then Ok {| da_dims := [(name, dim_size ds name)];
                 da_at := fun env => Num (INR (env name)) |}
      else Raise (KeyError name)
  end.

(** *** Elementwise operations, with broadcasting by dimension name *)

Definition da_map (f : val -> val) (a : DataArray) : DataArray :=
  {| da_dims := da_dims a; da_at := fun env => f (da_at a env) |}.

Definition da_binop (f : val -> val -> val) (a b : DataArray) : DataArray :=
  {| da_dims := da_dims a ++
                filter (fun p => negb (mem (fst p) (keys (da_dims a))))
                  (da_dims b);
     da_at := fun env => f (da_at a env) (da_at b env) |}.

(** [np.deg2rad(x)] is [x * (pi / 180)]. *)
Definition np_deg2rad : DataArray -> DataArray :=
  da_map (fun a => vmul a (Num (PI / 180))).

Definition np_cos : DataArray -> DataArray := da_map vcos.

Definition ones_like (a : DataArray) : DataArray :=
  {| da_dims := da_dims a; da_at := fun _ => Num 1 |}.

(** *** [DataArray.sum(dim=[...])] *)

(** All the cells met when the listed dimensions run over their lengths. *)
Fixpoint cells_over (over : dict nat) (f : Index -> val) (env : Index)
  : list val :=
  match over with
  | [] => [f env]
  | (d, n) :: rest =>
      flat_map (fun i => cells_over rest f (upd env d i)) (seq 0 n)
  end.

Definition summed (a : DataArray) (dim : list string) : DataArray :=
  {| da_dims := filter (fun p => negb (mem (fst p) dim)) (da_dims a);
     da_at := fun env =>
       nansum (cells_over (filter (fun p => mem (fst p) dim) (da_dims a))
                 (da_at a) env) |}.

Definition sum (a : DataArray) (dim : list string) : result DataArray :=
  if negb (forallb (fun d => mem d (keys (da_dims a))) dim)
  then Raise (ValueError "dimension not found in array")
  else Ok (summed a dim).

(** *** [DataArray.squeeze()]: the dimensions of length one go. *)

Definition squeeze (a : DataArray) : DataArray :=
  {| da_dims := filter (fun p => negb (Nat.eqb (snd p) 1)) (da_dims a);
     da_at := fun env =>
       da_at a (fun d => match dict_get (da_dims a) d with
                         | Some 1 => 0
                         | _ => env d
                         end) |}.

End Xr.

Import Xr.

(** ** The loading cell: one turn of the loop over [dset_dict.items()] *)

(** [['lat','lon','time']] *)
Definition kept_coords : list string := ["lat"; "lon"; "time"]%string.

(** The loop over [ds.coords], whose names are [names]. *)
Fixpoint drop_coords (names : list string) (ds : Dataset) : result Dataset :=
  match names with
  | [] => Ok ds
  | coord :: rest =>
      if negb (mem coord kept_coords)
      then ds' <- drop ds coord ;; drop_coords rest ds'
      else drop_coords rest ds
  end.

(** [{'longitude':'lon', 'latitude': 'lat'}] *)
Definition spatial_names : dict string :=
  [("longitude", "lon"); ("latitude", "lat")]%string.

(** From the top of the loop body to the end of the [drop] loop. *)
Definition normalize (ds : Dataset) : result Dataset :=
  ds <- (if mem "longitude" (dim_names ds) && mem "latitude" (dim_names ds)
         then rename ds spatial_names
         else Ok ds) ;;
  (* xr.decode_cf: the time coordinate is stored decoded *)
  ds <- sel_time ds time_slice ;;
  drop_coords (coord_names ds) ds.

(** [cos_lat_2d] *)
Definition cos_lat_2d (ds : Dataset) : result DataArray :=
  lat <- getitem ds "lat" ;;
  lon <- getitem ds "lon" ;;
  Ok (da_binop vmul (np_cos (np_deg2rad lat)) (ones_like lon)).

(** [gmst] *)
Definition global_mean (ds : Dataset) : result DataArray :=
  w <- cos_lat_2d ds ;;
  tas <- getitem ds "tas" ;;
  num <- sum (da_binop vmul tas w) ["lat"; "lon"]%string ;;
  den <- sum w ["lat"; "lon"]%string ;;
  Ok (da_binop vdiv num den).

(** The values stored under [name]: [(ds_dict[name], gmst_dict[name])]. *)
Definition process_run (ds : Dataset) : result (Dataset * DataArray) :=
  ds' <- normalize ds ;;
  gmst <- global_mean ds' ;;
  Ok (ds', squeeze gmst).

(** The whole loop. *)
Fixpoint load_loop (items : dict Dataset)
  (acc : dict Dataset * dict DataArray)
  : outcome (dict Dataset * dict DataArray) :=
  match items with
  | [] => Finished acc
  | (name, ds) :: rest =>
      match process_run ds with
      | Raise e => Aborted e acc
      | Ok (ds', gmst) =>
          load_loop rest
            (dict_set (fst acc) name ds', dict_set (snd acc) name gmst)
      end
  end.

(** ** One-dimensional series

    A global-mean series once squeezed: one cell per time step, labelled by
    its time stamp. *)

Definition Series : Type := list (timestamp * val).

Definition times (s : Series) : list timestamp := map fst s.

(** The series of a one-dimensional array along [time]. *)
Definition series_of (ts : list timestamp) (a : DataArray) : Series :=
  map (fun i => (nth i ts 0%Z, da_at a (upd (fun _ => 0) "time" i)))
    (seq 0 (List.length ts)).

(** [xr.concat([h, f], dim='time')] *)
Definition concat_time (h f : Series) : Series := h ++ f.



(** ** The anomaly cell: one turn of the loop over [gmst_ssp_dict.items()] *)

Fixpoint insert_unique (k : Z) (l : list Z) : list Z :=
  match l with
  | [] => [k]
  | k' :: l' =>
      if (k <? k')%Z then k :: l
      else if (k =? k')%Z then l
      else k' :: insert_unique k l'
  end.

(** The distinct group labels, in increasing order. *)
Definition group_labels (ks : list Z) : list Z :=
  fold_right insert_unique [] ks.

Definition group_cells (key : timestamp -> Z) (k : Z) (s : Series) : list val :=
  map snd (filter (fun p => Z.eqb (key (fst p)) k) s).

(** [s.groupby(key).mean('time')] *)
Definition groupby_mean (key : timestamp -> Z) (s : Series) : list (Z * val) :=
  map (fun k => (k, nanmean (group_cells key k s)))
    (group_labels (map key (times s))).

Fixpoint group_value (g : list (Z * val)) (k : Z) : val :=
  match g with
  | [] => NaN
  | (k', v) :: g' => if Z.eqb k' k then v else group_value g' k
  end.

(** [s.groupby(key) - g] *)
Definition groupby_sub (key : timestamp -> Z) (s : Series)
  (g : list (Z * val)) : Series :=
  map (fun p => (fst p, vsub (snd p) (group_value g (key (fst p))))) s.

Definition gmst_climatology (gmst : Series) : list (Z * val) :=
  groupby_mean month gmst.

Definition gmst_anomalies (gmst : Series) : Series :=
  groupby_sub month gmst (gmst_climatology gmst).

(** [s.sel(time=slice(...))] *)
Definition sel_window (sl : Z * Z) (s : Series) : result Series :=
  pos <- slice_positions sl (times s) ;;
  Ok (map (fun i => nth i s (0%Z, NaN)) pos).

(** The series [a - ref] *)
Definition shifted (a : Series) (ref : val) : Series :=
  map (fun p => (fst p, vsub (snd p) ref)) a.

(** [a - a.sel(time=slice('1850','1900')).mean(dim='time')] *)
Definition rebase (a : Series) : result Series :=
  reference <- sel_window (1850%Z, 1900%Z) a ;;
  Ok (shifted a (nanmean (map snd reference))).

(** [gmst_ann_anomalies], labelled by year. *)
Definition gmst_ann_anomalies (gmst : Series) : result (list (Z * val)) :=
  a <- rebase (gmst_anomalies gmst) ;;
  Ok (groupby_mean year a).

(** ** The cells as doubles

    The same sums, means and anomalies on IEEE 754 doubles, each operation
    with its rounding.  The cosine is no operation of the doubles: the
    weight of each latitude is given, as [np.cos(np.deg2rad(lat))]
    computes it; on the equator it is 1. *)

Module Double.

Definition cell : Type := PrimFloat.float.

Definition of_Z (z : Z) : cell := PrimFloat.of_uint63 (Uint63.of_Z z).

(** The doubles that Python writes [0.1] and [0.2]. *)
Definition tenth : cell := PrimFloat.div (of_Z 1) (of_Z 10).
Definition fifth : cell := PrimFloat.div (of_Z 2) (of_Z 10).

Definition nan_to_zero (a : cell) : cell :=
  if PrimFloat.is_nan a then PrimFloat.zero else a.

Definition nansum (cells : list cell) : cell :=
  fold_left PrimFloat.add (map nan_to_zero cells) PrimFloat.zero.

Definition nanmean (cells : list cell) : cell :=
  match filter (fun a => negb (PrimFloat.is_nan a)) cells with
  | [] => PrimFloat.nan
  | present => PrimFloat.div (fold_left PrimFloat.add present PrimFloat.zero)
                 (of_Z (Z.of_nat (List.length present)))
  end.

(** The cells of one time step, one row per latitude, each times the
    weight of its latitude. *)
Definition weighted (weights : list cell) (field : list (list cell))
  : list cell :=
  List.concat (map (fun p => map (fun c => PrimFloat.mul c (fst p)) (snd p))
                 (combine weights field)).

(** One time step of [gmst]: [cos_lat_2d] holds the weight of each latitude
    times one at every longitude. *)
Definition gmst_step (weights : list cell) (field : list (list cell)) : cell :=
  PrimFloat.div
    (nansum (weighted weights field))
    (nansum (weighted weights (map (map (fun _ => PrimFloat.one)) field))).

Definition Series : Type := list (timestamp * cell).

Definition group_cells (key : timestamp -> Z) (k : Z) (s : Series)
  : list cell :=
  map snd (filter (fun p => Z.eqb (key (fst p)) k) s).

Definition groupby_mean (key : timestamp -> Z) (s : Series)
  : list (Z * cell) :=
  map (fun k => (k, nanmean (group_cells key k s)))
    (group_labels (map key (map fst s))).

Fixpoint group_value (g : list (Z * cell)) (k : Z) : cell :=
  match g with
  | [] => PrimFloat.nan
  | (k', v) :: g' => if Z.eqb k' k then v else group_value g' k
  end.

Definition groupby_sub (key : timestamp -> Z) (s : Series)
  (g : list (Z * cell)) : Series :=
  map (fun p => (fst p, PrimFloat.sub (snd p) (group_value g (key (fst p))))) s.

Definition gmst_climatology (gmst : Series) : list (Z * cell) :=
  groupby_mean month gmst.

Definition gmst_anomalies (gmst : Series) : Series :=
  groupby_sub month gmst (gmst_climatology gmst).

End Double.

(** ** The weighted mean, as the specification words it *)

Definition Rsum (l : list R) : R := fold_right Rplus 0%R l.

(** The sum of [g i j] over the [n] latitudes and the [m] longitudes. *)
Definition grid_sum (n m : nat) (g : nat -> nat -> R) : R :=
  Rsum (map (fun i => Rsum (map (g i) (seq 0 m))) (seq 0 n)).

(** [sum(field * weight) / sum(weight)] *)
Definition weighted_mean (n m : nat) (field weight : nat -> nat -> R) : R :=
  (grid_sum n m (fun i j => field i j * weight i j) / grid_sum n m weight)%R.

(** The same on cells, one missing cell making the sum missing. *)
Definition weighted_mean_cells (n m : nat) (field : nat -> nat -> val)
  (weight : nat -> nat -> R) : val :=
  vdiv (fold_left vadd
          (flat_map (fun i => map (fun j => vmul (field i j) (Num (weight i j)))
                                (seq 0 m))
             (seq 0 n))
          (Num 0))
       (Num (grid_sum n m weight)).

(** The weight of the cell at latitude [i]: the cosine of the latitude, in
    degrees, once in radians; the same at every longitude [j]. *)
Definition cos_weight (lats : nat -> R) (i j : nat) : R :=
  cos (lats i * (PI / 180)).

(** What a cell adds to a sum that skips the missing cells. *)
Definition or_zero (a : val) : R :=
  match a with
  | Num x => x
  | NaN | Inf _ => 0%R
  end.

Definition finite_or_missing (a : val) : Prop :=
  match a with
  | Inf _ => False
  | NaN | Num _ => True
  end.

(** A gridded field: the latitudes [lats], in degrees, along [lat], a
    coordinate along [lon], and the temperature [tas] on the dimensions
    [outer] (the time, and what comes with it) followed by [lat] and
    [lon]. *)
Definition is_gridded (ds : Dataset) (lats : nat -> R) (tas : Var)
  (outer : list string) : Prop :=
  (exists vlat, dict_get (coords ds ++ data_vars ds) "lat" = Some vlat
                /\ v_dims vlat = ["lat"%string]
                /\ forall env, v_at vlat env = Num (lats (env "lat"%string)))
  /\ (exists vlon, dict_get (coords ds ++ data_vars ds) "lon" = Some vlon
                   /\ v_dims vlon = ["lon"%string])
  /\ dict_get (coords ds ++ data_vars ds) "tas" = Some tas
  /\ v_dims tas = outer ++ ["lat"; "lon"]%string
  /\ ~ In "lat"%string outer /\ ~ In "lon"%string outer.

(** The cell of [tas] at latitude [i] and longitude [j], the other
    positions being those of [env]. *)
Definition cell_at (tas : Var) (env : Index) (i j : nat) : val :=
  v_at tas (upd (upd env "lat" i) "lon" j).

(** ** Naming conventions of the raw datasets *)

(** The variables of a dataset have distinct names. *)
Definition unique_names (ds : Dataset) : Prop := NoDup (var_names ds).

(** Every variable spans dimensions of the dataset. *)
Definition dims_declared (ds : Dataset) : Prop :=
  forall name v, In (name, v) (coords ds ++ data_vars ds) ->
                 incl (v_dims v) (dim_names ds).

Definition has_both (ds : Dataset) (a b : string) : Prop :=
  In a (dim_names ds) /\ In b (dim_names ds).

(** The spatial dimensions are [lat] and [lon], each with its coordinate. *)
Definition uses_lat_lon (ds : Dataset) : Prop :=
  has_both ds "lat" "lon"
  /\ In "lat"%string (keys (coords ds)) /\ In "lon"%string (keys (coords ds))
  /\ ~ has_both ds "latitude" "longitude".

(** The spatial dimensions are [latitude] and [longitude], each with its
    coordinate, and the short names are not in use. *)
Definition uses_latitude_longitude (ds : Dataset) : Prop :=
  has_both ds "latitude" "longitude"
  /\ In "latitude"%string (keys (coords ds))
  /\ In "longitude"%string (keys (coords ds))
  /\ ~ In "lat"%string (var_names ds) /\ ~ In "lon"%string (var_names ds).

(** Neither pair of names is among the dimensions. *)
Definition no_spatial_names (ds : Dataset) : Prop :=
  ~ has_both ds "lat" "lon" /\ ~ has_both ds "latitude" "longitude".

(** The spatial dimensions bear the short names, and the renaming is not
    attempted. *)
Definition lat_lon_dims (ds : Dataset) : Prop :=
  has_both ds "lat" "lon" /\ ~ has_both ds "latitude" "longitude".

(** The spatial dimensions bear the long names, and the short names are
    free. *)
Definition latitude_longitude_dims (ds : Dataset) : Prop :=
  has_both ds "latitude" "longitude"
  /\ ~ In "lat"%string (var_names ds) /\ ~ In "lon"%string (var_names ds)
  /\ ~ In "lat"%string (dim_names ds) /\ ~ In "lon"%string (dim_names ds).

(** The dataset has nothing named [tas]. *)
Definition lacks_temperature (ds : Dataset) : Prop :=
  ~ In "tas"%string (var_names ds) /\ ~ In "tas"%string (dim_names ds).

(** ** The anomaly cell: the loop

    The loop visits [gmst_ssp_dict.items()] and stores the annual anomalies
    of each series back under its own key. *)



(** ** The warming-pattern cell *)

(** [d[list(d.keys())[0]]] *)
Definition first_value {A : Type} (d : dict A) : result A :=
  k <- list_index (keys d) 0 ;;
  match dict_get d k with
  | Some a => Ok a
  | None => Raise (KeyError k)
  end.

(** [a.sel(time=slice(...)).mean(dim='time')] on an array of the dataset
    [ds]: at every position along the other dimensions, the mean of the
    cells of the steps inside the window, missing cells apart. *)
Definition sel_mean_time (ds : Dataset) (a : DataArray) (sl : Z * Z)
  : result DataArray :=
  match time ds, mem "time" (keys (da_dims a)) with
  | Some ts, true =>
      pos <- slice_positions sl ts ;;
      Ok {| da_dims := filter (fun p => negb (String.eqb (fst p) "time"))
                         (da_dims a);
            da_at := fun env =>
              nanmean (map (fun i => da_at a (upd env "time" i)) pos) |}
  | None, true => Raise (TypeError "slice indices must be integers")
  | _, false => Raise (KeyError "time is not a valid dimension or coordinate")
  end.

(** [temperature_change], from the spliced dataset [ssp_ds]. *)
Definition temperature_change (ssp_ds : Dataset) : result DataArray :=
  tas <- getitem ssp_ds "tas" ;;
  late <- sel_mean_time ssp_ds tas (2080%Z, 2100%Z) ;;
  tas' <- getitem ssp_ds "tas" ;;
  early <- sel_mean_time ssp_ds tas' (1980%Z, 2000%Z) ;;
  Ok (da_binop vsub late early).

(** ** Words for the further properties *)

(** The number of occurrences of a character. *)
Fixpoint count_char (c : ascii) (s : string) : nat :=
  match s with
  | EmptyString => 0
  | String c' s' => (if Ascii.eqb c' c then 1 else 0) + count_char c s'
  end.

(** Some key of the dictionary matches the model name of [name]. *)
Definition has_match {A : Type} (d : dict A) (name : string) : bool :=
  match model_name_of name with
  | Ok model_name => existsb (fun p => is_match model_name (fst p)) d
  | Raise _ => false
  end.

(** The keys under which the splicer stores a series. *)
Definition spliced_keys {A : Type} (d : dict A) (ks : list string)
  : list string :=
  filter (fun k => str_in "ssp" k && has_match d k) ks.

(** ** Sample inputs *)

(** Two historical runs whose keys both hold the model name of the first
    scenario run, and a scenario run without a historical companion. *)
Definition sample_gmst_dict : dict Series :=
  [("CMIP.NCAR.CESM2.historical.Amon.gn"%string, [(22200%Z, Num 287)]);
   ("CMIP.NCAR.CESM2-WACCM.historical.Amon.gn"%string, [(22200%Z, Num 288)]);
   ("ScenarioMIP.NCAR.CESM2.ssp585.Amon.gn"%string, [(24180%Z, Num 289)]);
   ("ScenarioMIP.MIROC.MIROC6.ssp585.Amon.gn"%string, [(24180%Z, Num 290)])].

(** A scenario key with two fields only. *)
Definition short_key_dict : dict Series :=
  [("CMIP.NCAR.CESM2.historical.Amon.gn"%string, [(22200%Z, Num 287)]);
   ("ssp585.CESM2"%string, [(24180%Z, Num 289)])].

(** Five monthly steps: January 1849, January and February 1850, January
    2100 and January 2101. *)
Definition sample_times : list timestamp :=
  [22188; 22200; 22201; 25200; 25212]%Z.

(** A dataset on one latitude (the equator) and two longitudes, under the
    given names for the two spatial dimensions, with the scalar coordinate
    [height] and the temperature [cell] everywhere. *)
Definition sample_tas (lat lon : string) (cell : val) : Var :=
  {| v_dims := ["time"%string; lat; lon]; v_at := fun _ => cell |}.

Definition sample_dataset (lat lon : string) (cell : val) : Dataset :=
  {| dims := [("time"%string, 5); (lat, 1); (lon, 2)];
     time := Some sample_times;
     coords := [(lat, {| v_dims := [lat]; v_at := fun _ => Num 0 |});
                (lon, {| v_dims := [lon];
                         v_at := fun env => Num (180 * INR (env lon)) |});
                ("height"%string, {| v_dims := []; v_at := fun _ => Num 2 |})];
     data_vars := [("tas"%string, sample_tas lat lon cell)] |}.

(** A raw dataset whose spatial dimensions carry no coordinate. *)
Definition sample_bare_dims : Dataset :=
  {| dims := [("time"%string, 5); ("lat"%string, 1); ("lon"%string, 2)];
     time := Some sample_times;
     coords := [];
     data_vars := [("tas"%string, sample_tas "lat" "lon" (Num 280))] |}.

(** A raw dataset whose time steps are out of order: February 1850,
    January 1850, January 1851. *)
Definition sample_unordered : Dataset :=
  {| dims := [("time"%string, 3); ("lat"%string, 1); ("lon"%string, 2)];
     time := Some [22201; 22200; 22212]%Z;
     coords := [("lat"%string,
                 {| v_dims := ["lat"%string]; v_at := fun _ => Num 0 |});
                ("lon"%string,
                 {| v_dims := ["lon"%string];
                    v_at := fun env => Num (180 * INR (env "lon"%string)) |})];
     data_vars := [("tas"%string, sample_tas "lat" "lon" (Num 280))] |}.

(** A raw dataset whose time dimension carries no coordinate. *)
Definition sample_bare_time : Dataset :=
  {| dims := [("time"%string, 5); ("y"%string, 1); ("x"%string, 2)];
     time := None;
     coords := [];
     data_vars := [("tas"%string, sample_tas "y" "x" (Num 280))] |}.

(** A raw dataset with one long name, [latitude], and the bounds of its
    latitudes as a coordinate on a dimension of its own. *)
Definition sample_with_bounds : Dataset :=
  {| dims := [("time"%string, 5); ("latitude"%string, 1); ("lon"%string, 2);
              ("bnds"%string, 2)];
     time := Some sample_times;
     coords := [("latitude"%string,
                 {| v_dims := ["latitude"%string]; v_at := fun _ => Num 0 |});
                ("lon"%string,
                 {| v_dims := ["lon"%string];
                    v_at := fun env => Num (180 * INR (env "lon"%string)) |});
                ("lat_bnds"%string,
                 {| v_dims := ["latitude"%string; "bnds"%string];
                    v_at := fun env =>
                      Num (180 * INR (env "bnds"%string) - 90) |})];
     data_vars := [("tas"%string, sample_tas "latitude" "lon" (Num 280))] |}.

(** A gridded field as the loading cell leaves it: three monthly steps,
    the equator and two longitudes, the coordinates [lat] and [lon], and
    the temperature [cell] everywhere. *)
Definition sample_field (cell : val) : Dataset :=
  {| dims := [("time"%string, 3); ("lat"%string, 1); ("lon"%string, 2)];
     time := Some [22200; 22201; 25200]%Z;
     coords := [("lat"%string,
                 {| v_dims := ["lat"%string]; v_at := fun _ => Num 0 |});
                ("lon"%string,
                 {| v_dims := ["lon"%string];
                    v_at := fun env => Num (180 * INR (env "lon"%string)) |})];
     data_vars := [("tas"%string, sample_tas "lat" "lon" cell)] |}.

(** January and February of 1850 and of 1851, with the value 1 in January
    and 2 in February. *)
Definition sample_periodic : Series :=
  [(22200%Z, Num 1); (22201%Z, Num 2); (22212%Z, Num 1); (22213%Z, Num 2)].

(** A scenario key with two fields only, between two well-formed ones. *)
Definition stopping_dict : dict Series :=
  [("CMIP.NCAR.CESM2.historical.Amon.gn"%string, [(22200%Z, Num 287)]);
   ("ScenarioMIP.NCAR.CESM2.ssp585.Amon.gn"%string, [(24180%Z, Num 289)]);
   ("ssp585.CESM2"%string, [(24180%Z, Num 290)]);
   ("ScenarioMIP.NCAR.CESM2.ssp245.Amon.gn"%string, [(24180%Z, Num 288)])].

(** A scenario key whose third field is empty, and the historical run of
    another model. *)
Definition empty_field_dict : dict Series :=
  [("CMIP.MIROC.MIROC6.historical.Amon.gn"%string, [(22200%Z, Num 287)]);
   ("ScenarioMIP.NCAR..ssp585.Amon.gn"%string, [(24180%Z, Num 289)])].

(** Raw datasets of three runs; the second has neither pair of names. *)
Definition sample_dset_dict : dict Dataset :=
  [("CMIP.NCAR.CESM2.historical.Amon.gn"%string,
    sample_dataset "lat" "lon" (Num 287));
   ("CMIP.X.Y.historical.Amon.gn"%string,
    sample_dataset "y" "x" (Num 280));
   ("ScenarioMIP.NCAR.CESM2.ssp585.Amon.gn"%string,
    sample_dataset "latitude" "longitude" (Num 289))].

(** Three latitudes, 60 degrees south, the equator and 60 degrees north,
    two longitudes and three monthly steps, with the temperature [cell]. *)
Definition three_lats (i : nat) : R :=
  match i with
  | 0 => (-60)%R
  | 1 => 0%R
  | _ => 60%R
  end.

Definition sample_three_lats_tas (cell : Index -> val) : Var :=
  {| v_dims := ["time"; "lat"; "lon"]%string; v_at := cell |}.

Definition sample_three_lats (cell : Index -> val) : Dataset :=
  {| dims := [("time"%string, 3); ("lat"%string, 3); ("lon"%string, 2)];
     time := Some [22200; 22201; 25200]%Z;
     coords := [("lat"%string,
                 {| v_dims := ["lat"%string];
                    v_at := fun env => Num (three_lats (env "lat"%string)) |});
                ("lon"%string,
                 {| v_dims := ["lon"%string];
                    v_at := fun env => Num (180 * INR (env "lon"%string)) |})];
     data_vars := [("tas"%string, sample_three_lats_tas cell)] |}.

(** A field that grows by one degree from a latitude to the next. *)
Definition sample_gradient (env : Index) : val :=
  Num (280 + INR (env "lat"%string)).

(** January and February of 1850, 1851 and 1852, with 0.1 in January and
    0.2 in February: as numbers, and as doubles. *)
Definition sample_tenths : Series :=
  [(22200%Z, Num (1 / 10)); (22201%Z, Num (2 / 10));
   (22212%Z, Num (1 / 10)); (22213%Z, Num (2 / 10));
   (22224%Z, Num (1 / 10)); (22225%Z, Num (2 / 10))].

Definition double_tenths : Double.Series :=
  [(22200%Z, Double.tenth); (22201%Z, Double.fifth);
   (22212%Z, Double.tenth); (22213%Z, Double.fifth);
   (22224%Z, Double.tenth); (22225%Z, Double.fifth)].


(** The field of 280 with the cells of the second longitude missing. *)
Definition sample_holes_tas : Var :=
  {| v_dims := ["time"; "lat"; "lon"]%string;
     v_at := fun env => if Nat.eqb (env "lon"%string) 0 then Num 280 else NaN |}.

Definition sample_holes : Dataset :=
  {| dims := dims (sample_field NaN);
     time := time (sample_field NaN);
     coords := coords (sample_field NaN);
     data_vars := [("tas"%string, sample_holes_tas)] |}.

(** A grid without a longitude. *)
Definition sample_empty_grid : Dataset :=
  {| dims := [("time"%string, 3); ("lat"%string, 1); ("lon"%string, 0)];
     time := time (sample_field NaN);
     coords := coords (sample_field NaN);
     data_vars := [("tas"%string, sample_tas "lat" "lon" (Num 280))] |}.

(** One step only inside the window. *)
Definition sample_one_step : Dataset :=
  {| dims := [("time"%string, 2); ("lat"%string, 1); ("lon"%string, 2)];
     time := Some [22188; 22200]%Z;
     coords := coords (sample_field NaN);
     data_vars := [("tas"%string, sample_tas "lat" "lon" (Num 280))] |}.

(** A field that holds 1 in January and February 1980 and 4 in January
    2080, at every grid cell. *)
Definition sample_two_periods_tas : Var :=
  {| v_dims := ["time"; "lat"; "lon"]%string;
     v_at := fun env => if Nat.ltb (env "time"%string) 2 then Num 1 else Num 4 |}.

Definition sample_two_periods : Dataset :=
  {| dims := dims (sample_field NaN);
     time := Some [23760; 23761; 24960]%Z;
     coords := coords (sample_field NaN);
     data_vars := [("tas"%string, sample_two_periods_tas)] |}.

(* ===================================================================== *)
(** * Part II: theorems                                                   *)
(* ===================================================================== *)

Unset Implicit Arguments.

Example split_key :
  str_split "."%char "ScenarioMIP.NCAR.CESM2.ssp585.Amon.gn"
  = ["ScenarioMIP"; "NCAR"; "CESM2"; "ssp585"; "Amon"; "gn"]%string.
Proof. reflexivity. Qed.

Example split_empty : str_split "."%char "" = [""%string].
Proof. reflexivity. Qed.

Example splice_two :
  splice (@app nat)
    [("CMIP.NCAR.CESM2.historical.Amon.gn"%string, [1]);
     ("ScenarioMIP.NCAR.CESM2.ssp585.Amon.gn"%string, [2]);
     ("ScenarioMIP.MIROC.MIROC6.ssp585.Amon.gn"%string, [3])]
  = Finished [("ScenarioMIP.NCAR.CESM2.ssp585.Amon.gn"%string, [1; 2])].
Proof. reflexivity. Qed.

Example normalize_long_names :
  match normalize (sample_dataset "latitude" "longitude" (Num 280)) with
  | Ok ds' => Some (dims ds', coord_names ds', keys (data_vars ds'), time ds')
  | Raise _ => None
  end
  = Some ([("time", 3); ("lat", 1); ("lon", 2)]%string,
          ["time"; "lat"; "lon"]%string, ["tas"%string],
          Some [22200; 22201; 25200]%Z).
Proof. reflexivity. Qed.

Example normalize_mixed_names :
  match normalize (sample_dataset "latitude" "lon" (Num 280)) with
  | Ok ds' => Some (dim_names ds', coord_names ds')
  | Raise _ => None
  end
  = Some (["time"; "latitude"; "lon"]%string, ["time"; "lon"]%string).
Proof. reflexivity. Qed.

Example process_run_mixed_names :
  process_run (sample_dataset "latitude" "lon" (Num 280))
  = Raise (KeyError "lat").
Proof. reflexivity. Qed.

Example process_run_without_tas :
  process_run {| dims := dims (sample_field NaN);
                 time := time (sample_field NaN);
                 coords := coords (sample_field NaN);
                 data_vars := [] |}
  = Raise (KeyError "tas").
Proof. reflexivity. Qed.

Example splice_short_key :
  splice (@app nat)
    [("CMIP.NCAR.CESM2.historical.Amon.gn"%string, [1]);
     ("ssp585.CESM2"%string, [2])]
  = Aborted IndexError [].
Proof. reflexivity. Qed.

(** ** Dictionaries *)

Lemma dict_get_set_same (A : Type) (d : dict A) k a :
  dict_get (dict_set d k a) k = Some a.
Proof.
  induction d as [|[k' a'] d IH]; simpl.
  - now rewrite String.eqb_refl.
  - destruct (String.eqb k' k) eqn:E; simpl; rewrite E; auto.
Qed.

Lemma dict_get_set_other (A : Type) (d : dict A) k k' a :
  k <> k' -> dict_get (dict_set d k a) k' = dict_get d k'.
Proof.
  intros Hne. induction d as [|[k0 a0] d IH]; simpl.
  - destruct (String.eqb_spec k k'); congruence.
  - destruct (String.eqb_spec k0 k); simpl.
    + subst k0. destruct (String.eqb_spec k k'); congruence.
    + destruct (String.eqb_spec k0 k'); auto.
Qed.

Lemma in_keys (A : Type) (d : dict A) k a : In (k, a) d -> In k (keys d).
Proof. intros H. apply (in_map fst) in H. exact H. Qed.

(** ** The splicer *)

Lemma model_name_of_long name :
  3 <= List.length (str_split "."%char name) ->
  exists m, model_name_of name = Ok m.
Proof.
  intros H. unfold model_name_of, list_index.
  destruct (nth_error (str_split "."%char name) 2) eqn:E; eauto.
  apply nth_error_None in E. lia.
Qed.

Lemma model_name_of_short name :
  List.length (str_split "."%char name) < 3 ->
  model_name_of name = Raise IndexError.
Proof.
  intros H. unfold model_name_of, list_index.
  destruct (nth_error (str_split "."%char name) 2) eqn:E; auto.
  assert (nth_error (str_split "."%char name) 2 <> None) by congruence.
  apply nth_error_Some in H0. lia.
Qed.

Section SplicerFacts.

Variable A : Type.
Variable xr_concat : A -> A -> A.

Lemma find_hist_no_match name m (items : dict A) acc :
  model_name_of name = Ok m ->
  (forall p, In p items -> is_match m (fst p) = false) ->
  find_hist name items acc = Ok acc.
Proof.
  intros Hm. induction items as [|[hn h] items IH]; intros Hno; simpl; auto.
  rewrite Hm. simpl.
  assert (Hhn : is_match m hn = false) by (apply (Hno (hn, h)); now left).
  rewrite Hhn. apply IH. intros p Hp. apply Hno. now right.
Qed.

Lemma find_hist_last_match name m (pre post : dict A) hn h acc :
  model_name_of name = Ok m ->
  is_match m hn = true ->
  (forall p, In p post -> is_match m (fst p) = false) ->
  find_hist name (pre ++ (hn, h) :: post) acc = Ok (Some h).
Proof.
  intros Hm Hyes Hno. revert acc.
  induction pre as [|[k a] pre IH]; intros acc; simpl; rewrite Hm; simpl.
  - rewrite Hyes. now apply find_hist_no_match with (m := m).
  - destruct (is_match m k); apply IH.
Qed.

Lemma find_hist_total name m (items : dict A) acc :
  model_name_of name = Ok m ->
  exists r, find_hist name items acc = Ok r.
Proof.
  intros Hm. revert acc.
  induction items as [|[hn h] items IH]; intros acc; simpl; eauto.
  rewrite Hm. simpl. destruct (is_match m hn); apply IH.
Qed.

Lemma find_hist_short name (items : dict A) acc :
  List.length (str_split "."%char name) < 3 ->
  items <> [] ->
  find_hist name items acc = Raise IndexError.
Proof.
  intros Hs Hne. destruct items as [|[hn h] items]; [congruence|].
  simpl. now rewrite (model_name_of_short _ Hs).
Qed.

Lemma find_hist_raises name (items : dict A) acc e :
  find_hist name items acc = Raise e -> e = IndexError.
Proof.
  revert acc. induction items as [|[hn h] items IH]; intros acc; simpl.
  - discriminate.
  - unfold model_name_of, list_index.
    destruct (nth_error (str_split "."%char name) 2); simpl.
    + destruct (is_match s hn); apply IH.
    + congruence.
Qed.

Lemma splice_loop_finishes (d items out : dict A) :
  (forall k, In k (keys items) -> str_in "ssp" k = true ->
             3 <= List.length (str_split "."%char k)) ->
  exists out', splice_loop xr_concat d items out = Finished out'.
Proof.
  revert out. induction items as [|[k g] items IH]; intros out Hlong; simpl.
  - eauto.
  - assert (Hrest : forall k', In k' (keys items) -> str_in "ssp" k' = true ->
                               3 <= List.length (str_split "."%char k')).
    { intros k' Hin. apply Hlong. now right. }
    destruct (str_in "ssp" k) eqn:Hssp; simpl; [|now apply IH].
    destruct (model_name_of_long _ (Hlong k (or_introl eq_refl) Hssp)) as [m Hm].
    destruct (find_hist_total _ _ d None Hm) as [r Hr]. rewrite Hr.
    destruct r; now apply IH.
Qed.

(** Only the keys the loop visits and that hold the scenario marker can
    change in the output dictionary. *)
Lemma splice_loop_frame (d items out out' : dict A) name :
  splice_loop xr_concat d items out = Finished out' ->
  ~ In name (keys items) \/ str_in "ssp" name = false ->
  dict_get out' name = dict_get out name.
Proof.
  revert out. induction items as [|[k g] items IH]; intros out Hrun Hname;
    simpl in Hrun.
  - congruence.
  - assert (Hrest : ~ In name (keys items) \/ str_in "ssp" name = false).
    { destruct Hname as [Hn|Hn]; [left|now right].
      intros Hin. apply Hn. now right. }
    destruct (str_in "ssp" k) eqn:Hssp; simpl in Hrun; [|now apply IH].
    destruct (find_hist k d None) as [[h|]|e]; try discriminate.
    + rewrite (IH _ Hrun Hrest). apply dict_get_set_other.
      intros ->. destruct Hname as [Hn|Hn]; [apply Hn; now left|congruence].
    + now apply IH.
Qed.

Lemma splice_loop_get (d items out out' : dict A) name gmst r :
  NoDup (keys items) ->
  splice_loop xr_concat d items out = Finished out' ->
  In (name, gmst) items ->
  str_in "ssp" name = true ->
  find_hist name d None = Ok r ->
  dict_get out' name =
    match r with
    | Some h => Some (xr_concat h gmst)
    | None => dict_get out name
    end.
Proof.
  revert out. induction items as [|[k g] items IH];
    intros out Hnd Hrun Hin Hssp Hfind; simpl in *.
  - contradiction.
  - inversion Hnd as [|? ? Hk Hnd']; subst.
    destruct Hin as [Heq|Hin].
    + inversion Heq; subst k g. rewrite Hssp, Hfind in Hrun. simpl in Hrun.
      destruct r as [h|].
      * rewrite (splice_loop_frame _ _ _ _ _ Hrun (or_introl Hk)).
        apply dict_get_set_same.
      * apply (splice_loop_frame _ _ _ _ _ Hrun (or_introl Hk)).
    + assert (Hne : k <> name).
      { intros ->. apply Hk. eapply in_keys; eauto. }
      destruct (str_in "ssp" k); simpl in Hrun.
      * destruct (find_hist k d None) as [[h|]|e]; try discriminate.
        -- rewrite (IH _ Hnd' Hrun Hin Hssp Hfind).
           destruct r; auto. now apply dict_get_set_other.
        -- now apply IH.
      * now apply IH.
Qed.

(** A key with the scenario marker and fewer than three fields stops the
    loop before anything is stored under it. *)
Lemma splice_loop_aborts (d items out : dict A) name :
  d <> [] ->
  In name (keys items) ->
  str_in "ssp" name = true ->
  List.length (str_split "."%char name) < 3 ->
  dict_get out name = None ->
  exists out', splice_loop xr_concat d items out = Aborted IndexError out'
               /\ dict_get out' name = None.
Proof.
  intros Hd. revert out.
  induction items as [|[k g] items IH]; intros out Hin Hssp Hshort Hout;
    simpl in *.
  - contradiction.
  - destruct (String.eqb_spec k name) as [->|Hne].
    + rewrite Hssp. simpl. rewrite (find_hist_short _ _ None Hshort Hd). eauto.
    + destruct Hin as [Heq|Hin]; [congruence|].
      destruct (str_in "ssp" k); simpl; [|now apply IH].
      destruct (find_hist k d None) as [[h|]|e] eqn:Hf.
      * apply IH; auto. now rewrite dict_get_set_other.
      * now apply IH.
      * rewrite (find_hist_raises _ _ _ _ Hf). eauto.
Qed.

End SplicerFacts.

(** ** Names *)

(** Closes the goals on the names of a dataset given in full: membership,
    distinctness, and their negations. *)
Ltac names :=
  unfold unique_names, no_spatial_names, has_both; simpl;
  repeat constructor; simpl; intuition discriminate.


Lemma mem_In (d : string) (l : list string) : mem d l = true <-> In d l.
Proof.
  unfold mem. rewrite existsb_exists. split.
  - intros [x [Hin He]]. apply String.eqb_eq in He. now subst.
  - intros Hin. exists d. split; [exact Hin|apply String.eqb_refl].
Qed.

Lemma mem_not_In (d : string) (l : list string) : mem d l = false <-> ~ In d l.
Proof.
  rewrite <- mem_In. destruct (mem d l); intuition congruence.
Qed.

Lemma has_dup_NoDup (l : list string) : NoDup l -> has_dup l = false.
Proof.
  induction 1 as [|x l Hx Hnd IH]; simpl; [reflexivity|].
  rewrite IH. apply mem_not_In in Hx. now rewrite Hx.
Qed.

Lemma keys_app (B : Type) (d1 d2 : dict B) : keys (d1 ++ d2) = keys d1 ++ keys d2.
Proof. apply map_app. Qed.

Lemma keys_map_values (B : Type) (f : string * B -> B) (d : dict B) :
  keys (map (fun p => (fst p, f p)) d) = keys d.
Proof. unfold keys. rewrite map_map. now apply map_ext. Qed.

Lemma In_keys_remove (B : Type) (c n : string) (d : dict B) :
  In n (keys (remove_key c d)) <-> In n (keys d) /\ n <> c.
Proof.
  unfold keys, remove_key. rewrite !in_map_iff. split.
  - intros [p [Hn Hp]]. apply filter_In in Hp. destruct Hp as [Hp Hc].
    split; [now exists p|]. subst n.
    destruct (String.eqb_spec (fst p) c); [discriminate|assumption].
  - intros [[p [Hn Hp]] Hne]. exists p. split; [exact Hn|].
    apply filter_In. split; [exact Hp|]. subst n.
    destruct (String.eqb_spec (fst p) c); [contradiction|reflexivity].
Qed.

Lemma dict_get_In (B : Type) (d : dict B) (k : string) (b : B) :
  dict_get d k = Some b -> In (k, b) d.
Proof.
  induction d as [|[k' b'] d IH]; simpl; [discriminate|].
  destruct (String.eqb_spec k' k) as [->|Hne].
  - intros Heq. inversion Heq. now left.
  - intros Hget. right. now apply IH.
Qed.

Lemma dict_get_None (B : Type) (d : dict B) (k : string) :
  ~ In k (keys d) -> dict_get d k = None.
Proof.
  induction d as [|[k' b'] d IH]; simpl; [reflexivity|].
  intros Hk. destruct (String.eqb_spec k' k) as [->|Hne].
  - exfalso. apply Hk. now left.
  - apply IH. intros Hin. apply Hk. now right.
Qed.

(** ** The loading cell: renaming *)

Lemma rename_name_cases (z : string) :
  (z = "longitude"%string /\ rename_name spatial_names z = "lon"%string)
  \/ (z = "latitude"%string /\ rename_name spatial_names z = "lat"%string)
  \/ (z <> "longitude"%string /\ z <> "latitude"%string
      /\ rename_name spatial_names z = z).
Proof.
  unfold rename_name, spatial_names. cbn [dict_get].
  destruct (String.eqb_spec "longitude" z) as [<-|H1]; [now left|].
  destruct (String.eqb_spec "latitude" z) as [<-|H2]; [right; now left|].
  right. right. repeat split; congruence.
Qed.

Lemma rename_name_injective (x y : string) :
  x <> "lat"%string -> x <> "lon"%string ->
  y <> "lat"%string -> y <> "lon"%string ->
  rename_name spatial_names x = rename_name spatial_names y -> x = y.
Proof.
  intros Hx1 Hx2 Hy1 Hy2.
  destruct (rename_name_cases x) as [[-> ->]|[[-> ->]|(_ & _ & ->)]];
    destruct (rename_name_cases y) as [[-> ->]|[[-> ->]|(_ & _ & ->)]];
    intros Heq; try reflexivity; try discriminate; congruence.
Qed.

Lemma rename_names_NoDup (l : list string) :
  NoDup l -> ~ In "lat"%string l -> ~ In "lon"%string l ->
  NoDup (map (rename_name spatial_names) l).
Proof.
  intros Hnd Hlat Hlon. induction Hnd as [|x l Hx Hnd IH]; simpl.
  - constructor.
  - constructor.
    + intros Hin. apply in_map_iff in Hin. destruct Hin as [y [Heq Hy]].
      apply Hx. replace x with y; [exact Hy|].
      apply rename_name_injective; auto.
      * intros ->. apply Hlat. now right.
      * intros ->. apply Hlon. now right.
      * intros ->. apply Hlat. now left.
      * intros ->. apply Hlon. now left.
    + apply IH; intros Hin; [apply Hlat|apply Hlon]; now right.
Qed.

Lemma keys_rename_entry (B : Type) (f : B -> B) (d : dict B) :
  keys (map (rename_entry spatial_names f) d)
  = map (rename_name spatial_names) (keys d).
Proof. unfold keys. rewrite !map_map. now apply map_ext. Qed.

Lemma var_names_renamed (ds : Dataset) :
  var_names (renamed ds spatial_names) = map (rename_name spatial_names) (var_names ds).
Proof.
  unfold var_names, coord_names, renamed. simpl.
  rewrite !keys_rename_entry, !map_app. f_equal. f_equal.
  now destruct (time ds).
Qed.

Lemma rename_long_names (ds : Dataset) :
  unique_names ds ->
  has_both ds "latitude" "longitude" ->
  ~ In "lat"%string (var_names ds) -> ~ In "lon"%string (var_names ds) ->
  rename ds spatial_names = Ok (renamed ds spatial_names).
Proof.
  intros Hu [Hlat Hlon] Hnlat Hnlon. unfold rename.
  assert (Hk : forallb (fun k => mem k (var_names ds) || mem k (dim_names ds))
                 (keys spatial_names) = true).
  { simpl. apply mem_In in Hlat, Hlon. rewrite Hlat, Hlon.
    now rewrite !orb_true_r. }
  rewrite Hk. simpl negb. cbv iota.
  rewrite has_dup_NoDup by now apply rename_names_NoDup.
  reflexivity.
Qed.

(** ** The loading cell: time window *)

Lemma map_nth_seq (B : Type) (l : list B) (d : B) :
  map (fun i => nth i l d) (seq 0 (List.length l)) = l.
Proof.
  induction l as [|x l IH]; simpl; [reflexivity|].
  f_equal. rewrite <- seq_shift, map_map. exact IH.
Qed.

Lemma filter_map_comm (B C : Type) (f : B -> C) (P : C -> bool) (l : list B) :
  filter P (map f l) = map f (filter (fun x => P (f x)) l).
Proof.
  induction l as [|x l IH]; simpl; [reflexivity|].
  destruct (P (f x)); simpl; now rewrite IH.
Qed.

Lemma filter_none (B : Type) (P : B -> bool) (l : list B) :
  (forall x, In x l -> P x = false) -> filter P l = [].
Proof.
  induction l as [|x l IH]; intros Hall; simpl; [reflexivity|].
  rewrite (Hall x) by now left. apply IH. intros y Hy. apply Hall. now right.
Qed.

Lemma filter_all (B : Type) (P : B -> bool) (l : list B) :
  (forall x, In x l -> P x = true) -> filter P l = l.
Proof.
  induction l as [|x l IH]; intros Hall; simpl; [reflexivity|].
  rewrite (Hall x) by now left. f_equal. apply IH.
  intros y Hy. apply Hall. now right.
Qed.

Lemma kept_positions_filter (sl : Z * Z) (ts : list timestamp) :
  map (fun i => nth i ts 0%Z) (kept_positions sl ts) = filter (in_slice sl) ts.
Proof.
  unfold kept_positions.
  rewrite <- (filter_map_comm _ _ (fun i => nth i ts 0%Z) (in_slice sl)).
  now rewrite map_nth_seq.
Qed.

Lemma slice_positions_ascending (sl : Z * Z) (ts : list timestamp) :
  ascending ts = true -> slice_positions sl ts = Ok (kept_positions sl ts).
Proof. intros Ha. unfold slice_positions. now rewrite Ha. Qed.

Lemma slice_positions_raises (sl : Z * Z) (ts : list timestamp) (e : exn) :
  slice_positions sl ts = Raise e ->
  exn_name e = "KeyError"%string
  /\ ascending ts = false /\ descending ts = false.
Proof.
  unfold slice_positions.
  destruct (ascending ts); [discriminate|].
  destruct (descending ts); [discriminate|].
  intros H. inversion H. auto.
Qed.

Lemma sel_time_selected (ds : Dataset) (sl : Z * Z) (ts : list timestamp) :
  time ds = Some ts -> ascending ts = true ->
  sel_time ds sl = Ok (selected ds ts (kept_positions sl ts)).
Proof.
  intros Ht Ha. unfold sel_time.
  now rewrite Ht, (slice_positions_ascending _ _ Ha).
Qed.

Lemma sel_time_inv (ds ds' : Dataset) (sl : Z * Z) :
  sel_time ds sl = Ok ds' ->
  exists ts pos, time ds = Some ts /\ ds' = selected ds ts pos.
Proof.
  unfold sel_time. destruct (time ds) as [ts|].
  - destruct (slice_positions sl ts) as [pos|e]; cbn [bind]; [|discriminate].
    intros H. inversion H. now exists ts, pos.
  - destruct (mem "time" (dim_names ds)); discriminate.
Qed.

Lemma dim_names_selected ds ts pos :
  dim_names (selected ds ts pos) = dim_names ds.
Proof.
  unfold dim_names, keys, selected. simpl. rewrite map_map.
  apply map_ext. intros p. now destruct (String.eqb (fst p) "time").
Qed.

Lemma coords_keys_selected ds ts pos :
  keys (coords (selected ds ts pos)) = keys (coords ds).
Proof.
  unfold selected. simpl.
  apply (keys_map_values _ (fun p => isel_var "time" pos (snd p))).
Qed.

Lemma data_vars_keys_selected ds ts pos :
  keys (data_vars (selected ds ts pos)) = keys (data_vars ds).
Proof.
  unfold selected. simpl.
  apply (keys_map_values _ (fun p => isel_var "time" pos (snd p))).
Qed.

Lemma var_names_selected ds ts pos :
  time ds = Some ts -> var_names (selected ds ts pos) = var_names ds.
Proof.
  intros Ht. unfold var_names, coord_names.
  rewrite coords_keys_selected, data_vars_keys_selected, Ht. reflexivity.
Qed.

Lemma sel_time_raises (ds : Dataset) (sl : Z * Z) (e : exn) :
  sel_time ds sl = Raise e ->
  exn_name e = "KeyError"%string \/ exn_name e = "TypeError"%string.
Proof.
  unfold sel_time. destruct (time ds) as [ts|].
  - destruct (slice_positions sl ts) as [pos|e0] eqn:Hp; cbn [bind];
      [discriminate|].
    intros H. inversion H; subst. left.
    now destruct (slice_positions_raises _ _ _ Hp).
  - destruct (mem "time" (dim_names ds)); intros H; inversion H; simpl; auto.
Qed.


Lemma v_dims_isel (d : string) (pos : list nat) (v : Var) :
  v_dims (isel_var d pos v) = v_dims v.
Proof. unfold isel_var. now destruct (mem d (v_dims v)). Qed.

(** ** The loading cell: dropping coordinates *)

Lemma drop_coords_inv (names : list string) (ds ds' : Dataset) :
  drop_coords names ds = Ok ds' ->
  incl (dims ds') (dims ds)
  /\ incl (coords ds') (coords ds)
  /\ incl (data_vars ds') (data_vars ds).
Proof.
  revert ds. induction names as [|coord rest IH]; intros ds; cbn [drop_coords].
  - intros Heq. inversion Heq. subst. repeat split; apply incl_refl.
  - destruct (negb (mem coord kept_coords)); [|apply IH].
    unfold drop. destruct (negb (mem coord (var_names ds))); cbn [bind];
      [discriminate|].
    intros Hrun. destruct (IH _ Hrun) as (Hd & Hc & Hv).
    unfold dropped in Hd, Hc, Hv. cbn [dims coords data_vars] in Hd, Hc, Hv.
    repeat split.
    + eapply incl_tran; [exact Hd|]. apply incl_filter.
    + eapply incl_tran; [exact Hc|]. unfold remove_key. apply incl_filter.
    + eapply incl_tran; [exact Hv|]. unfold remove_key. apply incl_filter.
Qed.

Lemma drop_coords_raises (names : list string) (ds : Dataset) (e : exn) :
  drop_coords names ds = Raise e -> exn_name e = "ValueError"%string.
Proof.
  revert ds. induction names as [|coord rest IH]; intros ds; cbn [drop_coords].
  - discriminate.
  - destruct (negb (mem coord kept_coords)); [|apply IH].
    unfold drop. destruct (negb (mem coord (var_names ds))); cbn [bind].
    + intros H. now inversion H.
    + apply IH.
Qed.

Lemma drop_coords_spec (names : list string) (ds : Dataset) :
  NoDup names -> incl names (var_names ds) ->
  exists ds',
    drop_coords names ds = Ok ds'
    /\ time ds' = time ds
    /\ forall c, In c (keys (coords ds')) <->
                 In c (keys (coords ds))
                 /\ (mem c kept_coords = true \/ ~ In c names).
Proof.
  intros Hnd. revert ds.
  induction Hnd as [|coord rest Hfresh Hnd IH]; intros ds Hincl; cbn [drop_coords].
  - exists ds. repeat split; auto; tauto.
  - assert (Hrest : incl rest (var_names ds)).
    { intros n Hn. apply Hincl. now right. }
    destruct (mem coord kept_coords) eqn:Hkeep; cbn [negb].
    + destruct (IH ds Hrest) as (ds' & Hrun & Ht & Hc).
      exists ds'. split; [exact Hrun|]. split; [exact Ht|].
      intros c. rewrite Hc. split.
      * intros [Hin [Hk|Hn]]; split; auto.
        destruct (String.eqb_spec c coord) as [->|Hne]; [now left|].
        right. intros [Heq|Hr]; [congruence|contradiction].
      * intros [Hin [Hk|Hn]]; split; auto.
        right. intros Hr. apply Hn. now right.
    + assert (Hcoord : mem coord (var_names ds) = true).
      { apply mem_In. apply Hincl. now left. }
      unfold drop. rewrite Hcoord. cbn [negb bind].
      assert (Hnt : String.eqb coord "time" = false).
      { destruct (String.eqb_spec coord "time") as [->|]; [|reflexivity].
        discriminate Hkeep. }
      assert (Hrest' : incl rest (var_names (dropped ds coord))).
      { intros n Hn. assert (Hne : n <> coord) by (intros ->; contradiction).
        specialize (Hrest n Hn). unfold var_names, coord_names in *.
        unfold dropped. simpl. rewrite Hnt.
        rewrite !in_app_iff in *. rewrite !In_keys_remove. tauto. }
      destruct (IH _ Hrest') as (ds' & Hrun & Ht & Hc).
      exists ds'. split; [exact Hrun|]. split.
      * rewrite Ht. unfold dropped. simpl. now rewrite Hnt.
      * intros c. rewrite Hc. unfold dropped. cbn [coords]. rewrite In_keys_remove.
        split.
        -- intros [[Hin Hne] [Hk|Hn]]; split; auto.
           right. intros [Heq|Hr]; [congruence|contradiction].
        -- intros [Hin [Hk|Hn]].
           ++ split; [split; [exact Hin|]|now left].
              intros ->. congruence.
           ++ split; [split; [exact Hin|]|right].
              ** intros ->. apply Hn. now left.
              ** intros Hr. apply Hn. now right.
Qed.

(** The dimensions after the loop: those of the dataset that pass a test
    on their name, which every dimension that a remaining variable spans
    passes. *)
Lemma spanned_mono (t t' : option (list timestamp)) (vars vars' : dict Var)
  (d : string) :
  (t' = None \/ t' = t) -> incl vars' vars ->
  spanned t' vars' d = true -> spanned t vars d = true.
Proof.
  intros Ht Hincl. unfold spanned. rewrite !orb_true_iff, !andb_true_iff.
  intros [[Hd Hs]|Hex].
  - left. split; [exact Hd|].
    destruct Ht as [Ht|Ht]; rewrite Ht in Hs; [discriminate|exact Hs].
  - right. apply existsb_exists in Hex. destruct Hex as [q [Hq Hm]].
    apply existsb_exists. exists q. split; [now apply Hincl|exact Hm].
Qed.

Lemma filter_filter (B : Type) (f g : B -> bool) (l : list B) :
  filter f (filter g l) = filter (fun x => g x && f x) l.
Proof.
  induction l as [|x l IH]; simpl; [reflexivity|].
  destruct (g x); simpl; [destruct (f x)|]; now rewrite IH.
Qed.

Lemma drop_coords_time_inv (names : list string) (ds ds' : Dataset) :
  drop_coords names ds = Ok ds' -> time ds' = None \/ time ds' = time ds.
Proof.
  revert ds. induction names as [|coord rest IH]; intros ds; cbn [drop_coords].
  - intros Heq. inversion Heq. now right.
  - destruct (negb (mem coord kept_coords)); [|apply IH].
    unfold drop. destruct (negb (mem coord (var_names ds))); cbn [bind];
      [discriminate|].
    intros Hrun. destruct (IH _ Hrun) as [Hn|Hs]; [now left|].
    rewrite Hs. unfold dropped. cbn [time].
    destruct (String.eqb coord "time"); auto.
Qed.

Lemma drop_coords_dims (names : list string) (ds ds' : Dataset) :
  drop_coords names ds = Ok ds' ->
  exists keep : string -> bool,
    dims ds' = filter (fun p => keep (fst p)) (dims ds)
    /\ forall d, spanned (time ds') (coords ds' ++ data_vars ds') d = true ->
                 keep d = true.
Proof.
  revert ds. induction names as [|coord rest IH]; intros ds; cbn [drop_coords].
  - intros Heq. inversion Heq. subst. exists (fun _ => true). split.
    + symmetry. now apply filter_all.
    + reflexivity.
  - destruct (negb (mem coord kept_coords)); [|apply IH].
    unfold drop. destruct (negb (mem coord (var_names ds))); cbn [bind];
      [discriminate|].
    intros Hrun. destruct (IH _ Hrun) as (keep & Hd & Hk).
    destruct (drop_coords_inv _ _ _ Hrun) as (_ & Hc & Hv).
    pose proof (drop_coords_time_inv _ _ _ Hrun) as Ht.
    unfold dropped in Hd, Hc, Hv, Ht. cbn [dims coords data_vars time] in *.
    rewrite filter_filter in Hd.
    exists (fun d =>
              spanned (if String.eqb coord "time" then None else time ds)
                (remove_key coord (coords ds) ++ remove_key coord (data_vars ds))
                d && keep d).
    split; [exact Hd|].
    intros d Hs. rewrite (Hk d Hs), andb_true_r.
    revert Hs. apply spanned_mono; [exact Ht|].
    intros q Hq. apply in_app_or in Hq. apply in_or_app.
    destruct Hq as [Hq|Hq]; [left; now apply Hc|right; now apply Hv].
Qed.

Lemma dict_get_filter (B : Type) (keep : string -> bool) (d : dict B)
  (k : string) :
  keep k = true ->
  dict_get (filter (fun p => keep (fst p)) d) k = dict_get d k.
Proof.
  intros Hk. induction d as [|[k0 v] d IH]; simpl; [reflexivity|].
  destruct (String.eqb_spec k0 k) as [->|Hne].
  - rewrite Hk. simpl. now rewrite String.eqb_refl.
  - destruct (keep k0); simpl; [|exact IH].
    destruct (String.eqb_spec k0 k); [contradiction|exact IH].
Qed.


Lemma NoDup_app_disjoint (B : Type) (l1 l2 : list B) (x : B) :
  NoDup (l1 ++ l2) -> In x l1 -> ~ In x l2.
Proof.
  induction l1 as [|y l1 IH]; simpl; [contradiction|].
  intros Hnd [->|Hin] Hx2.
  - inversion Hnd as [|? ? Hy _]; subst. apply Hy. apply in_or_app. now right.
  - inversion Hnd; subst. now apply (IH H2 Hin).
Qed.

Lemma remove_key_absent (B : Type) (name : string) (d : dict B) :
  ~ In name (keys d) -> remove_key name d = d.
Proof.
  intros Hk. unfold remove_key. apply filter_all. intros [k b] Hin. simpl.
  destruct (String.eqb_spec k name) as [->|]; [|reflexivity].
  exfalso. apply Hk. eapply in_keys; eauto.
Qed.

Lemma drop_coords_data_vars (names : list string) (ds ds' : Dataset) :
  (forall n, In n names -> ~ In n (keys (data_vars ds))) ->
  drop_coords names ds = Ok ds' ->
  data_vars ds' = data_vars ds.
Proof.
  revert ds. induction names as [|coord rest IH]; intros ds Hfresh;
    cbn [drop_coords].
  - intros Heq. now inversion Heq.
  - assert (Hrest : forall n, In n rest -> ~ In n (keys (data_vars ds))).
    { intros n Hn. apply Hfresh. now right. }
    destruct (negb (mem coord kept_coords)); [|now apply IH].
    unfold drop. destruct (negb (mem coord (var_names ds))); cbn [bind];
      [discriminate|].
    intros Hrun. apply IH in Hrun.
    + rewrite Hrun. unfold dropped. cbn [data_vars].
      apply remove_key_absent. apply Hfresh. now left.
    + unfold dropped. cbn [data_vars].
      rewrite remove_key_absent by (apply Hfresh; now left). exact Hrest.
Qed.

Lemma drop_coords_time (names : list string) (ds ds' : Dataset) :
  drop_coords names ds = Ok ds' -> time ds' = time ds.
Proof.
  revert ds. induction names as [|coord rest IH]; intros ds;
    cbn [drop_coords].
  - intros Heq. now inversion Heq.
  - destruct (mem coord kept_coords) eqn:Hkeep; cbn [negb]; [apply IH|].
    unfold drop. destruct (negb (mem coord (var_names ds))); cbn [bind];
      [discriminate|].
    intros Hrun. rewrite (IH _ Hrun). unfold dropped. cbn [time].
    destruct (String.eqb_spec coord "time") as [->|]; [|reflexivity].
    discriminate Hkeep.
Qed.

Lemma dim_size_selected_time (ds : Dataset) (ts : list timestamp)
  (pos : list nat) :
  In "time"%string (dim_names ds) ->
  dim_size (selected ds ts pos) "time" = List.length pos.
Proof.
  unfold dim_size, dim_names, selected. cbn [dims].
  induction (dims ds) as [|[d n] l IH]; simpl; [contradiction|].
  destruct (String.eqb_spec d "time") as [->|Hne]; simpl.
  - reflexivity.
  - destruct (String.eqb_spec d "time"); [contradiction|].
    intros [Heq|Hin]; [contradiction|]. now apply IH.
Qed.

(** The two steps after the renaming: the time window, then the loop that
    drops the other coordinates. *)
Lemma window_and_drop (ds : Dataset) (ts : list timestamp) :
  time ds = Some ts -> ascending ts = true ->
  unique_names ds ->
  exists ds',
    (ds0 <- sel_time ds time_slice ;; drop_coords (coord_names ds0) ds0) = Ok ds'
    /\ time ds' = Some (filter (in_slice time_slice) ts)
    /\ forall c, In c (coord_names ds') <->
                 In c (coord_names ds) /\ mem c kept_coords = true.
Proof.
  intros Ht Ha Hu. rewrite (sel_time_selected _ _ _ Ht Ha). simpl.
  set (ds0 := selected ds ts (kept_positions time_slice ts)).
  assert (Hcn : coord_names ds0 = coord_names ds).
  { unfold coord_names, ds0. rewrite coords_keys_selected, Ht. reflexivity. }
  assert (Hvn : var_names ds0 = var_names ds).
  { unfold ds0. now apply var_names_selected. }
  destruct (drop_coords_spec (coord_names ds0) ds0) as (ds' & Hrun & Ht' & Hc).
  { rewrite Hcn. unfold unique_names, var_names in Hu.
    now apply NoDup_app_remove_r in Hu. }
  { rewrite Hcn, Hvn. unfold var_names. apply incl_appl, incl_refl. }
  exists ds'. split; [exact Hrun|]. split.
  - rewrite Ht'. unfold ds0. simpl. now rewrite kept_positions_filter.
  - intros c. unfold coord_names at 1. rewrite Ht'. simpl time. cbv iota.
    rewrite Hcn in Hc.
    assert (Hk0 : keys (coords ds0) = keys (coords ds)).
    { apply coords_keys_selected. }
    rewrite Hk0 in Hc. unfold coord_names. rewrite Ht.
    simpl. rewrite Hc. split.
    + intros [<-|[Hin [Hk|Hn]]].
      * split; [now left|reflexivity].
      * split; [now right|exact Hk].
      * exfalso. apply Hn. unfold coord_names. rewrite Ht. now right.
    + intros [[<-|Hin] Hk]; [now left|right]. split; [exact Hin|now left].
Qed.

(** ** The loading cell: normalisation *)

Lemma long_names_guard (ds : Dataset) :
  mem "longitude" (dim_names ds) && mem "latitude" (dim_names ds) = true
  <-> has_both ds "latitude" "longitude".
Proof.
  unfold has_both. rewrite andb_true_iff, !mem_In. tauto.
Qed.

Lemma normalize_without_rename (ds : Dataset) :
  ~ has_both ds "latitude" "longitude" ->
  normalize ds
  = (ds0 <- sel_time ds time_slice ;; drop_coords (coord_names ds0) ds0).
Proof.
  intros Hno. unfold normalize.
  destruct (mem "longitude" (dim_names ds) && mem "latitude" (dim_names ds))
    eqn:Hg; [|reflexivity].
  apply long_names_guard in Hg. contradiction.
Qed.

Lemma normalize_with_rename (ds : Dataset) :
  has_both ds "latitude" "longitude" ->
  normalize ds
  = (ds1 <- rename ds spatial_names ;;
     ds0 <- sel_time ds1 time_slice ;; drop_coords (coord_names ds0) ds0).
Proof.
  intros Hboth. unfold normalize.
  apply long_names_guard in Hboth. now rewrite Hboth.
Qed.

Lemma kept_coords_spec (c : string) :
  mem c kept_coords = true
  <-> c = "lat"%string \/ c = "lon"%string \/ c = "time"%string.
Proof.
  rewrite mem_In. unfold kept_coords. simpl. intuition congruence.
Qed.

(** What a successful normalisation keeps: the dimension names of the
    dataset, renamed or not, and variables that were there before, each on
    the dimensions it had. *)
Lemma window_and_drop_inv (ds ds' : Dataset) :
  (ds0 <- sel_time ds time_slice ;; drop_coords (coord_names ds0) ds0) = Ok ds' ->
  incl (dim_names ds') (dim_names ds)
  /\ (forall name v', In (name, v') (coords ds' ++ data_vars ds') ->
        exists v, In (name, v) (coords ds ++ data_vars ds)
                  /\ v_dims v' = v_dims v)
  /\ (forall name v' d, In (name, v') (coords ds' ++ data_vars ds') ->
        In d (v_dims v') -> In d (dim_names ds) -> In d (dim_names ds')).
Proof.
  destruct (sel_time ds time_slice) as [ds0|e] eqn:Hsel; cbn [bind];
    [|discriminate].
  destruct (sel_time_inv _ _ _ Hsel) as (ts & pos & Ht & ->).
  intros Hrun. destruct (drop_coords_dims _ _ _ Hrun) as (keep & Hk & Hspan).
  apply drop_coords_inv in Hrun.
  destruct Hrun as (Hd & Hc & Hv). split; [|split].
  - rewrite <- (dim_names_selected ds ts pos). unfold dim_names, keys.
    now apply incl_map.
  - intros name v' Hin. apply in_app_or in Hin.
    assert (Hin' : In (name, v') (coords (selected ds ts pos))
                   \/ In (name, v') (data_vars (selected ds ts pos))).
    { destruct Hin as [Hin|Hin]; [left; now apply Hc|right; now apply Hv]. }
    unfold selected in Hin'. cbn [coords data_vars] in Hin'.
    rewrite !in_map_iff in Hin'.
    destruct Hin' as [[[n v] [Heq Hp]]|[[n v] [Heq Hp]]];
      simpl in Heq; inversion Heq; subst; exists v;
      (split; [apply in_or_app; auto|apply v_dims_isel]).
  - intros name v' d Hin Hdv Hdd.
    assert (Hkeep : keep d = true).
    { apply Hspan. unfold spanned. apply orb_true_iff. right.
      apply existsb_exists. exists (name, v'). split; [exact Hin|].
      now apply mem_In. }
    rewrite <- (dim_names_selected ds ts pos) in Hdd.
    unfold dim_names, keys in *. rewrite Hk.
    apply in_map_iff in Hdd. destruct Hdd as [p [Hp Hin0]].
    apply in_map_iff. exists p. split; [exact Hp|].
    apply filter_In. split; [exact Hin0|]. now rewrite Hp.
Qed.

Lemma window_and_drop_data_vars (ds ds' : Dataset) :
  unique_names ds ->
  (ds0 <- sel_time ds time_slice ;; drop_coords (coord_names ds0) ds0) = Ok ds' ->
  keys (data_vars ds') = keys (data_vars ds).
Proof.
  intros Hu.
  destruct (sel_time ds time_slice) as [ds0|e] eqn:Hsel; cbn [bind];
    [|discriminate].
  destruct (sel_time_inv _ _ _ Hsel) as (ts & pos & Ht & Hds0).
  - intros Hrun.
    assert (Hvn : var_names ds0 = var_names ds).
    { rewrite Hds0. now apply var_names_selected. }
    assert (Hfresh : forall n, In n (coord_names ds0) ->
                               ~ In n (keys (data_vars ds0))).
    { intros n Hn. unfold unique_names in Hu. rewrite <- Hvn in Hu.
      unfold var_names in Hu. now apply (NoDup_app_disjoint _ _ _ n Hu). }
    rewrite (drop_coords_data_vars _ _ _ Hfresh Hrun), Hds0.
    apply data_vars_keys_selected.
Qed.

Lemma window_and_drop_data_var (ds ds' : Dataset) (name : string) (v : Var) :
  unique_names ds ->
  (ds0 <- sel_time ds time_slice ;; drop_coords (coord_names ds0) ds0) = Ok ds' ->
  In (name, v) (data_vars ds) ->
  exists v', In (name, v') (data_vars ds') /\ v_dims v' = v_dims v.
Proof.
  intros Hu.
  destruct (sel_time ds time_slice) as [ds0|e] eqn:Hsel; cbn [bind];
    [|discriminate].
  destruct (sel_time_inv _ _ _ Hsel) as (ts & pos & Ht & Hds0).
  intros Hrun Hin.
  assert (Hvn : var_names ds0 = var_names ds).
  { rewrite Hds0. now apply var_names_selected. }
  assert (Hfresh : forall n, In n (coord_names ds0) ->
                             ~ In n (keys (data_vars ds0))).
  { intros n Hn. unfold unique_names in Hu. rewrite <- Hvn in Hu.
    unfold var_names in Hu. now apply (NoDup_app_disjoint _ _ _ n Hu). }
  rewrite (drop_coords_data_vars _ _ _ Hfresh Hrun), Hds0.
  exists (isel_var "time" pos v). split; [|apply v_dims_isel].
  unfold selected. cbn [data_vars]. apply in_map_iff.
  now exists (name, v).
Qed.

Lemma normalize_inv (ds ds' : Dataset) :
  normalize ds = Ok ds' ->
  exists ds1,
    (ds1 = ds \/ ds1 = renamed ds spatial_names)
    /\ (has_both ds "latitude" "longitude" -> ds1 = renamed ds spatial_names)
    /\ (~ has_both ds "latitude" "longitude" -> ds1 = ds)
    /\ incl (dim_names ds') (dim_names ds1)
    /\ (forall name v', In (name, v') (coords ds' ++ data_vars ds') ->
          exists v, In (name, v) (coords ds1 ++ data_vars ds1)
                    /\ v_dims v' = v_dims v)
    /\ (forall name v' d, In (name, v') (coords ds' ++ data_vars ds') ->
          In d (v_dims v') -> In d (dim_names ds1) -> In d (dim_names ds')).
Proof.
  unfold normalize.
  destruct (mem "longitude" (dim_names ds) && mem "latitude" (dim_names ds))
    eqn:Hg.
  - apply long_names_guard in Hg. unfold rename.
    destruct (negb _); [discriminate|].
    destruct (has_dup _); [discriminate|]. cbn [bind]. intros Hrun.
    apply window_and_drop_inv in Hrun. destruct Hrun as (Hd & Hv & Hs).
    exists (renamed ds spatial_names). repeat split; auto. tauto.
  - assert (Hno : ~ has_both ds "latitude" "longitude").
    { intros Hb. apply long_names_guard in Hb. congruence. }
    cbn [bind]. intros Hrun.
    apply window_and_drop_inv in Hrun. destruct Hrun as (Hd & Hv & Hs).
    exists ds. repeat split; auto. tauto.
Qed.

(** ** Exceptions of the loading cell *)

Lemma normalize_raises (ds : Dataset) (e : exn) :
  normalize ds = Raise e ->
  exn_name e = "KeyError"%string \/ exn_name e = "ValueError"%string
  \/ exn_name e = "TypeError"%string.
Proof.
  assert (Htail : forall ds1,
    (ds0 <- sel_time ds1 time_slice ;; drop_coords (coord_names ds0) ds0) = Raise e ->
    exn_name e = "KeyError"%string \/ exn_name e = "ValueError"%string
    \/ exn_name e = "TypeError"%string).
  { intros ds1. destruct (sel_time ds1 time_slice) as [ds0|e0] eqn:Hs; cbn [bind].
    - intros Hd. right. left. eapply drop_coords_raises; eauto.
    - intros Heq. inversion Heq; subst.
      destruct (sel_time_raises _ _ _ Hs); auto. }
  unfold normalize.
  destruct (mem "longitude" (dim_names ds) && mem "latitude" (dim_names ds)).
  - unfold rename. destruct (negb _).
    + cbn [bind]. intros Heq. inversion Heq. now right; left.
    + destruct (has_dup _); cbn [bind].
      * intros Heq. inversion Heq. now right; left.
      * apply Htail.
  - cbn [bind]. apply Htail.
Qed.

Lemma getitem_raises (ds : Dataset) (name : string) (e : exn) :
  getitem ds name = Raise e -> e = KeyError name.
Proof.
  unfold getitem. destruct (dict_get _ name); [discriminate|].
  destruct (mem name (dim_names ds)); [discriminate|]. congruence.
Qed.

Lemma getitem_missing (ds : Dataset) (name : string) :
  ~ In name (keys (coords ds ++ data_vars ds)) ->
  ~ In name (dim_names ds) ->
  getitem ds name = Raise (KeyError name).
Proof.
  intros Hv Hd. unfold getitem. rewrite (dict_get_None _ _ _ Hv).
  apply mem_not_In in Hd. now rewrite Hd.
Qed.

Lemma sum_raises (a : DataArray) (dim : list string) (e : exn) :
  Xr.sum a dim = Raise e -> exn_name e = "ValueError"%string.
Proof.
  unfold Xr.sum. destruct (negb _); [|discriminate].
  intros Heq. now inversion Heq.
Qed.

Lemma sum_missing_dim (a : DataArray) (dim : list string) (d : string) :
  In d dim -> ~ In d (keys (da_dims a)) ->
  exists e, Xr.sum a dim = Raise e.
Proof.
  intros Hd Hmiss. unfold Xr.sum.
  destruct (forallb (fun d0 => mem d0 (keys (da_dims a))) dim) eqn:Hall.
  - rewrite forallb_forall in Hall. specialize (Hall d Hd).
    apply mem_In in Hall. contradiction.
  - simpl. eauto.
Qed.

Lemma cos_lat_2d_raises (ds : Dataset) (e : exn) :
  cos_lat_2d ds = Raise e -> exn_name e = "KeyError"%string.
Proof.
  unfold cos_lat_2d.
  destruct (getitem ds "lat") as [lat|e1] eqn:H1; cbn [bind].
  - destruct (getitem ds "lon") as [lon|e2] eqn:H2; cbn [bind]; [discriminate|].
    intros Heq. inversion Heq; subst.
    now rewrite (getitem_raises _ _ _ H2).
  - intros Heq. inversion Heq; subst. now rewrite (getitem_raises _ _ _ H1).
Qed.

Lemma global_mean_raises (ds : Dataset) (e : exn) :
  global_mean ds = Raise e ->
  exn_name e = "KeyError"%string \/ exn_name e = "ValueError"%string.
Proof.
  unfold global_mean.
  destruct (cos_lat_2d ds) as [w|e1] eqn:Hw; cbn [bind].
  - destruct (getitem ds "tas") as [tas|e2] eqn:Ht; cbn [bind].
    + destruct (Xr.sum (da_binop vmul tas w) _) as [num|e3] eqn:Hn; cbn [bind].
      * destruct (Xr.sum w _) as [den|e4] eqn:Hd; cbn [bind]; [discriminate|].
        intros Heq. inversion Heq; subst. right. eapply sum_raises; eauto.
      * intros Heq. inversion Heq; subst. right. eapply sum_raises; eauto.
    + intros Heq. inversion Heq; subst. left.
      now rewrite (getitem_raises _ _ _ Ht).
  - intros Heq. inversion Heq; subst. left. eapply cos_lat_2d_raises; eauto.
Qed.

Lemma process_run_raises (ds : Dataset) (e : exn) :
  process_run ds = Raise e ->
  exn_name e = "KeyError"%string \/ exn_name e = "ValueError"%string
  \/ exn_name e = "TypeError"%string.
Proof.
  unfold process_run.
  destruct (normalize ds) as [ds'|e1] eqn:Hn; cbn [bind].
  - destruct (global_mean ds') as [g|e2] eqn:Hg; cbn [bind]; [discriminate|].
    intros Heq. inversion Heq; subst.
    destruct (global_mean_raises _ _ Hg); auto.
  - intros Heq. inversion Heq; subst. eapply normalize_raises; eauto.
Qed.

(** ** Dimensions of the arrays *)

Lemma keys_as_array (ds : Dataset) (v : Var) :
  keys (da_dims (as_array ds v)) = v_dims v.
Proof.
  unfold as_array, keys. simpl. rewrite map_map. simpl. apply map_id.
Qed.

Lemma getitem_dims (ds : Dataset) (name : string) (a : DataArray) :
  dims_declared ds ->
  getitem ds name = Ok a ->
  incl (keys (da_dims a)) (dim_names ds).
Proof.
  intros Hdecl. unfold getitem.
  destruct (dict_get (coords ds ++ data_vars ds) name) as [v|] eqn:Hget.
  - intros Heq. inversion Heq; subst. rewrite keys_as_array.
    apply (Hdecl name). now apply dict_get_In.
  - destruct (mem name (dim_names ds)) eqn:Hm; [|discriminate].
    intros Heq. inversion Heq; subst. simpl.
    intros d [<-|[]]. now apply mem_In.
Qed.

Lemma binop_dims (f : val -> val -> val) (a b : DataArray) (d : string) :
  In d (keys (da_dims (da_binop f a b))) ->
  In d (keys (da_dims a)) \/ In d (keys (da_dims b)).
Proof.
  unfold da_binop. cbn [da_dims]. rewrite keys_app, in_app_iff.
  intros [Ha|Hb]; [now left|right].
  unfold keys in *. apply in_map_iff in Hb. destruct Hb as [p [Hp Hin]].
  apply filter_In in Hin. apply in_map_iff. exists p. tauto.
Qed.

(** ** What the weighted mean needs *)

Lemma global_mean_needs_lat_lon (ds : Dataset) (g : DataArray) :
  dims_declared ds -> global_mean ds = Ok g -> has_both ds "lat" "lon".
Proof.
  intros Hdecl. unfold global_mean, cos_lat_2d.
  destruct (getitem ds "lat") as [lat|] eqn:Hlat; cbn [bind]; [|discriminate].
  destruct (getitem ds "lon") as [lon|] eqn:Hlon; cbn [bind]; [|discriminate].
  destruct (getitem ds "tas") as [tas|] eqn:Htas; cbn [bind]; [|discriminate].
  set (w := da_binop vmul (np_cos (np_deg2rad lat)) (ones_like lon)).
  destruct (Xr.sum (da_binop vmul tas w) _) as [num|] eqn:Hnum; cbn [bind];
    [|discriminate].
  intros _. unfold Xr.sum in Hnum.
  destruct (forallb _ _) eqn:Hall; [|discriminate]. clear Hnum.
  rewrite forallb_forall in Hall.
  assert (Hin : forall d, In d ["lat"; "lon"]%string -> In d (dim_names ds)).
  { intros d Hd. specialize (Hall d Hd). apply mem_In in Hall.
    apply binop_dims in Hall. destruct Hall as [Ht|Hw].
    - now apply (getitem_dims _ _ _ Hdecl Htas).
    - apply binop_dims in Hw. destruct Hw as [Hl|Hl].
      + now apply (getitem_dims _ _ _ Hdecl Hlat).
      + now apply (getitem_dims _ _ _ Hdecl Hlon). }
  split; apply Hin; simpl; auto.
Qed.

Lemma global_mean_needs_tas (ds : Dataset) (g : DataArray) :
  global_mean ds = Ok g ->
  In "tas"%string (keys (coords ds ++ data_vars ds))
  \/ In "tas"%string (dim_names ds).
Proof.
  unfold global_mean.
  destruct (cos_lat_2d ds); cbn [bind]; [|discriminate].
  destruct (getitem ds "tas") as [tas|] eqn:Htas; cbn [bind]; [|discriminate].
  intros _. unfold getitem in Htas.
  destruct (dict_get (coords ds ++ data_vars ds) "tas") as [v|] eqn:Hget.
  - left. apply dict_get_In in Hget. eapply in_keys; eauto.
  - right. destruct (mem "tas" (dim_names ds)) eqn:Hm; [|discriminate].
    now apply mem_In.
Qed.

Lemma rename_name_tas (y : string) :
  rename_name spatial_names y = "tas"%string -> y = "tas"%string.
Proof.
  destruct (rename_name_cases y) as [[_ ->]|[[_ ->]|(_ & _ & ->)]];
    [discriminate|discriminate|auto].
Qed.

Lemma lacks_temperature_renamed (ds : Dataset) :
  lacks_temperature ds -> lacks_temperature (renamed ds spatial_names).
Proof.
  intros [Hv Hd]. split.
  - rewrite var_names_renamed. intros Hin. apply in_map_iff in Hin.
    destruct Hin as [y [Hy Hin]]. apply rename_name_tas in Hy. now subst.
  - unfold dim_names, renamed. cbn [dims]. rewrite keys_rename_entry.
    intros Hin. apply in_map_iff in Hin.
    destruct Hin as [y [Hy Hin]]. apply rename_name_tas in Hy. now subst.
Qed.

Lemma keys_vars_in_var_names (ds : Dataset) (n : string) :
  In n (keys (coords ds ++ data_vars ds)) -> In n (var_names ds).
Proof.
  rewrite keys_app. unfold var_names, coord_names.
  rewrite !in_app_iff. tauto.
Qed.

(** ** Sums that skip the missing cells *)

Lemma fold_vadd_finite (cells : list val) (a : R) :
  (forall c, In c cells -> finite_or_missing c) ->
  fold_left vadd (map nan_to_zero cells) (Num a)
  = Num (a + Rsum (map or_zero cells)).
Proof.
  revert a. induction cells as [|c cells IH]; intros a Hall.
  - simpl. f_equal. lra.
  - assert (Hc := Hall c (or_introl eq_refl)).
    assert (Hrest : forall c', In c' cells -> finite_or_missing c').
    { intros c' Hc'. apply Hall. now right. }
    destruct c as [|x|s]; [| |contradiction];
      cbn [map fold_left nan_to_zero vadd or_zero Rsum fold_right];
      rewrite (IH _ Hrest); f_equal; unfold Rsum; lra.
Qed.

Lemma nansum_finite (cells : list val) :
  (forall c, In c cells -> finite_or_missing c) ->
  nansum cells = Num (Rsum (map or_zero cells)).
Proof.
  intros Hall. unfold nansum. rewrite (fold_vadd_finite _ _ Hall).
  f_equal. lra.
Qed.

Lemma Rsum_app (l1 l2 : list R) : Rsum (l1 ++ l2) = (Rsum l1 + Rsum l2)%R.
Proof.
  unfold Rsum. induction l1 as [|x l1 IH]; simpl; [lra|]. rewrite IH. lra.
Qed.

Lemma Rsum_flat_map (F : nat -> list val) (l : list nat) :
  Rsum (map or_zero (flat_map F l))
  = Rsum (map (fun i => Rsum (map or_zero (F i))) l).
Proof.
  induction l as [|i l IH]; simpl; [reflexivity|].
  rewrite map_app, Rsum_app, IH. reflexivity.
Qed.

Lemma cells_over_grid (f : Index -> val) (env : Index) (n m : nat) :
  cells_over [("lat"%string, n); ("lon"%string, m)] f env
  = flat_map (fun i => map (fun j => f (upd (upd env "lat" i) "lon" j))
                         (seq 0 m)) (seq 0 n).
Proof.
  cbn [cells_over]. apply flat_map_ext. intros i.
  induction (seq 0 m) as [|j l IH]; simpl; [reflexivity|]. now rewrite IH.
Qed.

Lemma nansum_grid (f : Index -> val) (env : Index) (n m : nat)
  (g : nat -> nat -> R) :
  (forall i j, i < n -> j < m ->
     finite_or_missing (f (upd (upd env "lat" i) "lon" j))
     /\ or_zero (f (upd (upd env "lat" i) "lon" j)) = g i j) ->
  nansum (cells_over [("lat"%string, n); ("lon"%string, m)] f env)
  = Num (grid_sum n m g).
Proof.
  intros Hcells. rewrite cells_over_grid, nansum_finite.
  - f_equal. rewrite Rsum_flat_map. unfold grid_sum. f_equal.
    apply map_ext_in. intros i Hi. f_equal. rewrite map_map.
    apply map_ext_in. intros j Hj.
    apply in_seq in Hi, Hj. apply Hcells; lia.
  - intros c Hc. apply in_flat_map in Hc. destruct Hc as [i [Hi Hc]].
    apply in_map_iff in Hc. destruct Hc as [j [<- Hj]].
    apply in_seq in Hi, Hj. apply Hcells; lia.
Qed.

Lemma grid_sum_ext (n m : nat) (g h : nat -> nat -> R) :
  (forall i j, i < n -> j < m -> g i j = h i j) ->
  grid_sum n m g = grid_sum n m h.
Proof.
  intros Hgh. unfold grid_sum. f_equal. apply map_ext_in. intros i Hi.
  f_equal. apply map_ext_in. intros j Hj.
  apply in_seq in Hi, Hj. apply Hgh; lia.
Qed.

Lemma Rsum_scale (v : R) (l : list R) :
  Rsum (map (fun x => v * x)%R l) = (v * Rsum l)%R.
Proof.
  unfold Rsum. induction l as [|x l IH]; simpl; [lra|]. rewrite IH. lra.
Qed.

Lemma grid_sum_scale (n m : nat) (v : R) (g : nat -> nat -> R) :
  grid_sum n m (fun i j => v * g i j)%R = (v * grid_sum n m g)%R.
Proof.
  unfold grid_sum. rewrite <- Rsum_scale, map_map. f_equal.
  apply map_ext. intros i. now rewrite <- Rsum_scale, map_map.
Qed.

(** ** The weighted mean *)

Lemma sum_ok (a : DataArray) (dim : list string) :
  (forall d, In d dim -> In d (keys (da_dims a))) ->
  Xr.sum a dim = Ok (summed a dim).
Proof.
  intros Hall. unfold Xr.sum.
  assert (Hf : forallb (fun d => mem d (keys (da_dims a))) dim = true).
  { apply forallb_forall. intros d Hd. apply mem_In. now apply Hall. }
  now rewrite Hf.
Qed.

Lemma cos_lat_2d_value (ds : Dataset) (lats : nat -> R) (tas : Var)
  (outer : list string) :
  is_gridded ds lats tas outer ->
  exists w,
    cos_lat_2d ds = Ok w
    /\ da_dims w = [("lat"%string, dim_size ds "lat");
                    ("lon"%string, dim_size ds "lon")]
    /\ forall env, da_at w env = Num (cos_weight lats (env "lat"%string) 0 * 1).
Proof.
  intros ((vlat & Hlat & Hdlat & Hvlat) & (vlon & Hlon & Hdlon) & _).
  unfold cos_lat_2d, getitem. rewrite Hlat, Hlon. cbn [bind].
  eexists. split; [reflexivity|]. split.
  - unfold da_binop, np_cos, np_deg2rad, da_map, ones_like, as_array.
    cbn [da_dims]. rewrite Hdlat, Hdlon. reflexivity.
  - intros env.
    unfold da_binop, np_cos, np_deg2rad, da_map, ones_like, as_array.
    cbn [da_at]. rewrite Hvlat. reflexivity.
Qed.

Lemma tas_times_weights_dims (ds : Dataset) (tas : Var) (outer : list string)
  (w : DataArray) (f : val -> val -> val) :
  v_dims tas = outer ++ ["lat"; "lon"]%string ->
  ~ In "lat"%string outer -> ~ In "lon"%string outer ->
  da_dims w = [("lat"%string, dim_size ds "lat");
               ("lon"%string, dim_size ds "lon")] ->
  filter (fun p => mem (fst p) ["lat"; "lon"]%string)
    (da_dims (da_binop f (as_array ds tas) w))
  = [("lat"%string, dim_size ds "lat"); ("lon"%string, dim_size ds "lon")]
  /\ keys (filter (fun p => negb (mem (fst p) ["lat"; "lon"]%string))
             (da_dims (da_binop f (as_array ds tas) w))) = outer
  /\ forall d, In d ["lat"; "lon"]%string ->
               In d (keys (da_dims (da_binop f (as_array ds tas) w))).
Proof.
  intros Hdims Hlat Hlon Hw.
  assert (Hk : keys (da_dims (as_array ds tas)) = outer ++ ["lat"; "lon"]%string).
  { now rewrite keys_as_array. }
  assert (Hextra : filter (fun p => negb (mem (fst p) (keys (da_dims (as_array ds tas)))))
                     (da_dims w) = []).
  { apply filter_none. intros p Hp. rewrite Hw in Hp. rewrite Hk.
    apply negb_false_iff, mem_In, in_or_app. right.
    destruct Hp as [<-|[<-|[]]]; simpl; auto. }
  unfold da_binop. cbn [da_dims]. rewrite Hextra, app_nil_r.
  unfold as_array. cbn [da_dims]. rewrite Hdims, map_app.
  assert (Hout : forall p, In p (map (fun d => (d, dim_size ds d)) outer) ->
                           mem (fst p) ["lat"; "lon"]%string = false).
  { intros p Hp. apply in_map_iff in Hp. destruct Hp as [d [<- Hd]].
    apply mem_not_In. simpl. intros [<-|[<-|[]]]; contradiction. }
  split; [|split].
  - rewrite filter_app, (filter_none _ _ _ Hout). reflexivity.
  - rewrite filter_app, filter_all.
    + cbn. rewrite app_nil_r. unfold keys. rewrite map_map. apply map_id.
    + intros p Hp. now rewrite (Hout p Hp).
  - intros d Hd. rewrite keys_app. apply in_or_app. right. exact Hd.
Qed.

(** The value of [gmst] on a gridded field without infinite cells: the sum
    over the cells that hold a number, divided by the sum of all weights. *)
Lemma global_mean_value (ds : Dataset) (lats : nat -> R) (tas : Var)
  (outer : list string) (env : Index) :
  is_gridded ds lats tas outer ->
  (forall i j, i < dim_size ds "lat" -> j < dim_size ds "lon" ->
               finite_or_missing (cell_at tas env i j)) ->
  exists gmst,
    global_mean ds = Ok gmst
    /\ keys (da_dims gmst) = outer
    /\ da_at gmst env
       = vdiv (Num (grid_sum (dim_size ds "lat") (dim_size ds "lon")
                      (fun i j => or_zero (cell_at tas env i j)
                                  * cos_weight lats i j)%R))
              (Num (grid_sum (dim_size ds "lat") (dim_size ds "lon")
                      (cos_weight lats))).
Proof.
  intros Hgrid Hcells.
  destruct (cos_lat_2d_value ds lats tas outer Hgrid) as (w & Hw & Hwd & Hwv).
  destruct Hgrid as (_ & _ & Htas & Hdims & Hnlat & Hnlon).
  destruct (tas_times_weights_dims ds tas outer w vmul Hdims Hnlat Hnlon Hwd)
    as (Hred & Hkept & Hin).
  unfold global_mean. rewrite Hw. cbn [bind].
  unfold getitem. rewrite Htas. cbn [bind].
  rewrite (sum_ok _ _ Hin). cbn [bind].
  rewrite sum_ok.
  2:{ intros d Hd. rewrite Hwd. exact Hd. }
  cbn [bind]. eexists. split; [reflexivity|]. split.
  - unfold da_binop at 1. cbn [da_dims summed]. rewrite Hwd.
    cbn [filter mem existsb fst String.eqb Ascii.eqb Bool.eqb negb orb].
    rewrite app_nil_r. exact Hkept.
  - unfold da_binop at 1. cbn [da_at summed]. rewrite Hred, Hwd.
    cbn [filter mem existsb fst String.eqb Ascii.eqb Bool.eqb negb orb].
    f_equal.
    + apply nansum_grid. intros i j Hi Hj.
      unfold da_binop, as_array. cbn [da_at]. rewrite Hwv.
      specialize (Hcells i j Hi Hj). unfold cell_at in *.
      unfold cos_weight, upd. cbn [String.eqb Ascii.eqb Bool.eqb].
      destruct (v_at tas _) as [|x|s]; [| |contradiction]; cbn; split; auto;
        lra.
    + apply nansum_grid. intros i j Hi Hj. rewrite Hwv.
      unfold cos_weight, upd. cbn [String.eqb Ascii.eqb Bool.eqb].
      cbn. split; [exact I|lra].
Qed.

Lemma sample_is_gridded (cell : val) :
  is_gridded (sample_field cell) (fun _ => 0%R)
    (sample_tas "lat" "lon" cell) ["time"%string].
Proof.
  unfold is_gridded. split; [|split; [|split; [|split; [|split]]]].
  - eexists. split; [reflexivity|]. split; reflexivity.
  - eexists. split; reflexivity.
  - reflexivity.
  - reflexivity.
  - simpl. intuition discriminate.
  - simpl. intuition discriminate.
Qed.

Lemma sample_weight_sum : grid_sum 1 2 (cos_weight (fun _ => 0%R)) = 2%R.
Proof.
  unfold grid_sum, cos_weight, Rsum. simpl. rewrite Rmult_0_l, cos_0. lra.
Qed.

Lemma vdiv_nums (a b : R) : b <> 0%R -> vdiv (Num a) (Num b) = Num (a / b).
Proof.
  intros Hb. unfold vdiv, is_zero.
  destruct (Req_dec_T b 0); [contradiction|reflexivity].
Qed.

(** ** Series: concatenation *)





Lemma times_series_of (ts : list timestamp) (a : DataArray) :
  times (series_of ts a) = ts.
Proof.
  unfold times, series_of. rewrite map_map. simpl. apply map_nth_seq.
Qed.

(** ** Series: monthly climatology *)

Lemma In_insert_unique (k x : Z) (l : list Z) :
  In x (insert_unique k l) <-> x = k \/ In x l.
Proof.
  induction l as [|k' l IH]; simpl.
  - intuition congruence.
  - destruct (Z.ltb_spec k k'); simpl; [intuition congruence|].
    destruct (Z.eqb_spec k k'); simpl.
    + subst. intuition congruence.
    + rewrite IH. intuition congruence.
Qed.

Lemma In_group_labels (x : Z) (ks : list Z) :
  In x (group_labels ks) <-> In x ks.
Proof.
  unfold group_labels. induction ks as [|k ks IH]; simpl; [tauto|].
  rewrite In_insert_unique, IH. intuition congruence.
Qed.

Lemma group_value_map (g : Z -> val) (labels : list Z) (k : Z) :
  In k labels -> group_value (map (fun k' => (k', g k')) labels) k = g k.
Proof.
  induction labels as [|k' labels IH]; simpl; [contradiction|].
  intros Hin. destruct (Z.eqb_spec k' k) as [->|Hne]; [reflexivity|].
  apply IH. destruct Hin; [contradiction|assumption].
Qed.

Lemma fold_vadd_const (cells : list val) (x a : R) :
  (forall c, In c cells -> c = Num x) ->
  fold_left vadd cells (Num a) = Num (a + INR (List.length cells) * x).
Proof.
  revert a. induction cells as [|c cells IH]; intros a Hall.
  - simpl. f_equal. lra.
  - cbn [fold_left]. rewrite (Hall c) by now left.
    cbn [vadd]. rewrite IH by (intros c' Hc'; apply Hall; now right).
    f_equal. cbn [List.length]. rewrite S_INR. lra.
Qed.

Lemma nanmean_const (cells : list val) (x : R) :
  cells <> [] ->
  (forall c, In c cells -> c = Num x) ->
  nanmean cells = Num x.
Proof.
  intros Hne Hall. unfold nanmean.
  assert (Hf : filter (fun a => negb (isnan a)) cells = cells).
  { clear Hne. induction cells as [|c cells IH]; simpl; [reflexivity|].
    rewrite (Hall c) by now left. simpl. f_equal.
    apply IH. intros c' Hc'. apply Hall. now right. }
  rewrite Hf. destruct cells as [|c cells]; [congruence|].
  rewrite fold_vadd_const with (x := x) by exact Hall.
  assert (Hn : INR (List.length (c :: cells)) <> 0%R).
  { apply not_0_INR. simpl. discriminate. }
  unfold vdiv, is_zero.
  destruct (Req_dec_T (INR (List.length (c :: cells))) 0); [contradiction|].
  f_equal. field. exact Hn.
Qed.

(** C3. With every scenario key made of at least three fields, the splicer
    finishes without an error and, for a scenario run [name] whose third
    dot-separated field is [model]: when no key of the dictionary holds both
    [model] and the label [historical], nothing is stored under [name];
    otherwise the series stored under [name] is the one of the last such
    key in iteration order, followed by the run's own series.  Keys without
    the scenario marker get no entry. *)
Theorem splicer_uses_last_matching_historical_run
  (A : Type) (xr_concat : A -> A -> A) (d : dict A)
  (name : string) (gmst : A) (model : string) :
  NoDup (keys d) ->
  (forall k, In k (keys d) -> str_in "ssp" k = true ->
             3 <= List.length (str_split "."%char k)) ->
  In (name, gmst) d ->
  str_in "ssp" name = true ->
  nth_error (str_split "."%char name) 2 = Some model ->
  exists out,
    splice xr_concat d = Finished out
    /\ ((forall hist_name h, In (hist_name, h) d ->
           is_match model hist_name = false) ->
        dict_get out name = None)
    /\ (forall pre hist_name h post,
           d = pre ++ (hist_name, h) :: post ->
           is_match model hist_name = true ->
           (forall p, In p post -> is_match model (fst p) = false) ->
           dict_get out name = Some (xr_concat h gmst))
    /\ (forall k, str_in "ssp" k = false -> dict_get out k = None).
Proof.
  intros Hnd Hlong Hin Hssp Hmodel.
  destruct (splice_loop_finishes A xr_concat d d [] Hlong) as [out Hrun].
  assert (Hm : model_name_of name = Ok model).
  { unfold model_name_of, list_index. now rewrite Hmodel. }
  exists out. split; [exact Hrun|]. split; [|split].
  - intros Hnone.
    rewrite (splice_loop_get A xr_concat d d [] out name gmst None
               Hnd Hrun Hin Hssp); [reflexivity|].
    apply find_hist_no_match with (m := model); [exact Hm|].
    intros [hn h] Hp. simpl. now apply (Hnone hn h).
  - intros pre hn h post Hd Hyes Hno.
    rewrite (splice_loop_get A xr_concat d d [] out name gmst (Some h)
               Hnd Hrun Hin Hssp); [reflexivity|].
    rewrite Hd at 1. now apply find_hist_last_match with (m := model).
  - intros k Hk.
    now rewrite (splice_loop_frame A xr_concat d d [] out k Hrun (or_intror Hk)).
Qed.

Lemma splicer_uses_last_matching_historical_run_witness :
  exists out,
    splice concat_time sample_gmst_dict = Finished out
    /\ dict_get out "ScenarioMIP.NCAR.CESM2.ssp585.Amon.gn"
       = Some (concat_time [(22200%Z, Num 288)] [(24180%Z, Num 289)])
    /\ dict_get out "ScenarioMIP.MIROC.MIROC6.ssp585.Amon.gn" = None.
Proof.
  assert (Hnd : NoDup (keys sample_gmst_dict)).
  { repeat constructor; simpl; intuition discriminate. }
  assert (Hlong : forall k, In k (keys sample_gmst_dict) ->
            str_in "ssp" k = true -> 3 <= List.length (str_split "."%char k)).
  { intros k Hk _. simpl in Hk.
    repeat (destruct Hk as [<-|Hk]; [vm_compute; lia|]). contradiction. }
  destruct (splicer_uses_last_matching_historical_run _ concat_time
              sample_gmst_dict "ScenarioMIP.NCAR.CESM2.ssp585.Amon.gn"
              [(24180%Z, Num 289)] "CESM2" Hnd Hlong
              ltac:(simpl; tauto) eq_refl eq_refl)
    as (out & Hrun & _ & Hlast & _).
  destruct (splicer_uses_last_matching_historical_run _ concat_time
              sample_gmst_dict "ScenarioMIP.MIROC.MIROC6.ssp585.Amon.gn"
              [(24180%Z, Num 290)] "MIROC6" Hnd Hlong
              ltac:(simpl; tauto) eq_refl eq_refl)
    as (out' & Hrun' & Hnone & _ & _).
  exists out. split; [exact Hrun|]. split.
  - apply (Hlast [("CMIP.NCAR.CESM2.historical.Amon.gn"%string, [(22200%Z, Num 287)])]
             "CMIP.NCAR.CESM2-WACCM.historical.Amon.gn"%string
             [(22200%Z, Num 288)]
             [("ScenarioMIP.NCAR.CESM2.ssp585.Amon.gn"%string, [(24180%Z, Num 289)]);
              ("ScenarioMIP.MIROC.MIROC6.ssp585.Amon.gn"%string, [(24180%Z, Num 290)])]).
    + reflexivity.
    + reflexivity.
    + intros p [<-|[<-|[]]]; reflexivity.
  - assert (Heq : out' = out) by congruence. subst out'.
    apply Hnone. intros hn h Hp. simpl in Hp.
    repeat (destruct Hp as [Hp|Hp]; [inversion Hp; reflexivity|]). contradiction.
Defined.

(** C10. The extraction [name.split(".")[2]] needs three fields: when every
    key with the scenario marker splits into at least three, the splicer
    finishes and the index error is never raised; a key with the marker
    and fewer fields makes the splicer stop with that error, and nothing is
    stored under that key. *)
Theorem splicer_needs_three_fields
  (A : Type) (xr_concat : A -> A -> A) (d : dict A) :
  ((forall k, In k (keys d) -> str_in "ssp" k = true ->
              3 <= List.length (str_split "."%char k)) ->
   exists out, splice xr_concat d = Finished out)
  /\ (forall name, In name (keys d) -> str_in "ssp" name = true ->
        List.length (str_split "."%char name) < 3 ->
        exists out, splice xr_concat d = Aborted IndexError out
                    /\ dict_get out name = None).
Proof.
  split.
  - intros Hlong. now apply splice_loop_finishes.
  - intros name Hin Hssp Hshort.
    apply splice_loop_aborts; auto.
    destruct d; [contradiction|discriminate].
Qed.

Lemma splicer_needs_three_fields_witness :
  (exists out, splice concat_time sample_gmst_dict = Finished out)
  /\ (exists out, splice concat_time short_key_dict = Aborted IndexError out
                  /\ dict_get out "ssp585.CESM2" = None).
Proof.
  split.
  - apply (proj1 (splicer_needs_three_fields _ concat_time sample_gmst_dict)).
    intros k Hk _. simpl in Hk.
    repeat (destruct Hk as [<-|Hk]; [vm_compute; lia|]). contradiction.
  - apply (proj2 (splicer_needs_three_fields _ concat_time short_key_dict)
             "ssp585.CESM2"%string).
    + simpl. tauto.
    + reflexivity.
    + vm_compute. lia.
Defined.



(** C8, as the cell behaves.  In exact arithmetic, when the cells of a
    series depend on the calendar month of their time step only,
    subtracting the monthly climatology (the mean of each calendar month
    over the whole series) leaves zero at every time step. *)
Theorem periodic_signal_has_zero_anomalies (gmst : Series) (signal : Z -> R) :
  (forall t v, In (t, v) gmst -> v = Num (signal (month t))) ->
  times (gmst_anomalies gmst) = times gmst
  /\ forall t v, In (t, v) (gmst_anomalies gmst) -> v = Num 0.
Proof.
  intros Hper. split.
  - unfold gmst_anomalies, groupby_sub, times. rewrite map_map.
    apply map_ext. reflexivity.
  - intros t v Hin. unfold gmst_anomalies, groupby_sub in Hin.
    apply in_map_iff in Hin. destruct Hin as [[t' v'] [Heq Hin]].
    simpl in Heq. inversion Heq; subst t. clear Heq.
    unfold gmst_climatology, groupby_mean.
    rewrite (group_value_map
               (fun k => nanmean (group_cells month k gmst))).
    + rewrite (nanmean_const _ (signal (month t'))).
      * rewrite (Hper _ _ Hin). simpl. f_equal. lra.
      * unfold group_cells. intros Hnil.
        assert (Hc : In v' (map snd (filter
                   (fun p => Z.eqb (month (fst p)) (month t')) gmst))).
        { apply in_map_iff. exists (t', v'). split; [reflexivity|].
          apply filter_In. split; [exact Hin|]. simpl. apply Z.eqb_refl. }
        rewrite Hnil in Hc. contradiction.
      * intros c Hc. unfold group_cells in Hc.
        apply in_map_iff in Hc. destruct Hc as [[t2 v2] [Hsnd Hf]].
        apply filter_In in Hf. destruct Hf as [Hin2 Hm]. simpl in *.
        apply Z.eqb_eq in Hm. subst c. rewrite <- Hm. now apply Hper.
    + apply In_group_labels. unfold times. rewrite map_map.
      apply in_map_iff. exists (t', v'). split; [reflexivity|exact Hin].
Qed.

Lemma periodic_signal_has_zero_anomalies_witness :
  times (gmst_anomalies sample_tenths) = times sample_tenths
  /\ forall t v, In (t, v) (gmst_anomalies sample_tenths) -> v = Num 0.
Proof.
  apply (periodic_signal_has_zero_anomalies sample_tenths
           (fun m => (IZR m / 10)%R)).
  intros t v Hin. unfold sample_tenths in Hin. simpl in Hin.
  repeat (destruct Hin as [Hin|Hin]; [inversion Hin; reflexivity|]).
  contradiction.
Defined.

(** C8, as it is stated, fails on the doubles of the notebook: in the
    series that holds 0.1 every January and 0.2 every February of three
    years, the mean of the three Januaries is 0.10000000000000002, and the
    anomaly of January 1850 is a number below zero; so is that of
    February 1850. *)
Lemma periodic_signal_counterexample :
  (forall t v, In (t, v) double_tenths ->
               v = if Z.eqb (month t) 1 then Double.tenth else Double.fifth)
  /\ (exists v, In (22200%Z, v) (Double.gmst_anomalies double_tenths)
                /\ PrimFloat.eqb v PrimFloat.zero = false
                /\ PrimFloat.ltb v PrimFloat.zero = true)
  /\ (exists v, In (22201%Z, v) (Double.gmst_anomalies double_tenths)
                /\ PrimFloat.eqb v PrimFloat.zero = false
                /\ PrimFloat.ltb v PrimFloat.zero = true).
Proof.
  split; [|split].
  - intros t v Hin. unfold double_tenths in Hin. simpl in Hin.
    repeat (destruct Hin as [Hin|Hin]; [inversion Hin; reflexivity|]).
    contradiction.
  - eexists. split; [left; reflexivity|]. split; vm_compute; reflexivity.
  - eexists. split; [right; left; reflexivity|].
    split; vm_compute; reflexivity.
Qed.

(** C5, as the cell behaves.  A raw dataset whose spatial dimensions
    follow either naming convention, with a time coordinate in
    chronological order, is normalised without an error.  Every coordinate
    of the result is [lat], [lon] or [time]; [time] is one of them; [lat]
    and [lon] are among them when the spatial dimensions of the input carry
    coordinate variables, under the short names or under the long ones; and
    the time steps of the result are the steps of the input that fall in
    the window from 1850 to 2100, both years included. *)
Theorem normalize_keeps_canonical_coordinates
  (ds : Dataset) (ts : list timestamp) :
  unique_names ds ->
  time ds = Some ts ->
  ascending ts = true ->
  lat_lon_dims ds \/ latitude_longitude_dims ds ->
  exists ds',
    normalize ds = Ok ds'
    /\ (forall c, In c (coord_names ds') ->
                  c = "lat"%string \/ c = "lon"%string \/ c = "time"%string)
    /\ In "time"%string (coord_names ds')
    /\ (uses_lat_lon ds \/ uses_latitude_longitude ds ->
        In "lat"%string (coord_names ds') /\ In "lon"%string (coord_names ds'))
    /\ time ds' = Some (filter (in_slice time_slice) ts)
    /\ forall t, In t (filter (in_slice time_slice) ts) <->
                 In t ts /\ (1850 <= year t <= 2100)%Z.
Proof.
  intros Hu Ht Ha Hconv.
  assert (Hwin : forall t, In t (filter (in_slice time_slice) ts) <->
                           In t ts /\ (1850 <= year t <= 2100)%Z).
  { intros t. rewrite filter_In. unfold in_slice, time_slice. simpl.
    rewrite andb_true_iff, !Z.leb_le. tauto. }
  destruct Hconv as [(Hdims & Hno)|(Hdims & Hnlat & Hnlon & _ & _)].
  - rewrite (normalize_without_rename ds Hno).
    destruct (window_and_drop ds ts Ht Ha Hu) as (ds' & Hrun & Ht' & Hc).
    exists ds'. split; [exact Hrun|].
    split; [|split; [|split; [|split]]]; auto.
    + intros c Hin. apply Hc in Hin. now apply kept_coords_spec.
    + apply Hc. split; [|reflexivity]. unfold coord_names. rewrite Ht.
      now left.
    + intros [(_ & Hlat & Hlon & _)|(Hlong & _)]; [|contradiction].
      split; apply Hc; (split; [|reflexivity]); unfold coord_names;
        rewrite Ht; now right.
  - rewrite (normalize_with_rename ds Hdims).
    rewrite (rename_long_names ds Hu Hdims Hnlat Hnlon). cbn [bind].
    assert (Hu' : unique_names (renamed ds spatial_names)).
    { unfold unique_names. rewrite var_names_renamed.
      now apply rename_names_NoDup. }
    destruct (window_and_drop (renamed ds spatial_names) ts Ht Ha Hu')
      as (ds' & Hrun & Ht' & Hc).
    exists ds'. split; [exact Hrun|].
    split; [|split; [|split; [|split]]]; auto.
    + intros c Hin. apply Hc in Hin. now apply kept_coords_spec.
    + apply Hc. split; [|reflexivity]. unfold coord_names.
      cbn [renamed time]. rewrite Ht. now left.
    + intros [(_ & _ & _ & Hno)|(_ & Hlat & Hlon & _)]; [contradiction|].
      split; apply Hc; (split; [|reflexivity]); unfold coord_names;
        apply in_or_app; right; unfold renamed; cbn [coords];
        rewrite keys_rename_entry.
      * change "lat"%string with (rename_name spatial_names "latitude").
        now apply in_map.
      * change "lon"%string with (rename_name spatial_names "longitude").
        now apply in_map.
Qed.

Lemma normalize_keeps_canonical_coordinates_witness :
  exists ds',
    normalize (sample_dataset "latitude" "longitude" (Num 280)) = Ok ds'
    /\ In "lat"%string (coord_names ds')
    /\ In "lon"%string (coord_names ds')
    /\ (forall c, In c (coord_names ds') ->
                  c = "lat"%string \/ c = "lon"%string \/ c = "time"%string)
    /\ time ds' = Some [22200; 22201; 25200]%Z.
Proof.
  destruct (normalize_keeps_canonical_coordinates
              (sample_dataset "latitude" "longitude" (Num 280)) sample_times)
    as (ds' & Hrun & Honly & _ & Hboth & Ht & _).
  - names.
  - reflexivity.
  - reflexivity.
  - right. unfold latitude_longitude_dims, has_both. simpl.
    intuition discriminate.
  - exists ds'. split; [exact Hrun|].
    assert (Huses : uses_lat_lon (sample_dataset "latitude" "longitude" (Num 280))
                    \/ uses_latitude_longitude
                         (sample_dataset "latitude" "longitude" (Num 280))).
    { right. unfold uses_latitude_longitude, has_both. simpl.
      intuition discriminate. }
    destruct (Hboth Huses) as [Hlat Hlon].
    repeat split; [exact Hlat|exact Hlon|exact Honly|exact Ht].
Defined.

(** C5, as it is stated, fails twice.  A dataset on the dimensions [time],
    [lat] and [lon] whose spatial dimensions carry no coordinate is
    normalised to a dataset whose one coordinate is [time]; and a dataset
    under the short names whose time steps are out of order is not
    normalised at all: the selection of the window raises [KeyError]. *)
Lemma normalize_canonical_coordinates_counterexample :
  (has_both sample_bare_dims "lat" "lon"
   /\ exists ds', normalize sample_bare_dims = Ok ds'
                  /\ coord_names ds' = ["time"%string])
  /\ (uses_lat_lon sample_unordered
      /\ exists what, normalize sample_unordered = Raise (KeyError what)).
Proof.
  split; split.
  - names.
  - eexists. split; reflexivity.
  - unfold uses_lat_lon, has_both. simpl. intuition discriminate.
  - eexists. reflexivity.
Qed.

(** C9, as the cell behaves.  The spatial dimensions are renamed only when
    [latitude] and [longitude] are both dimensions of the dataset: without
    the two of them, and so with one of the two alone, a dataset with a
    time coordinate in chronological order is normalised, every dimension
    name of the result is a dimension name of the input, and every
    dimension of the input that a data variable spans is a dimension of
    the result under its own name. *)
Theorem rename_needs_both_long_names (ds : Dataset) (ts : list timestamp) :
  unique_names ds ->
  time ds = Some ts ->
  ascending ts = true ->
  ~ has_both ds "latitude" "longitude" ->
  exists ds',
    normalize ds = Ok ds'
    /\ incl (dim_names ds') (dim_names ds)
    /\ forall d name v, In (name, v) (data_vars ds) -> In d (v_dims v) ->
         In d (dim_names ds) -> In d (dim_names ds').
Proof.
  intros Hu Ht Ha Hno. rewrite (normalize_without_rename ds Hno).
  destruct (window_and_drop ds ts Ht Ha Hu) as (ds' & Hrun & _).
  exists ds'. split; [exact Hrun|].
  destruct (window_and_drop_inv _ _ Hrun) as (Hincl & _ & Hspan).
  split; [exact Hincl|].
  intros d name v Hin Hd Hdim.
  destruct (window_and_drop_data_var ds ds' name v Hu Hrun Hin)
    as (v' & Hin' & Hdims).
  apply (Hspan name v' d); [apply in_or_app; now right| |exact Hdim].
  now rewrite Hdims.
Qed.

Lemma rename_needs_both_long_names_witness :
  exists ds',
    normalize (sample_dataset "latitude" "lon" (Num 280)) = Ok ds'
    /\ In "latitude"%string (dim_names ds')
    /\ ~ In "lat"%string (dim_names ds').
Proof.
  destruct (rename_needs_both_long_names
              (sample_dataset "latitude" "lon" (Num 280)) sample_times)
    as (ds' & Hrun & Hincl & Hkept).
  - names.
  - reflexivity.
  - reflexivity.
  - names.
  - exists ds'. split; [exact Hrun|]. split.
    + apply (Hkept "latitude"%string "tas"%string
               (sample_tas "latitude" "lon" (Num 280)));
        simpl; tauto.
    + intros Hin. apply Hincl in Hin. revert Hin. names.
Defined.

(** C9, as it is stated, fails: a dataset with [latitude] and [lon] whose
    latitude bounds are a coordinate on the dimension [bnds] loses that
    dimension with the coordinate, so that the dimension names of the
    result are not those of the input. *)
Lemma rename_needs_both_long_names_counterexample :
  In "latitude"%string (dim_names sample_with_bounds)
  /\ ~ In "longitude"%string (dim_names sample_with_bounds)
  /\ exists ds',
       normalize sample_with_bounds = Ok ds'
       /\ dim_names ds' = ["time"; "latitude"; "lon"]%string
       /\ dim_names ds' <> dim_names sample_with_bounds.
Proof.
  split; [names|]. split; [names|].
  eexists. split; [reflexivity|]. split; [reflexivity|discriminate].
Qed.

(** C6, as the cell behaves.  A dataset without either pair of spatial
    dimension names, or without the temperature variable, makes the turn of
    the loop fail: it never succeeds, and the error is the built-in error
    of the step that fails, [KeyError], [ValueError] or [TypeError], so
    that its class is not [UnsupportedSchema]. *)
Theorem unsupported_schema_fails_with_lookup_error (ds : Dataset) :
  dims_declared ds ->
  no_spatial_names ds \/ lacks_temperature ds ->
  exists e,
    process_run ds = Raise e
    /\ exn_name e <> "UnsupportedSchema"%string
    /\ (exn_name e = "KeyError"%string \/ exn_name e = "ValueError"%string
        \/ exn_name e = "TypeError"%string).
Proof.
  intros Hdecl Hbad.
  destruct (process_run ds) as [[ds' g]|e] eqn:Hrun.
  - exfalso. unfold process_run in Hrun.
    destruct (normalize ds) as [ds0|] eqn:Hn; cbn [bind] in Hrun; [|discriminate].
    destruct (global_mean ds0) as [g0|] eqn:Hg; cbn [bind] in Hrun; [|discriminate].
    destruct (normalize_inv _ _ Hn)
      as (ds1 & Hcases & Hlong & Hshort & Hd & Hv & Hs).
    destruct Hbad as [[Hnlat Hnlong]|Hlack].
    + rewrite (Hshort Hnlong) in *. apply Hnlat.
      assert (Hdecl0 : dims_declared ds0).
      { intros name v' Hin d Hdv. destruct (Hv name v' Hin) as (v & Hin' & Heq).
        apply (Hs name v' d Hin Hdv). rewrite Heq in Hdv.
        now apply (Hdecl name v Hin'). }
      destruct (global_mean_needs_lat_lon ds0 g0 Hdecl0 Hg) as [Hla Hlo].
      split; now apply Hd.
    + assert (Hlack1 : lacks_temperature ds1).
      { destruct Hcases as [->| ->]; [exact Hlack|].
        now apply lacks_temperature_renamed. }
      destruct Hlack1 as [Hnv Hnd].
      destruct (global_mean_needs_tas ds0 g0 Hg) as [Hin|Hin].
      * apply Hnv. apply keys_vars_in_var_names.
        apply in_map_iff in Hin. destruct Hin as [[n v'] [Hfst Hin]].
        simpl in Hfst. subst n. destruct (Hv _ _ Hin) as (v & Hin' & _).
        eapply in_keys; eauto.
      * apply Hnd. now apply Hd.
  - exists e. split; [reflexivity|].
    pose proof (process_run_raises _ _ Hrun) as Hclass.
    split; [|exact Hclass].
    destruct Hclass as [Hc|[Hc|Hc]]; rewrite Hc; discriminate.
Qed.

Lemma unsupported_schema_fails_with_lookup_error_witness :
  (exists e,
     process_run (sample_dataset "y" "x" (Num 280)) = Raise e
     /\ exn_name e = "KeyError"%string)
  /\ (exists e,
        process_run sample_bare_time = Raise e
        /\ exn_name e = "TypeError"%string).
Proof.
  split.
  - destruct (unsupported_schema_fails_with_lookup_error
                (sample_dataset "y" "x" (Num 280)))
      as (e & Hrun & _ & _).
    + intros name v Hin d Hd. unfold sample_dataset in *. simpl in *.
      repeat (destruct Hin as [Hin|Hin];
              [inversion Hin; subst; simpl in Hd; tauto|]).
      contradiction.
    + left. names.
    + exists e. split; [exact Hrun|].
      assert (Heq : Raise (A := Dataset * DataArray) e = Raise (KeyError "lat"))
        by (rewrite <- Hrun; reflexivity).
      now inversion Heq.
  - destruct (unsupported_schema_fails_with_lookup_error sample_bare_time)
      as (e & Hrun & _ & _).
    + intros name v Hin d Hd. unfold sample_bare_time in *. simpl in *.
      repeat (destruct Hin as [Hin|Hin];
              [inversion Hin; subst; simpl in Hd; tauto|]).
      contradiction.
    + left. names.
    + exists e. split; [exact Hrun|].
      assert (Heq : Raise (A := Dataset * DataArray) e
                    = Raise (TypeError "slice indices must be integers"))
        by (rewrite <- Hrun; reflexivity).
      now inversion Heq.
Defined.

(** C6, as it is stated, fails: a dataset on the dimensions [time], [y]
    and [x] has neither pair of names, and the turn of the loop stops with
    the [KeyError] of the lookup of [lat], whose class is not
    [UnsupportedSchema]. *)
Lemma unsupported_schema_counterexample :
  no_spatial_names (sample_dataset "y" "x" (Num 280))
  /\ process_run (sample_dataset "y" "x" (Num 280)) = Raise (KeyError "lat")
  /\ exn_name (KeyError "lat") <> "UnsupportedSchema"%string.
Proof.
  split; [|split].
  - names.
  - reflexivity.
  - discriminate.
Qed.

Lemma sample_three_lats_is_gridded (cell : Index -> val) :
  is_gridded (sample_three_lats cell) three_lats (sample_three_lats_tas cell)
    ["time"%string].
Proof.
  unfold is_gridded. split; [|split; [|split; [|split; [|split]]]].
  - eexists. split; [reflexivity|]. split; reflexivity.
  - eexists. split; reflexivity.
  - reflexivity.
  - reflexivity.
  - simpl. intuition discriminate.
  - simpl. intuition discriminate.
Qed.

Lemma cos_weight_three_lats (j : nat) :
  cos_weight three_lats 0 j = (1 / 2)%R
  /\ cos_weight three_lats 1 j = 1%R
  /\ cos_weight three_lats 2 j = (1 / 2)%R.
Proof.
  unfold cos_weight, three_lats. split; [|split].
  - replace (-60 * (PI / 180))%R with (- (PI / 3))%R by field.
    rewrite cos_neg. apply cos_PI3.
  - rewrite Rmult_0_l. apply cos_0.
  - replace (60 * (PI / 180))%R with (PI / 3)%R by field. apply cos_PI3.
Qed.

Lemma three_lats_weight_sum : grid_sum 3 2 (cos_weight three_lats) = 4%R.
Proof.
  unfold grid_sum, Rsum. simpl.
  destruct (cos_weight_three_lats 0) as (H0 & H1 & H2).
  destruct (cos_weight_three_lats 1) as (H0' & H1' & H2').
  rewrite H0, H1, H2, H0', H1', H2'. lra.
Qed.

(** C1, as the cell behaves.  In exact arithmetic, on a gridded field
    without infinite cells, at every position along the time (and the
    other outer dimensions), the aggregator returns the sum of
    [field * weight] over the cells that hold a number, divided by the sum
    of the weights of all the cells, the missing ones too, where the weight
    of a cell is the cosine of its latitude taken in radians, the same at
    every longitude.  With weights that do not sum to zero, this is the
    weighted mean [sum(field * weight) / sum(weight)] of the field in which
    every missing cell is read as zero: the weighted mean of the field when
    no cell is missing. *)
Theorem global_mean_is_cosine_weighted_mean
  (ds : Dataset) (lats : nat -> R) (tas : Var) (outer : list string)
  (env : Index) :
  is_gridded ds lats tas outer ->
  (forall i j, i < dim_size ds "lat" -> j < dim_size ds "lon" ->
               finite_or_missing (cell_at tas env i j)) ->
  exists gmst,
    global_mean ds = Ok gmst
    /\ keys (da_dims gmst) = outer
    /\ da_at gmst env
       = vdiv (Num (grid_sum (dim_size ds "lat") (dim_size ds "lon")
                      (fun i j => or_zero (cell_at tas env i j)
                                  * cos_weight lats i j)%R))
              (Num (grid_sum (dim_size ds "lat") (dim_size ds "lon")
                      (cos_weight lats)))
    /\ (grid_sum (dim_size ds "lat") (dim_size ds "lon") (cos_weight lats)
        <> 0%R ->
        da_at gmst env
        = Num (weighted_mean (dim_size ds "lat") (dim_size ds "lon")
                 (fun i j => or_zero (cell_at tas env i j))
                 (cos_weight lats))).
Proof.
  intros Hgrid Hcells.
  destruct (global_mean_value ds lats tas outer env Hgrid Hcells)
    as (gmst & Hrun & Hdims & Hval).
  exists gmst. split; [exact Hrun|]. split; [exact Hdims|].
  split; [exact Hval|].
  intros Hden. rewrite Hval, (vdiv_nums _ _ Hden). reflexivity.
Qed.

Lemma global_mean_is_cosine_weighted_mean_witness :
  exists gmst,
    global_mean (sample_three_lats sample_gradient) = Ok gmst
    /\ keys (da_dims gmst) = ["time"%string]
    /\ da_at gmst (fun _ => 0) = Num 281.
Proof.
  destruct (global_mean_is_cosine_weighted_mean
              (sample_three_lats sample_gradient) three_lats
              (sample_three_lats_tas sample_gradient) ["time"%string]
              (fun _ => 0))
    as (gmst & Hrun & Hdims & _ & Hval).
  - apply sample_three_lats_is_gridded.
  - intros i j _ _. exact I.
  - exists gmst. split; [exact Hrun|]. split; [exact Hdims|].
    change (dim_size (sample_three_lats sample_gradient) "lat") with 3 in Hval.
    change (dim_size (sample_three_lats sample_gradient) "lon") with 2 in Hval.
    rewrite Hval by (rewrite three_lats_weight_sum; lra).
    f_equal. unfold weighted_mean. rewrite three_lats_weight_sum.
    unfold grid_sum, Rsum, cell_at, sample_gradient. simpl.
    destruct (cos_weight_three_lats 0) as (H0 & H1 & H2).
    destruct (cos_weight_three_lats 1) as (H0' & H1' & H2').
    rewrite H0, H1, H2, H0', H1', H2'. lra.
Defined.

(** C4, as the cell behaves.  In exact arithmetic, on a gridded field
    whose cells all hold the same number [v], with weights that do not sum
    to zero, the aggregator returns [v] at every position, whatever the
    latitudes and the numbers of latitudes and longitudes. *)
Theorem uniform_field_has_mean_v
  (ds : Dataset) (lats : nat -> R) (tas : Var) (outer : list string) (v : R) :
  is_gridded ds lats tas outer ->
  (forall env i j, i < dim_size ds "lat" -> j < dim_size ds "lon" ->
                   cell_at tas env i j = Num v) ->
  grid_sum (dim_size ds "lat") (dim_size ds "lon") (cos_weight lats) <> 0%R ->
  exists gmst,
    global_mean ds = Ok gmst
    /\ forall env, da_at gmst env = Num v.
Proof.
  intros Hgrid Hcells Hden.
  destruct (global_mean_value ds lats tas outer (fun _ => 0) Hgrid)
    as (gmst & Hrun & _ & _).
  { intros i j Hi Hj. now rewrite (Hcells _ i j Hi Hj). }
  exists gmst. split; [exact Hrun|]. intros env.
  destruct (global_mean_value ds lats tas outer env Hgrid)
    as (gmst' & Hrun' & _ & Hval).
  { intros i j Hi Hj. now rewrite (Hcells _ i j Hi Hj). }
  assert (Heq : gmst' = gmst) by congruence. subst gmst'.
  rewrite Hval, (vdiv_nums _ _ Hden). f_equal.
  rewrite (grid_sum_ext _ _ _ (fun i j => v * cos_weight lats i j)%R).
  - rewrite grid_sum_scale. field. exact Hden.
  - intros i j Hi Hj. now rewrite (Hcells _ i j Hi Hj).
Qed.

Lemma uniform_field_has_mean_v_witness :
  exists gmst,
    global_mean (sample_three_lats (fun _ => Num (5753 / 20))) = Ok gmst
    /\ forall env, da_at gmst env = Num (5753 / 20).
Proof.
  apply (uniform_field_has_mean_v
           (sample_three_lats (fun _ => Num (5753 / 20))) three_lats
           (sample_three_lats_tas (fun _ => Num (5753 / 20)))
           ["time"%string] (5753 / 20)%R).
  - apply sample_three_lats_is_gridded.
  - reflexivity.
  - change (grid_sum 3 2 (cos_weight three_lats) <> 0%R).
    rewrite three_lats_weight_sum. lra.
Defined.

(** C4, as it is stated, fails on the doubles of the notebook: on the
    equator, where the weight is 1, with three longitudes, the field that
    holds 0.1 in every cell has the sum 0.30000000000000004 and the mean
    0.10000000000000002, which is above 0.1. *)
Lemma uniform_field_counterexample :
  PrimFloat.eqb
    (Double.gmst_step [PrimFloat.one]
       [[Double.tenth; Double.tenth; Double.tenth]])
    Double.tenth = false
  /\ PrimFloat.ltb Double.tenth
       (Double.gmst_step [PrimFloat.one]
          [[Double.tenth; Double.tenth; Double.tenth]]) = true.
Proof. split; vm_compute; reflexivity. Qed.

(** C7, as the cell behaves.  At a time step whose cells are all missing,
    with weights that do not sum to zero, the aggregator returns the
    number zero: the sum skips the missing cells and the sum of none is
    zero, which the division by the sum of the weights leaves at zero. *)
Theorem missing_step_has_mean_zero
  (ds : Dataset) (lats : nat -> R) (tas : Var) (outer : list string)
  (env : Index) :
  is_gridded ds lats tas outer ->
  (forall i j, i < dim_size ds "lat" -> j < dim_size ds "lon" ->
               cell_at tas env i j = NaN) ->
  grid_sum (dim_size ds "lat") (dim_size ds "lon") (cos_weight lats) <> 0%R ->
  exists gmst,
    global_mean ds = Ok gmst
    /\ da_at gmst env = Num 0.
Proof.
  intros Hgrid Hcells Hden.
  destruct (global_mean_value ds lats tas outer env Hgrid)
    as (gmst & Hrun & _ & Hval).
  { intros i j Hi Hj. now rewrite (Hcells i j Hi Hj). }
  exists gmst. split; [exact Hrun|].
  rewrite Hval, (vdiv_nums _ _ Hden). f_equal.
  rewrite (grid_sum_ext _ _ _ (fun i j => 0 * cos_weight lats i j)%R).
  - rewrite grid_sum_scale. field. exact Hden.
  - intros i j Hi Hj. now rewrite (Hcells i j Hi Hj).
Qed.

Lemma missing_step_has_mean_zero_witness :
  exists gmst,
    global_mean (sample_field NaN) = Ok gmst
    /\ da_at gmst (fun _ => 0) = Num 0.
Proof.
  apply (missing_step_has_mean_zero
           (sample_field NaN) (fun _ => 0%R)
           (sample_tas "lat" "lon" NaN) ["time"%string] (fun _ => 0)).
  - apply sample_is_gridded.
  - reflexivity.
  - change (grid_sum 1 2 (cos_weight (fun _ => 0%R)) <> 0%R).
    rewrite sample_weight_sum. lra.
Defined.

(** C7, as it is stated, fails: on the equator, with two longitudes, every
    cell of every time step is missing, and the aggregator returns the
    number zero at every step, not the missing value. *)
Lemma missing_step_counterexample :
  (forall env i j, cell_at (sample_tas "lat" "lon" NaN) env i j = NaN)
  /\ exists gmst,
       global_mean (sample_field NaN) = Ok gmst
       /\ forall env, da_at gmst env = Num 0 /\ isnan (da_at gmst env) = false.
Proof.
  split; [reflexivity|].
  destruct (global_mean_value (sample_field NaN) (fun _ => 0%R)
              (sample_tas "lat" "lon" NaN) ["time"%string] (fun _ => 0)
              (sample_is_gridded NaN))
    as (gmst & Hrun & _ & _).
  { intros i j _ _. exact I. }
  exists gmst. split; [exact Hrun|]. intros env.
  destruct (global_mean_value (sample_field NaN) (fun _ => 0%R)
              (sample_tas "lat" "lon" NaN) ["time"%string] env
              (sample_is_gridded NaN))
    as (gmst' & Hrun' & _ & Hval).
  { intros i j _ _. exact I. }
  assert (Heq : gmst' = gmst) by congruence. subst gmst'.
  assert (Hzero : da_at gmst env = Num 0).
  { rewrite Hval.
    change (dim_size (sample_field NaN) "lat") with 1.
    change (dim_size (sample_field NaN) "lon") with 2.
    rewrite sample_weight_sum, vdiv_nums by lra. f_equal.
    unfold grid_sum, Rsum, cell_at. simpl. lra. }
  split; [exact Hzero|]. now rewrite Hzero.
Qed.


(* ===================================================================== *)
(** * Part III: further properties of the cells                           *)
(* ===================================================================== *)

(** ** Strings *)

Lemma startswith_spec (p s : string) :
  startswith p s = true <-> exists post, s = (p ++ post)%string.
Proof.
  revert s. induction p as [|a p IH]; intros s; simpl.
  - split; [intros _; now exists s|reflexivity].
  - destruct s as [|b s].
    + split; [discriminate|]. intros [post H]. discriminate.
    + rewrite andb_true_iff, Ascii.eqb_eq, IH. split.
      * intros [-> [post ->]]. now exists post.
      * intros [post H]. inversion H. split; [reflexivity|now exists post].
Qed.

Lemma str_in_spec (sub s : string) :
  str_in sub s = true <-> exists pre post, s = (pre ++ sub ++ post)%string.
Proof.
  induction s as [|c s IH].
  - cbn [str_in]. rewrite orb_false_r, startswith_spec. split.
    + intros [post H]. now exists ""%string, post.
    + intros [[|c pre] [post H]]; [now exists post|discriminate].
  - cbn [str_in]. rewrite orb_true_iff, startswith_spec, IH. split.
    + intros [[post H]|[pre [post H]]].
      * now exists ""%string, post.
      * exists (String c pre), post. simpl. now rewrite H.
    + intros [[|c' pre] [post H]].
      * left. now exists post.
      * right. simpl in H. inversion H. now exists pre, post.
Qed.

Lemma str_in_empty (s : string) : str_in "" s = true.
Proof. destruct s; reflexivity. Qed.

(** X1. A key matches a model name when it holds the name anywhere, and
    the label [historical] anywhere: the test is on substrings, not on the
    fields of the key. *)
Theorem is_match_spec (model_name hist_name : string) :
  is_match model_name hist_name = true <->
  (exists pre post, hist_name = (pre ++ model_name ++ post)%string)
  /\ (exists pre post, hist_name = (pre ++ "historical" ++ post)%string).
Proof.
  unfold is_match. now rewrite andb_true_iff, !str_in_spec.
Qed.

Lemma is_match_spec_witness :
  is_match "CESM2" "CMIP.NCAR.CESM2-WACCM.historical.Amon.gn" = true.
Proof.
  apply (proj2 (is_match_spec "CESM2" "CMIP.NCAR.CESM2-WACCM.historical.Amon.gn")).
  split.
  - now exists "CMIP.NCAR."%string, "-WACCM.historical.Amon.gn"%string.
  - now exists "CMIP.NCAR.CESM2-WACCM."%string, ".Amon.gn"%string.
Defined.

Lemma str_split_length (sep : ascii) (s : string) :
  List.length (str_split sep s) = S (count_char sep s).
Proof.
  induction s as [|c s IH]; [reflexivity|].
  cbn [str_split count_char]. destruct (Ascii.eqb c sep).
  - cbn [List.length]. now rewrite IH.
  - destruct (str_split sep s) as [|field fields]; [discriminate|].
    cbn [List.length] in *. exact IH.
Qed.

Lemma str_split_fields (sep : ascii) (s field : string) :
  In field (str_split sep s) -> count_char sep field = 0.
Proof.
  revert field. induction s as [|c s IH]; intros field.
  - intros [<-|[]]. reflexivity.
  - cbn [str_split]. destruct (Ascii.eqb c sep) eqn:Hc.
    + intros [<-|Hin]; [reflexivity|now apply IH].
    + destruct (str_split sep s) as [|f fields].
      * intros [<-|[]]. cbn [count_char]. now rewrite Hc.
      * intros [<-|Hin].
        -- cbn [count_char]. rewrite Hc. apply IH. now left.
        -- apply IH. now right.
Qed.

(** X2. The model name of a key is extracted exactly when the key holds
    at least two dots, and it holds no dot itself; with fewer dots the
    extraction raises [IndexError]. *)
Theorem model_name_of_dots (name : string) :
  (2 <= count_char "."%char name ->
   exists model_name, model_name_of name = Ok model_name
                      /\ count_char "."%char model_name = 0)
  /\ (count_char "."%char name < 2 -> model_name_of name = Raise IndexError).
Proof.
  split.
  - intros Hdots. unfold model_name_of, list_index.
    destruct (nth_error (str_split "."%char name) 2) as [m|] eqn:Hnth.
    + exists m. split; [reflexivity|].
      apply nth_error_In in Hnth. eapply str_split_fields; eauto.
    + apply nth_error_None in Hnth. rewrite str_split_length in Hnth. lia.
  - intros Hdots. apply model_name_of_short. rewrite str_split_length. lia.
Qed.

Lemma model_name_of_dots_witness :
  (exists model_name,
      model_name_of "ScenarioMIP.NCAR.CESM2.ssp585.Amon.gn" = Ok model_name
      /\ count_char "."%char model_name = 0)
  /\ model_name_of "ssp585.CESM2" = Raise IndexError.
Proof.
  split.
  - apply (proj1 (model_name_of_dots "ScenarioMIP.NCAR.CESM2.ssp585.Amon.gn")).
    vm_compute. lia.
  - apply (proj2 (model_name_of_dots "ssp585.CESM2")). vm_compute. lia.
Defined.

(** ** The splicer: what is stored, and in which order *)

Lemma keys_dict_set_new (A : Type) (d : dict A) (k : string) (a : A) :
  ~ In k (keys d) -> keys (dict_set d k a) = keys d ++ [k].
Proof.
  induction d as [|[k' a'] d IH]; intros Hk; simpl; [reflexivity|].
  destruct (String.eqb_spec k' k) as [->|Hne].
  - exfalso. apply Hk. now left.
  - simpl. f_equal. apply IH. intros Hin. apply Hk. now right.
Qed.

Lemma dict_get_in_keys (A : Type) (d : dict A) (k : string) :
  In k (keys d) -> exists a, dict_get d k = Some a.
Proof.
  induction d as [|[k' a'] d IH]; simpl; [contradiction|].
  intros Hin. destruct (String.eqb_spec k' k) as [->|Hne]; [eauto|].
  apply IH. destruct Hin; [contradiction|assumption].
Qed.

Section SplicerOrder.

Variable A : Type.
Variable xr_concat : A -> A -> A.

Lemma find_hist_exists (name m : string) (items : dict A) (acc r : option A) :
  model_name_of name = Ok m ->
  find_hist name items acc = Ok r ->
  (existsb (fun p => is_match m (fst p)) items = true /\ exists h, r = Some h)
  \/ (existsb (fun p => is_match m (fst p)) items = false /\ r = acc).
Proof.
  intros Hm. revert acc.
  induction items as [|[hn h] items IH]; intros acc; simpl.
  - intros Heq. inversion Heq. now right.
  - rewrite Hm. simpl. destruct (is_match m hn); simpl.
    + intros Hrun. left. split; [reflexivity|].
      destruct (IH _ Hrun) as [[_ Hex]|[_ ->]]; eauto.
    + apply IH.
Qed.

Lemma find_hist_has_match (name : string) (d : dict A) (r : option A) :
  find_hist name d None = Ok r ->
  (has_match d name = true /\ exists h, r = Some h)
  \/ (has_match d name = false /\ r = None).
Proof.
  unfold has_match. destruct (model_name_of name) as [m|e] eqn:Hm.
  - now apply find_hist_exists.
  - destruct d as [|[hn h] d]; simpl.
    + intros Heq. inversion Heq. now right.
    + rewrite Hm. discriminate.
Qed.

Lemma splice_loop_keys (d items out0 out : dict A) :
  NoDup (keys items) ->
  (forall k, In k (keys items) -> ~ In k (keys out0)) ->
  splice_loop xr_concat d items out0 = Finished out ->
  keys out = keys out0 ++ spliced_keys d (keys items).
Proof.
  revert out0. induction items as [|[k g] items IH];
    intros out0 Hnd Hfresh Hrun; simpl in Hrun.
  - inversion Hrun. simpl. now rewrite app_nil_r.
  - inversion Hnd as [|? ? Hk Hnd']; subst.
    assert (Hfresh' : forall k', In k' (keys items) -> ~ In k' (keys out0)).
    { intros k' Hin. apply Hfresh. now right. }
    unfold spliced_keys. cbn [keys map fst filter].
    fold (keys items). fold (spliced_keys d (keys items)).
    destruct (str_in "ssp" k); simpl in Hrun |- *; [|now apply IH].
    destruct (find_hist k d None) as [r|e] eqn:Hf; [|discriminate].
    destruct (find_hist_has_match _ _ _ Hf) as [[Hyes [h ->]]|[Hno ->]].
    + rewrite Hyes.
      assert (Hset : keys (dict_set out0 k (xr_concat h g)) = keys out0 ++ [k]).
      { apply keys_dict_set_new. apply Hfresh. now left. }
      rewrite (IH (dict_set out0 k (xr_concat h g)) Hnd').
      * rewrite Hset. now rewrite <- app_assoc.
      * intros k' Hin. rewrite Hset.
        intros Hin'. apply in_app_or in Hin'. destruct Hin' as [Hin'|[->|[]]].
        -- now apply (Hfresh' k').
        -- contradiction.
      * exact Hrun.
    + rewrite Hno. now apply IH.
Qed.

Lemma splice_loop_app (d l1 l2 out0 : dict A) :
  splice_loop xr_concat d (l1 ++ l2) out0
  = match splice_loop xr_concat d l1 out0 with
    | Finished out => splice_loop xr_concat d l2 out
    | Aborted e out => Aborted e out
    end.
Proof.
  revert out0. induction l1 as [|[k g] l1 IH]; intros out0; simpl;
    [reflexivity|].
  destruct (str_in "ssp" k); simpl; [|apply IH].
  destruct (find_hist k d None) as [[h|]|e]; [apply IH|apply IH|reflexivity].
Qed.

(** X3. When the splicer finishes, the keys of its output are, in the
    order of the input, the keys that hold the scenario marker and whose
    model name is found in a key labelled [historical]; none comes twice. *)
Theorem splice_keys_in_input_order (d out : dict A) :
  NoDup (keys d) ->
  splice xr_concat d = Finished out ->
  keys out = spliced_keys d (keys d) /\ NoDup (keys out).
Proof.
  intros Hnd Hrun.
  assert (Hk : keys out = spliced_keys d (keys d)).
  { apply (splice_loop_keys d d [] out Hnd); auto. }
  split; [exact Hk|]. rewrite Hk. unfold spliced_keys. now apply NoDup_filter.
Qed.

(** X4. A scenario key with fewer than three fields stops the splicer:
    what is stored then is what the runs before that key gave, and nothing
    is stored for that key or for any run after it, whatever their keys. *)
Theorem splice_stops_at_short_key (d pre post : dict A) (name : string) (g : A) :
  NoDup (keys d) ->
  d = pre ++ (name, g) :: post ->
  (forall k, In k (keys pre) -> str_in "ssp" k = true ->
             3 <= List.length (str_split "."%char k)) ->
  str_in "ssp" name = true ->
  List.length (str_split "."%char name) < 3 ->
  exists out,
    splice xr_concat d = Aborted IndexError out
    /\ keys out = spliced_keys d (keys pre)
    /\ forall k, In k (name :: keys post) -> dict_get out k = None.
Proof.
  intros Hnd Hd Hlong Hssp Hshort.
  assert (Hne : d <> []) by (rewrite Hd; now destruct pre).
  assert (Hkeys : keys d = keys pre ++ name :: keys post).
  { rewrite Hd. unfold keys. now rewrite map_app. }
  destruct (splice_loop_finishes A xr_concat d pre [] Hlong) as [out Hpre].
  exists out. split; [|split].
  - unfold splice. rewrite Hd at 2. rewrite splice_loop_app, Hpre.
    simpl. rewrite Hssp. simpl.
    now rewrite (find_hist_short A name d None Hshort Hne).
  - apply (splice_loop_keys d pre [] out); auto.
    rewrite Hkeys in Hnd. now apply NoDup_app_remove_r in Hnd.
  - intros k Hk. apply dict_get_None. intros Hin.
    rewrite (splice_loop_keys d pre [] out) in Hin; auto.
    + simpl in Hin. unfold spliced_keys in Hin. apply filter_In in Hin.
      rewrite Hkeys in Hnd.
      now apply (NoDup_app_disjoint _ _ _ k Hnd (proj1 Hin)).
    + rewrite Hkeys in Hnd. now apply NoDup_app_remove_r in Hnd.
Qed.

(** X5. A scenario key whose third field is empty matches every key
    labelled [historical]: the series of the last such key of the
    dictionary is the one spliced, whatever its model. *)
Theorem empty_model_name_matches_any_historical
  (d pre post : dict A) (name hist_name : string) (gmst h : A) :
  NoDup (keys d) ->
  (forall k, In k (keys d) -> str_in "ssp" k = true ->
             3 <= List.length (str_split "."%char k)) ->
  In (name, gmst) d ->
  str_in "ssp" name = true ->
  nth_error (str_split "."%char name) 2 = Some ""%string ->
  d = pre ++ (hist_name, h) :: post ->
  str_in "historical" hist_name = true ->
  (forall p, In p post -> str_in "historical" (fst p) = false) ->
  exists out,
    splice xr_concat d = Finished out
    /\ dict_get out name = Some (xr_concat h gmst).
Proof.
  intros Hnd Hlong Hin Hssp Hnth Hd Hhist Hpost.
  destruct (splice_loop_finishes A xr_concat d d [] Hlong) as [out Hrun].
  exists out. split; [exact Hrun|].
  rewrite (splice_loop_get A xr_concat d d [] out name gmst (Some h)
             Hnd Hrun Hin Hssp); [reflexivity|].
  rewrite Hd at 1. apply find_hist_last_match with (m := ""%string).
  - unfold model_name_of, list_index. now rewrite Hnth.
  - unfold is_match. now rewrite str_in_empty, Hhist.
  - intros p Hp. unfold is_match. now rewrite str_in_empty, (Hpost p Hp).
Qed.

(** X6. The warming-pattern cell takes the entry of the first key of the
    spliced dictionary: it is the entry of the first key of the input, in
    order, that the splicer stores, and the cell stops with [IndexError]
    when the splicer stored nothing. *)
Theorem first_value_of_spliced (d out : dict A) :
  NoDup (keys d) ->
  splice xr_concat d = Finished out ->
  (spliced_keys d (keys d) = [] -> first_value out = Raise IndexError)
  /\ (forall k ks, spliced_keys d (keys d) = k :: ks ->
        exists v, first_value out = Ok v /\ dict_get out k = Some v).
Proof.
  intros Hnd Hrun.
  assert (Hk : keys out = spliced_keys d (keys d)).
  { apply (splice_loop_keys d d [] out Hnd); auto. }
  unfold first_value, list_index. rewrite Hk. split.
  - intros ->. reflexivity.
  - intros k ks Hks. rewrite Hks. simpl.
    destruct (dict_get_in_keys A out k) as [v Hv].
    { rewrite Hk, Hks. now left. }
    rewrite Hv. eauto.
Qed.

End SplicerOrder.

(** Closes the goals on the keys of a dictionary given in full. *)
Ltac sample_keys :=
  match goal with
  | |- NoDup _ => repeat constructor; simpl; intuition discriminate
  | |- forall k, In k _ -> _ -> _ <= _ =>
      let k := fresh "k" in
      let Hk := fresh "Hk" in
      let Hs := fresh "Hs" in
      intros k Hk Hs; simpl in Hk;
      repeat (destruct Hk as [<-|Hk];
              [first [vm_compute; lia | discriminate Hs]|]);
      contradiction
  end.

Lemma splice_keys_in_input_order_witness :
  keys [("ScenarioMIP.NCAR.CESM2.ssp585.Amon.gn"%string,
         concat_time [(22200%Z, Num 288)] [(24180%Z, Num 289)])]
  = spliced_keys sample_gmst_dict (keys sample_gmst_dict)
  /\ NoDup (keys [("ScenarioMIP.NCAR.CESM2.ssp585.Amon.gn"%string,
                   concat_time [(22200%Z, Num 288)] [(24180%Z, Num 289)])]).
Proof.
  apply (splice_keys_in_input_order Series concat_time sample_gmst_dict).
  - sample_keys.
  - reflexivity.
Defined.

Lemma splice_stops_at_short_key_witness :
  exists out,
    splice concat_time stopping_dict = Aborted IndexError out
    /\ keys out = ["ScenarioMIP.NCAR.CESM2.ssp585.Amon.gn"%string]
    /\ dict_get out "ScenarioMIP.NCAR.CESM2.ssp245.Amon.gn" = None.
Proof.
  destruct (splice_stops_at_short_key Series concat_time stopping_dict
              [("CMIP.NCAR.CESM2.historical.Amon.gn"%string, [(22200%Z, Num 287)]);
               ("ScenarioMIP.NCAR.CESM2.ssp585.Amon.gn"%string, [(24180%Z, Num 289)])]
              [("ScenarioMIP.NCAR.CESM2.ssp245.Amon.gn"%string, [(24180%Z, Num 288)])]
              "ssp585.CESM2" [(24180%Z, Num 290)])
    as (out & Hrun & Hkeys & Hnone).
  - sample_keys.
  - reflexivity.
  - sample_keys.
  - reflexivity.
  - vm_compute. lia.
  - exists out. split; [exact Hrun|]. split; [exact Hkeys|].
    apply Hnone. simpl. tauto.
Defined.

Lemma empty_model_name_matches_any_historical_witness :
  exists out,
    splice concat_time empty_field_dict = Finished out
    /\ dict_get out "ScenarioMIP.NCAR..ssp585.Amon.gn"
       = Some (concat_time [(22200%Z, Num 287)] [(24180%Z, Num 289)]).
Proof.
  apply (empty_model_name_matches_any_historical Series concat_time
           empty_field_dict []
           [("ScenarioMIP.NCAR..ssp585.Amon.gn"%string, [(24180%Z, Num 289)])]
           "ScenarioMIP.NCAR..ssp585.Amon.gn"
           "CMIP.MIROC.MIROC6.historical.Amon.gn").
  - sample_keys.
  - sample_keys.
  - simpl. tauto.
  - reflexivity.
  - reflexivity.
  - reflexivity.
  - reflexivity.
  - intros p [<-|[]]. reflexivity.
Defined.

Lemma first_value_of_spliced_witness :
  exists v,
    first_value [("ScenarioMIP.NCAR.CESM2.ssp585.Amon.gn"%string,
                  concat_time [(22200%Z, Num 288)] [(24180%Z, Num 289)])]
    = Ok v.
Proof.
  destruct (proj2 (first_value_of_spliced Series concat_time sample_gmst_dict
              [("ScenarioMIP.NCAR.CESM2.ssp585.Amon.gn"%string,
                concat_time [(22200%Z, Num 288)] [(24180%Z, Num 289)])]
              ltac:(sample_keys) eq_refl)
              "ScenarioMIP.NCAR.CESM2.ssp585.Amon.gn"%string [] eq_refl)
    as (v & Hv & _).
  exists v. exact Hv.
Defined.

(** ** The loading cell: the loop over the runs *)

Lemma load_loop_app (l1 l2 : dict Dataset) (acc : dict Dataset * dict DataArray) :
  load_loop (l1 ++ l2) acc
  = match load_loop l1 acc with
    | Finished acc' => load_loop l2 acc'
    | Aborted e acc' => Aborted e acc'
    end.
Proof.
  revert acc. induction l1 as [|[name ds] l1 IH]; intros acc; simpl;
    [reflexivity|].
  destruct (process_run ds) as [[ds' g]|e]; [apply IH|reflexivity].
Qed.

Lemma load_loop_finishes (items : dict Dataset)
  (acc : dict Dataset * dict DataArray) :
  (forall name ds, In (name, ds) items -> exists r, process_run ds = Ok r) ->
  exists acc', load_loop items acc = Finished acc'.
Proof.
  revert acc. induction items as [|[name ds] items IH]; intros acc Hok; simpl.
  - eauto.
  - destruct (Hok name ds (or_introl eq_refl)) as [[ds' g] Hr]. rewrite Hr.
    apply IH. intros n d Hin. apply (Hok n d). now right.
Qed.

Lemma load_loop_keys (items : dict Dataset)
  (acc acc' : dict Dataset * dict DataArray) :
  NoDup (keys items) ->
  (forall k, In k (keys items) ->
             ~ In k (keys (fst acc)) /\ ~ In k (keys (snd acc))) ->
  load_loop items acc = Finished acc' ->
  keys (fst acc') = keys (fst acc) ++ keys items
  /\ keys (snd acc') = keys (snd acc) ++ keys items.
Proof.
  revert acc. induction items as [|[name ds] items IH];
    intros acc Hnd Hfresh Hrun; simpl in Hrun.
  - inversion Hrun. simpl. now rewrite !app_nil_r.
  - inversion Hnd as [|? ? Hname Hnd']; subst.
    destruct (process_run ds) as [[ds' g]|e]; [|discriminate].
    destruct (Hfresh name (or_introl eq_refl)) as [Hf1 Hf2].
    apply IH in Hrun; auto.
    + cbn [fst snd] in Hrun. rewrite !keys_dict_set_new in Hrun by assumption.
      cbn [keys map fst]. fold (keys items).
      now rewrite <- !app_assoc in Hrun.
    + intros k Hin. cbn [fst snd].
      rewrite !keys_dict_set_new by assumption.
      destruct (Hfresh k (or_intror Hin)) as [Hk1 Hk2].
      split; intros Hin'; apply in_app_or in Hin';
        destruct Hin' as [Hin'|[->|[]]]; contradiction.
Qed.

Lemma load_loop_frame (items : dict Dataset)
  (acc acc' : dict Dataset * dict DataArray) (k : string) :
  load_loop items acc = Finished acc' ->
  ~ In k (keys items) ->
  dict_get (fst acc') k = dict_get (fst acc) k
  /\ dict_get (snd acc') k = dict_get (snd acc) k.
Proof.
  revert acc. induction items as [|[name ds] items IH];
    intros acc Hrun Hk; simpl in Hrun.
  - inversion Hrun. now split.
  - destruct (process_run ds) as [[ds' g]|e]; [|discriminate].
    assert (Hne : name <> k) by (intros ->; apply Hk; now left).
    apply IH in Hrun; [|intros Hin; apply Hk; now right].
    cbn [fst snd] in Hrun.
    now rewrite !dict_get_set_other in Hrun by assumption.
Qed.

Lemma load_loop_get (items : dict Dataset)
  (acc acc' : dict Dataset * dict DataArray) (name : string) (ds : Dataset) :
  NoDup (keys items) ->
  load_loop items acc = Finished acc' ->
  In (name, ds) items ->
  exists ds' g,
    process_run ds = Ok (ds', g)
    /\ dict_get (fst acc') name = Some ds'
    /\ dict_get (snd acc') name = Some g.
Proof.
  revert acc. induction items as [|[n d] items IH];
    intros acc Hnd Hrun Hin; simpl in Hrun; [contradiction|].
  inversion Hnd as [|? ? Hfresh Hnd']; subst.
  destruct (process_run d) as [[ds' g]|e] eqn:Hr; [|discriminate].
  destruct Hin as [Heq|Hin].
  - inversion Heq; subst. exists ds', g. split; [exact Hr|].
    destruct (load_loop_frame _ _ _ name Hrun Hfresh) as [H1 H2].
    cbn [fst snd] in H1, H2. now rewrite H1, H2, !dict_get_set_same.
  - now apply (IH _ Hnd' Hrun).
Qed.

(** X7. When every run is processed without an error, the loading loop
    finishes with two dictionaries on the keys of the input, in the same
    order, that hold for each run the normalised dataset and the squeezed
    series of that run. *)
Theorem load_loop_stores_every_run (items : dict Dataset) :
  NoDup (keys items) ->
  (forall name ds, In (name, ds) items -> exists r, process_run ds = Ok r) ->
  exists ds_dict gmst_dict,
    load_loop items ([], []) = Finished (ds_dict, gmst_dict)
    /\ keys ds_dict = keys items
    /\ keys gmst_dict = keys items
    /\ forall name ds, In (name, ds) items ->
         exists ds' gmst,
           process_run ds = Ok (ds', gmst)
           /\ dict_get ds_dict name = Some ds'
           /\ dict_get gmst_dict name = Some gmst.
Proof.
  intros Hnd Hok.
  destruct (load_loop_finishes items ([], []) Hok) as [[dd gd] Hrun].
  exists dd, gd. split; [exact Hrun|].
  destruct (load_loop_keys items ([], []) (dd, gd) Hnd) as [H1 H2]; auto.
  repeat split; auto.
  intros name ds Hin.
  apply (load_loop_get items ([], []) (dd, gd) name ds Hnd Hrun Hin).
Qed.

Lemma load_loop_stores_every_run_witness :
  exists ds_dict gmst_dict,
    load_loop [("CMIP.NCAR.CESM2.historical.Amon.gn"%string,
                sample_dataset "lat" "lon" (Num 287));
               ("ScenarioMIP.NCAR.CESM2.ssp585.Amon.gn"%string,
                sample_dataset "latitude" "longitude" (Num 289))] ([], [])
    = Finished (ds_dict, gmst_dict)
    /\ keys gmst_dict = ["CMIP.NCAR.CESM2.historical.Amon.gn";
                         "ScenarioMIP.NCAR.CESM2.ssp585.Amon.gn"]%string.
Proof.
  destruct (load_loop_stores_every_run
              [("CMIP.NCAR.CESM2.historical.Amon.gn"%string,
                sample_dataset "lat" "lon" (Num 287));
               ("ScenarioMIP.NCAR.CESM2.ssp585.Amon.gn"%string,
                sample_dataset "latitude" "longitude" (Num 289))])
    as (dd & gd & Hrun & _ & Hk & _).
  - sample_keys.
  - intros name ds [Heq|[Heq|[]]]; inversion Heq; subst;
      eexists; reflexivity.
  - exists dd, gd. split; [exact Hrun|exact Hk].
Defined.

(** X8. The first run whose processing raises stops the loading loop
    with that exception: the two dictionaries then hold the runs before it
    and nothing of the runs after it. *)
Theorem load_loop_stops_at_failing_run
  (items pre post : dict Dataset) (name : string) (ds : Dataset) (e : exn) :
  NoDup (keys pre) ->
  items = pre ++ (name, ds) :: post ->
  (forall n d, In (n, d) pre -> exists r, process_run d = Ok r) ->
  process_run ds = Raise e ->
  exists ds_dict gmst_dict,
    load_loop items ([], []) = Aborted e (ds_dict, gmst_dict)
    /\ keys ds_dict = keys pre
    /\ keys gmst_dict = keys pre.
Proof.
  intros Hnd -> Hok Hraise.
  destruct (load_loop_finishes pre ([], []) Hok) as [[dd gd] Hrun].
  exists dd, gd. split.
  - rewrite load_loop_app, Hrun. simpl. now rewrite Hraise.
  - destruct (load_loop_keys pre ([], []) (dd, gd) Hnd) as [H1 H2]; auto.
Qed.

Lemma load_loop_stops_at_failing_run_witness :
  exists ds_dict gmst_dict,
    load_loop sample_dset_dict ([], [])
    = Aborted (KeyError "lat") (ds_dict, gmst_dict)
    /\ keys ds_dict = ["CMIP.NCAR.CESM2.historical.Amon.gn"%string]
    /\ keys gmst_dict = ["CMIP.NCAR.CESM2.historical.Amon.gn"%string].
Proof.
  apply (load_loop_stops_at_failing_run sample_dset_dict
           [("CMIP.NCAR.CESM2.historical.Amon.gn"%string,
             sample_dataset "lat" "lon" (Num 287))]
           [("ScenarioMIP.NCAR.CESM2.ssp585.Amon.gn"%string,
             sample_dataset "latitude" "longitude" (Num 289))]
           "CMIP.X.Y.historical.Amon.gn" (sample_dataset "y" "x" (Num 280))).
  - sample_keys.
  - reflexivity.
  - intros n d [Heq|[]]. inversion Heq; subst. eexists. reflexivity.
  - reflexivity.
Defined.

(** ** The loading cell: what normalisation keeps *)

Lemma has_dup_false_NoDup (l : list string) : has_dup l = false -> NoDup l.
Proof.
  induction l as [|x l IH]; simpl; [constructor|].
  intros H. apply orb_false_iff in H. destruct H as [Hx Hl].
  constructor; [now apply mem_not_In|now apply IH].
Qed.

(** X9. Normalisation drops coordinates only: the data variables of the
    result bear the names of the data variables of the input, in order,
    under their new names when the dimensions were renamed. *)
Theorem normalize_keeps_data_variables (ds ds' : Dataset) :
  unique_names ds ->
  normalize ds = Ok ds' ->
  (~ has_both ds "latitude" "longitude" ->
   keys (data_vars ds') = keys (data_vars ds))
  /\ (has_both ds "latitude" "longitude" ->
      keys (data_vars ds')
      = map (rename_name spatial_names) (keys (data_vars ds))).
Proof.
  intros Hu Hrun. split.
  - intros Hno. rewrite (normalize_without_rename ds Hno) in Hrun.
    now apply window_and_drop_data_vars.
  - intros Hboth. rewrite (normalize_with_rename ds Hboth) in Hrun.
    unfold rename in Hrun. destruct (negb _); [discriminate|].
    destruct (has_dup _) eqn:Hdup; [discriminate|]. cbn [bind] in Hrun.
    apply window_and_drop_data_vars in Hrun.
    + rewrite Hrun. unfold renamed. cbn [data_vars].
      apply keys_rename_entry.
    + unfold unique_names. rewrite var_names_renamed.
      now apply has_dup_false_NoDup.
Qed.

Lemma normalize_keeps_data_variables_witness :
  exists ds',
    normalize (sample_dataset "latitude" "longitude" (Num 280)) = Ok ds'
    /\ keys (data_vars ds') = ["tas"%string].
Proof.
  assert (Hrun : exists ds',
            normalize (sample_dataset "latitude" "longitude" (Num 280)) = Ok ds')
    by (eexists; reflexivity).
  destruct Hrun as [ds' Hrun]. exists ds'. split; [exact Hrun|].
  apply (proj2 (normalize_keeps_data_variables
                  (sample_dataset "latitude" "longitude" (Num 280)) ds'
                  ltac:(names) Hrun)).
  names.
Defined.

(** X10. After the normalisation of a dataset whose time coordinate is in
    chronological order, the time dimension has as many positions as the
    time coordinate has steps: the steps of the input inside the window,
    be there none. *)
Theorem normalize_time_dimension (ds ds' : Dataset) (ts : list timestamp) :
  time ds = Some ts ->
  ascending ts = true ->
  In "time"%string (dim_names ds) ->
  normalize ds = Ok ds' ->
  time ds' = Some (filter (in_slice time_slice) ts)
  /\ dim_size ds' "time" = List.length (filter (in_slice time_slice) ts).
Proof.
  intros Ht Ha Hdim Hrun.
  assert (Htail : forall ds1,
    time ds1 = Some ts -> In "time"%string (dim_names ds1) ->
    (ds0 <- sel_time ds1 time_slice ;; drop_coords (coord_names ds0) ds0) = Ok ds' ->
    time ds' = Some (filter (in_slice time_slice) ts)
    /\ dim_size ds' "time" = List.length (filter (in_slice time_slice) ts)).
  { intros ds1 Ht1 Hd1. rewrite (sel_time_selected _ _ _ Ht1 Ha). cbn [bind].
    intros Hdrop.
    assert (Ht' : time ds' = Some (filter (in_slice time_slice) ts)).
    { rewrite (drop_coords_time _ _ _ Hdrop). unfold selected. cbn [time].
      now rewrite kept_positions_filter. }
    split; [exact Ht'|].
    destruct (drop_coords_dims _ _ _ Hdrop) as (keep & Hk & Hspan).
    assert (Hkeep : keep "time"%string = true).
    { apply Hspan. unfold spanned. now rewrite Ht'. }
    unfold dim_size. rewrite Hk, (dict_get_filter _ keep _ _ Hkeep).
    fold (dim_size (selected ds1 ts (kept_positions time_slice ts)) "time").
    rewrite (dim_size_selected_time _ _ _ Hd1).
    now rewrite <- kept_positions_filter, length_map. }
  unfold normalize in Hrun.
  destruct (mem "longitude" (dim_names ds) && mem "latitude" (dim_names ds)).
  - unfold rename in Hrun. destruct (negb _); [discriminate|].
    destruct (has_dup _); [discriminate|]. cbn [bind] in Hrun.
    apply (Htail (renamed ds spatial_names)); auto.
    unfold dim_names, renamed. cbn [dims]. rewrite keys_rename_entry.
    change "time"%string with (rename_name spatial_names "time").
    now apply in_map.
  - cbn [bind] in Hrun. now apply (Htail ds).
Qed.

Lemma normalize_time_dimension_witness :
  exists ds',
    normalize (sample_dataset "lat" "lon" (Num 280)) = Ok ds'
    /\ dim_size ds' "time" = 3.
Proof.
  assert (Hrun : exists ds',
            normalize (sample_dataset "lat" "lon" (Num 280)) = Ok ds')
    by (eexists; reflexivity).
  destruct Hrun as [ds' Hrun]. exists ds'. split; [exact Hrun|].
  apply (proj2 (normalize_time_dimension
                  (sample_dataset "lat" "lon" (Num 280)) ds' sample_times
                  eq_refl eq_refl ltac:(simpl; tauto) Hrun)).
Defined.

(** X11. A dataset with a time coordinate in chronological order that
    the renaming leaves alone and that has no variable and no dimension
    named [lat], as when one only of the long names is in use, is normalised
    and then stops the turn of the loop at the lookup of [lat], with
    [KeyError]. *)
Theorem process_run_without_lat (ds : Dataset) (ts : list timestamp) :
  unique_names ds ->
  time ds = Some ts ->
  ascending ts = true ->
  ~ has_both ds "latitude" "longitude" ->
  ~ In "lat"%string (var_names ds) ->
  ~ In "lat"%string (dim_names ds) ->
  process_run ds = Raise (KeyError "lat").
Proof.
  intros Hu Ht Ha Hno Hvar Hdim. unfold process_run.
  rewrite (normalize_without_rename ds Hno).
  destruct (window_and_drop ds ts Ht Ha Hu) as (ds' & Hrun & _).
  rewrite Hrun. cbn [bind].
  destruct (window_and_drop_inv _ _ Hrun) as (Hd & Hv & _).
  unfold global_mean, cos_lat_2d. rewrite getitem_missing; [reflexivity| |].
  - intros Hin. apply in_map_iff in Hin. destruct Hin as [[n v'] [Hn Hin]].
    simpl in Hn. subst n. destruct (Hv _ _ Hin) as (v & Hin' & _).
    apply Hvar. apply keys_vars_in_var_names. eapply in_keys; eauto.
  - intros Hin. apply Hdim. now apply Hd.
Qed.

Lemma process_run_without_lat_witness :
  process_run (sample_dataset "latitude" "lon" (Num 280))
  = Raise (KeyError "lat").
Proof.
  apply (process_run_without_lat
           (sample_dataset "latitude" "lon" (Num 280)) sample_times).
  - names.
  - reflexivity.
  - reflexivity.
  - names.
  - simpl. intuition discriminate.
  - simpl. intuition discriminate.
Defined.

(** ** The weighted mean: missing cells, empty grids, squeezed dimensions *)

(** X12. On a gridded field whose cells at a step hold the number [v] or
    are missing, the aggregator returns [v] times the share of the weights
    that lies on the cells that hold a number: the missing cells are left
    out of the sum of the products and kept in the sum of the weights. *)
Theorem global_mean_with_missing_cells
  (ds : Dataset) (lats : nat -> R) (tas : Var) (outer : list string)
  (env : Index) (v : R) :
  is_gridded ds lats tas outer ->
  (forall i j, i < dim_size ds "lat" -> j < dim_size ds "lon" ->
               cell_at tas env i j = NaN \/ cell_at tas env i j = Num v) ->
  grid_sum (dim_size ds "lat") (dim_size ds "lon") (cos_weight lats) <> 0%R ->
  exists gmst,
    global_mean ds = Ok gmst
    /\ da_at gmst env
       = Num (v * (grid_sum (dim_size ds "lat") (dim_size ds "lon")
                     (fun i j => if isnan (cell_at tas env i j) then 0%R
                                 else cos_weight lats i j)
                   / grid_sum (dim_size ds "lat") (dim_size ds "lon")
                       (cos_weight lats))).
Proof.
  intros Hgrid Hcells Hden.
  destruct (global_mean_value ds lats tas outer env Hgrid)
    as (gmst & Hrun & _ & Hval).
  { intros i j Hi Hj. destruct (Hcells i j Hi Hj) as [-> | ->]; exact I. }
  exists gmst. split; [exact Hrun|].
  rewrite Hval, (vdiv_nums _ _ Hden). f_equal.
  rewrite (grid_sum_ext _ _ _
             (fun i j => v * (if isnan (cell_at tas env i j) then 0
                              else cos_weight lats i j))%R).
  - rewrite grid_sum_scale. field. exact Hden.
  - intros i j Hi Hj. destruct (Hcells i j Hi Hj) as [-> | ->]; simpl; lra.
Qed.

Lemma sample_holes_is_gridded :
  is_gridded sample_holes (fun _ => 0%R) sample_holes_tas ["time"%string].
Proof.
  unfold is_gridded. split; [|split; [|split; [|split; [|split]]]].
  - eexists. split; [reflexivity|]. split; reflexivity.
  - eexists. split; reflexivity.
  - reflexivity.
  - reflexivity.
  - simpl. intuition discriminate.
  - simpl. intuition discriminate.
Qed.

Lemma global_mean_with_missing_cells_witness :
  exists gmst,
    global_mean sample_holes = Ok gmst
    /\ da_at gmst (fun _ => 0)
       = Num (280 * (grid_sum 1 2
                       (fun i j => if isnan (cell_at sample_holes_tas (fun _ => 0) i j)
                                   then 0%R else cos_weight (fun _ => 0%R) i j)
                     / grid_sum 1 2 (cos_weight (fun _ => 0%R)))).
Proof.
  apply (global_mean_with_missing_cells sample_holes (fun _ => 0%R)
           sample_holes_tas ["time"%string] (fun _ => 0) 280%R).
  - apply sample_holes_is_gridded.
  - intros i j Hi Hj. change (dim_size sample_holes "lon") with 2 in Hj.
    unfold cell_at, sample_holes_tas, upd. simpl.
    destruct j as [|[|j]]; [now right|now left|lia].
  - change (grid_sum 1 2 (cos_weight (fun _ => 0%R)) <> 0%R).
    rewrite sample_weight_sum. lra.
Defined.

(** Half of the weight is missing, and the mean of the field of 280 reads
    140. *)
Example global_mean_of_sample_holes :
  exists gmst,
    global_mean sample_holes = Ok gmst /\ da_at gmst (fun _ => 0) = Num 140.
Proof.
  destruct (global_mean_value sample_holes (fun _ => 0%R) sample_holes_tas
              ["time"%string] (fun _ => 0) sample_holes_is_gridded)
    as (gmst & Hrun & _ & Hval).
  { intros i j _ _. unfold cell_at, sample_holes_tas. simpl.
    now destruct (Nat.eqb _ 0). }
  exists gmst. split; [exact Hrun|]. rewrite Hval.
  change (dim_size sample_holes "lat") with 1.
  change (dim_size sample_holes "lon") with 2.
  rewrite sample_weight_sum, vdiv_nums by lra. f_equal.
  unfold grid_sum, Rsum, cos_weight, cell_at. simpl.
  rewrite Rmult_0_l, cos_0. lra.
Qed.

(** C1, as it is stated, fails: on the equator, with two longitudes, the
    field holds 280 at the first longitude and is missing at the second;
    the weighted mean [sum(field * weight) / sum(weight)] of these cells is
    missing, the only number held by a cell is 280, and the aggregator
    returns 140. *)
Lemma global_mean_weighted_mean_counterexample :
  (forall i j, cell_at sample_holes_tas (fun _ => 0) i j = Num 280
               \/ cell_at sample_holes_tas (fun _ => 0) i j = NaN)
  /\ weighted_mean_cells 1 2 (cell_at sample_holes_tas (fun _ => 0))
       (cos_weight (fun _ => 0%R)) = NaN
  /\ exists gmst,
       global_mean sample_holes = Ok gmst
       /\ da_at gmst (fun _ => 0) = Num 140.
Proof.
  split; [|split].
  - intros i j. unfold cell_at, sample_holes_tas. simpl.
    destruct (Nat.eqb _ 0); auto.
  - reflexivity.
  - exact global_mean_of_sample_holes.
Qed.

Lemma Rsum_zeros (B : Type) (l : list B) : Rsum (map (fun _ => 0%R) l) = 0%R.
Proof.
  unfold Rsum. induction l as [|x l IH]; simpl; [reflexivity|].
  rewrite IH. lra.
Qed.

Lemma grid_sum_empty (n m : nat) (g : nat -> nat -> R) :
  n = 0 \/ m = 0 -> grid_sum n m g = 0%R.
Proof.
  intros [-> | ->]; unfold grid_sum; simpl; [reflexivity|].
  apply (Rsum_zeros nat).
Qed.

Lemma vdiv_zero_zero : vdiv (Num 0) (Num 0) = NaN.
Proof.
  unfold vdiv, is_zero. destruct (Req_dec_T 0 0); [reflexivity|congruence].
Qed.

(** X13. On a grid without a latitude or without a longitude, both sums
    are empty and the aggregator returns the missing value at every
    step. *)
Theorem global_mean_on_empty_grid
  (ds : Dataset) (lats : nat -> R) (tas : Var) (outer : list string) :
  is_gridded ds lats tas outer ->
  dim_size ds "lat" = 0 \/ dim_size ds "lon" = 0 ->
  exists gmst,
    global_mean ds = Ok gmst
    /\ forall env, da_at gmst env = NaN.
Proof.
  intros Hgrid Hempty.
  assert (Hcells : forall env i j,
            i < dim_size ds "lat" -> j < dim_size ds "lon" ->
            finite_or_missing (cell_at tas env i j)).
  { intros env i j Hi Hj. destruct Hempty as [H0|H0]; rewrite H0 in *; lia. }
  destruct (global_mean_value ds lats tas outer (fun _ => 0) Hgrid
              (Hcells _)) as (gmst & Hrun & _ & _).
  exists gmst. split; [exact Hrun|]. intros env.
  destruct (global_mean_value ds lats tas outer env Hgrid (Hcells _))
    as (gmst' & Hrun' & _ & Hval).
  assert (Heq : gmst' = gmst) by congruence. subst gmst'.
  rewrite Hval, !(grid_sum_empty _ _ _ Hempty). apply vdiv_zero_zero.
Qed.

Lemma global_mean_on_empty_grid_witness :
  exists gmst,
    global_mean sample_empty_grid = Ok gmst
    /\ forall env, da_at gmst env = NaN.
Proof.
  apply (global_mean_on_empty_grid sample_empty_grid (fun _ => 0%R)
           (sample_tas "lat" "lon" (Num 280)) ["time"%string]).
  - unfold is_gridded. split; [|split; [|split; [|split; [|split]]]].
    + eexists. split; [reflexivity|]. split; reflexivity.
    + eexists. split; reflexivity.
    + reflexivity.
    + reflexivity.
    + simpl. intuition discriminate.
    + simpl. intuition discriminate.
  - right. reflexivity.
Defined.

Lemma tas_times_weights_kept (ds : Dataset) (tas : Var) (outer : list string)
  (w : DataArray) (f : val -> val -> val) :
  v_dims tas = outer ++ ["lat"; "lon"]%string ->
  ~ In "lat"%string outer -> ~ In "lon"%string outer ->
  da_dims w = [("lat"%string, dim_size ds "lat");
               ("lon"%string, dim_size ds "lon")] ->
  filter (fun p => negb (mem (fst p) ["lat"; "lon"]%string))
    (da_dims (da_binop f (as_array ds tas) w))
  = map (fun d => (d, dim_size ds d)) outer.
Proof.
  intros Hdims Hlat Hlon Hw.
  assert (Hextra : filter (fun p => negb (mem (fst p) (keys (da_dims (as_array ds tas)))))
                     (da_dims w) = []).
  { apply filter_none. intros p Hp. rewrite Hw in Hp.
    rewrite keys_as_array, Hdims.
    apply negb_false_iff, mem_In, in_or_app. right.
    destruct Hp as [<-|[<-|[]]]; simpl; auto. }
  unfold da_binop. cbn [da_dims]. rewrite Hextra, app_nil_r.
  unfold as_array. cbn [da_dims]. rewrite Hdims, map_app, filter_app.
  rewrite filter_all.
  - cbn. now rewrite app_nil_r.
  - intros p Hp. apply in_map_iff in Hp. destruct Hp as [d [<- Hd]].
    apply negb_true_iff, mem_not_In. simpl.
    intros [<-|[<-|[]]]; contradiction.
Qed.

Lemma global_mean_dims (ds : Dataset) (lats : nat -> R) (tas : Var)
  (outer : list string) (gmst : DataArray) :
  is_gridded ds lats tas outer ->
  global_mean ds = Ok gmst ->
  da_dims gmst = map (fun d => (d, dim_size ds d)) outer.
Proof.
  intros Hgrid.
  destruct (cos_lat_2d_value ds lats tas outer Hgrid) as (w & Hw & Hwd & _).
  destruct Hgrid as (_ & _ & Htas & Hdims & Hnlat & Hnlon).
  destruct (tas_times_weights_dims ds tas outer w vmul Hdims Hnlat Hnlon Hwd)
    as (_ & _ & Hin).
  unfold global_mean. rewrite Hw. cbn [bind].
  unfold getitem. rewrite Htas. cbn [bind].
  rewrite (sum_ok _ _ Hin). cbn [bind].
  rewrite sum_ok.
  2:{ intros d Hd. rewrite Hwd. exact Hd. }
  cbn [bind]. intros Heq. inversion Heq. subst gmst. clear Heq.
  unfold da_binop at 1. cbn [da_dims summed]. rewrite Hwd.
  cbn [filter mem existsb fst String.eqb Ascii.eqb Bool.eqb negb orb].
  rewrite app_nil_r.
  apply (tas_times_weights_kept ds tas outer w vmul Hdims Hnlat Hnlon Hwd).
Qed.

(** X14. The series stored for a run spans the outer dimensions of the
    temperature whose length is not one: a member dimension of length one
    goes, and so does the time dimension when one step only is in the
    window. *)
Theorem stored_series_dimensions
  (ds ds' : Dataset) (lats : nat -> R) (tas : Var) (outer : list string) :
  normalize ds = Ok ds' ->
  is_gridded ds' lats tas outer ->
  exists gmst,
    process_run ds = Ok (ds', gmst)
    /\ keys (da_dims gmst)
       = filter (fun d => negb (Nat.eqb (dim_size ds' d) 1)) outer.
Proof.
  intros Hnorm Hgrid.
  destruct (cos_lat_2d_value ds' lats tas outer Hgrid) as (w & Hw & Hwd & _).
  assert (Hrun : exists g, global_mean ds' = Ok g).
  { pose proof Hgrid as (_ & _ & Htas & Hdims & Hnlat & Hnlon).
    destruct (tas_times_weights_dims ds' tas outer w vmul Hdims Hnlat Hnlon Hwd)
      as (_ & _ & Hin).
    unfold global_mean. rewrite Hw. cbn [bind].
    unfold getitem. rewrite Htas. cbn [bind].
    rewrite (sum_ok _ _ Hin). cbn [bind].
    rewrite sum_ok; [cbn [bind]; eauto|].
    intros d Hd. rewrite Hwd. exact Hd. }
  destruct Hrun as [g Hg].
  exists (squeeze g). split.
  - unfold process_run. rewrite Hnorm. cbn [bind]. now rewrite Hg.
  - unfold squeeze. cbn [da_dims].
    rewrite (global_mean_dims ds' lats tas outer g Hgrid Hg).
    unfold keys. clear. induction outer as [|d outer IH]; simpl;
      [reflexivity|].
    destruct (Nat.eqb (dim_size ds' d) 1); simpl; now rewrite IH.
Qed.

Lemma stored_series_dimensions_witness :
  exists gmst,
    process_run sample_one_step
    = Ok (selected sample_one_step [22188; 22200]%Z [1], gmst)
    /\ keys (da_dims gmst) = [].
Proof.
  apply (stored_series_dimensions sample_one_step
           (selected sample_one_step [22188; 22200]%Z [1]) (fun _ => 0%R)
           (isel_var "time" [1] (sample_tas "lat" "lon" (Num 280)))
           ["time"%string]).
  - reflexivity.
  - unfold is_gridded. split; [|split; [|split; [|split; [|split]]]].
    + eexists. split; [reflexivity|]. split; reflexivity.
    + eexists. split; reflexivity.
    + reflexivity.
    + reflexivity.
    + simpl. intuition discriminate.
    + simpl. intuition discriminate.
Defined.

(** ** The anomaly cell: reference period and annual means *)

Lemma fold_vadd_nums (xs : list R) (a : R) :
  fold_left vadd (map Num xs) (Num a) = Num (a + Rsum xs).
Proof.
  revert a. induction xs as [|x xs IH]; intros a; simpl.
  - f_equal. lra.
  - rewrite IH. f_equal. unfold Rsum. simpl. lra.
Qed.

Lemma nanmean_nums (xs : list R) :
  xs <> [] ->
  nanmean (map Num xs) = Num (Rsum xs / INR (List.length xs)).
Proof.
  intros Hne. unfold nanmean.
  assert (Hf : filter (fun a => negb (isnan a)) (map Num xs) = map Num xs).
  { apply filter_all. intros v Hv. apply in_map_iff in Hv.
    now destruct Hv as [x [<- _]]. }
  rewrite Hf. destruct xs as [|x xs]; [congruence|].
  cbn [map]. change (Num x :: map Num xs) with (map Num (x :: xs)).
  rewrite fold_vadd_nums, length_map, vdiv_nums.
  - f_equal. f_equal. lra.
  - apply not_0_INR. simpl. discriminate.
Qed.


Lemma nums_of_cells (cells : list val) :
  (forall c, In c cells -> exists x, c = Num x) ->
  cells = map Num (map or_zero cells).
Proof.
  induction cells as [|c cells IH]; intros Hall; simpl; [reflexivity|].
  destruct (Hall c (or_introl eq_refl)) as [x ->]. simpl. f_equal.
  apply IH. intros c' Hc'. apply Hall. now right.
Qed.

Lemma Rsum_shift (mu : R) (xs : list R) :
  Rsum (map (fun x => x - mu)%R xs) = (Rsum xs - INR (List.length xs) * mu)%R.
Proof.
  unfold Rsum. induction xs as [|x xs IH].
  - simpl. lra.
  - cbn [map fold_right List.length]. rewrite IH, S_INR. lra.
Qed.

Lemma vsub_missing (a : val) : vsub a NaN = NaN.
Proof. now destruct a. Qed.

Lemma rebase_window (a : Series) (ref : val) :
  map snd (filter (fun p => in_slice (1850%Z, 1900%Z) (fst p))
             (map (fun p => (fst p, vsub (snd p) ref)) a))
  = map (fun v => vsub v ref)
      (map snd (filter (fun p => in_slice (1850%Z, 1900%Z) (fst p)) a)).
Proof.
  induction a as [|[t v] a IH]; simpl; [reflexivity|].
  destruct (in_slice (1850%Z, 1900%Z) t); simpl; now rewrite IH.
Qed.

Lemma sel_window_ascending (sl : Z * Z) (s : Series) :
  ascending (times s) = true ->
  sel_window sl s = Ok (filter (fun p => in_slice sl (fst p)) s).
Proof.
  intros Ha. unfold sel_window.
  rewrite (slice_positions_ascending _ _ Ha). cbn [bind]. f_equal.
  unfold kept_positions, times. rewrite length_map.
  rewrite (filter_ext _ (fun i => in_slice sl (fst (nth i s (0%Z, NaN))))).
  - rewrite <- (filter_map_comm _ _ (fun i => nth i s (0%Z, NaN))
                  (fun p => in_slice sl (fst p))).
    now rewrite map_nth_seq.
  - intros i. f_equal. now rewrite <- (map_nth fst s (0%Z, NaN) i).
Qed.

Lemma sel_window_raises (sl : Z * Z) (s : Series) :
  ascending (times s) = false -> descending (times s) = false ->
  exists what, sel_window sl s = Raise (KeyError what).
Proof.
  intros Ha Hd. unfold sel_window, slice_positions. rewrite Ha, Hd.
  now eexists.
Qed.

Lemma times_shifted (a : Series) (ref : val) : times (shifted a ref) = times a.
Proof.
  unfold shifted, times. rewrite map_map. now apply map_ext.
Qed.

Lemma times_gmst_anomalies (gmst : Series) :
  times (gmst_anomalies gmst) = times gmst.
Proof.
  unfold gmst_anomalies, groupby_sub, times. rewrite map_map.
  now apply map_ext.
Qed.

Lemma rebase_ascending (a : Series) :
  ascending (times a) = true ->
  rebase a
  = Ok (shifted a
          (nanmean (map snd (filter (fun p => in_slice (1850%Z, 1900%Z) (fst p))
                               a)))).
Proof.
  intros Ha. unfold rebase. now rewrite (sel_window_ascending _ _ Ha).
Qed.

Lemma gmst_ann_anomalies_ascending (gmst : Series) :
  ascending (times gmst) = true ->
  gmst_ann_anomalies gmst
  = Ok (groupby_mean year
          (shifted (gmst_anomalies gmst)
             (nanmean (map snd (filter
                                  (fun p => in_slice (1850%Z, 1900%Z) (fst p))
                                  (gmst_anomalies gmst)))))).
Proof.
  intros Ha. unfold gmst_ann_anomalies. rewrite rebase_ascending.
  - reflexivity.
  - now rewrite times_gmst_anomalies.
Qed.

(** X15. In exact arithmetic, a series of numbers in chronological order
    with a step in the years 1850 to 1900 is rebased without an error, on
    the same time steps, and the rebased series has mean zero over these
    years. *)
Theorem rebase_has_zero_reference_mean (a : Series) :
  ascending (times a) = true ->
  (forall t v, In (t, v) a -> exists x, v = Num x) ->
  (exists t v, In (t, v) a /\ in_slice (1850%Z, 1900%Z) t = true) ->
  exists a' reference,
    rebase a = Ok a'
    /\ times a' = times a
    /\ sel_window (1850%Z, 1900%Z) a' = Ok reference
    /\ nanmean (map snd reference) = Num 0.
Proof.
  intros Ha Hnum [t0 [v0 [Hin0 Hwin0]]].
  rewrite (rebase_ascending a Ha).
  set (cells := map snd (filter (fun p => in_slice (1850%Z, 1900%Z) (fst p)) a)).
  exists (shifted a (nanmean cells)). eexists.
  split; [reflexivity|]. split; [apply times_shifted|].
  split.
  { apply sel_window_ascending. now rewrite times_shifted. }
  unfold shifted.
  rewrite (rebase_window a (nanmean cells)). fold cells.
  assert (Hcells : cells = map Num (map or_zero cells)).
  { apply nums_of_cells. intros c Hc. unfold cells in Hc.
    apply in_map_iff in Hc. destruct Hc as [[t v] [<- Hp]].
    apply filter_In in Hp. apply (Hnum t v). tauto. }
  assert (Hne : map or_zero cells <> []).
  { assert (Hc : In v0 cells).
    { unfold cells. apply in_map_iff. exists (t0, v0). split; [reflexivity|].
      apply filter_In. now split. }
    destruct cells; [contradiction|discriminate]. }
  set (xs := map or_zero cells) in *. rewrite Hcells.
  rewrite (nanmean_nums xs Hne), map_map. cbn [vsub].
  rewrite <- (map_map (fun x => (x - Rsum xs / INR (List.length xs))%R) Num).
  rewrite nanmean_nums.
  - f_equal. rewrite Rsum_shift, length_map. field.
    apply not_0_INR. destruct xs; [congruence|discriminate].
  - destruct xs; [congruence|discriminate].
Qed.

Lemma rebase_has_zero_reference_mean_witness :
  exists a' reference,
    rebase sample_periodic = Ok a'
    /\ times a' = times sample_periodic
    /\ sel_window (1850%Z, 1900%Z) a' = Ok reference
    /\ nanmean (map snd reference) = Num 0.
Proof.
  apply rebase_has_zero_reference_mean.
  - reflexivity.
  - intros t v Hin. unfold sample_periodic in Hin. simpl in Hin.
    repeat (destruct Hin as [Hin|Hin]; [inversion Hin; eauto|]).
    contradiction.
  - exists 22200%Z, (Num 1). split; [now left|reflexivity].
Defined.

Lemma groupby_mean_In (key : timestamp -> Z) (s : Series) (k : Z) (v : val) :
  In (k, v) (groupby_mean key s) ->
  v = nanmean (group_cells key k s)
  /\ exists t c, In (t, c) s /\ key t = k.
Proof.
  unfold groupby_mean. intros Hin. apply in_map_iff in Hin.
  destruct Hin as [k' [Heq Hk]]. inversion Heq; subst. split; [reflexivity|].
  apply (proj1 (In_group_labels _ _)) in Hk.
  unfold times in Hk. rewrite map_map in Hk.
  apply in_map_iff in Hk. destruct Hk as [[t c] [Hkey Hin]]. eauto.
Qed.

Lemma groupby_mean_year (s : Series) (t : timestamp) (c : val) :
  In t (times s) -> exists v, In (year t, v) (groupby_mean year s).
Proof.
  intros Hin. unfold groupby_mean. eexists.
  apply in_map_iff. exists (year t). split; [reflexivity|].
  apply In_group_labels. now apply in_map.
Qed.



Lemma insert_unique_HdRel (k k' : Z) (l : list Z) :
  (k' < k)%Z -> HdRel Z.lt k' l -> HdRel Z.lt k' (insert_unique k l).
Proof.
  intros Hlt Hhd. destruct l as [|k'' l]; simpl.
  - now constructor.
  - inversion Hhd; subst.
    destruct (Z.ltb_spec k k''); [now constructor|].
    destruct (Z.eqb_spec k k''); now constructor.
Qed.

Lemma insert_unique_Sorted (k : Z) (l : list Z) :
  Sorted Z.lt l -> Sorted Z.lt (insert_unique k l).
Proof.
  induction 1 as [|k' l Hs IH Hhd]; simpl.
  - repeat constructor.
  - destruct (Z.ltb_spec k k').
    + constructor; [now constructor|now constructor].
    + destruct (Z.eqb_spec k k'); [now constructor|].
      constructor; [exact IH|]. apply insert_unique_HdRel; [lia|exact Hhd].
Qed.

(** X17. A grouped mean has one entry for each label met in the series,
    and the labels come in increasing order: the annual means list each
    calendar year of the series once, from the earliest on. *)
Theorem groupby_mean_labels (key : timestamp -> Z) (s : Series) :
  Sorted Z.lt (map fst (groupby_mean key s))
  /\ forall k, In k (map fst (groupby_mean key s)) <->
               exists t v, In (t, v) s /\ key t = k.
Proof.
  assert (Hl : map fst (groupby_mean key s) = group_labels (map key (times s))).
  { unfold groupby_mean. rewrite map_map. simpl. apply map_id. }
  rewrite Hl. split.
  - clear Hl. unfold group_labels.
    induction (map key (times s)) as [|k ks IH]; simpl.
    + constructor.
    + apply insert_unique_Sorted. exact IH.
  - intros k. rewrite In_group_labels. unfold times. rewrite map_map.
    rewrite in_map_iff. split.
    + intros [[t v] [Hk Hin]]. eauto.
    + intros [t [v [Hin Hk]]]. now exists (t, v).
Qed.

Lemma periodic_anomalies (gmst : Series) (signal : Z -> R) :
  (forall t v, In (t, v) gmst -> v = Num (signal (month t))) ->
  forall t v, In (t, v) (gmst_anomalies gmst) -> v = Num 0.
Proof.
  intros Hper t v Hin. unfold gmst_anomalies, groupby_sub in Hin.
  apply in_map_iff in Hin. destruct Hin as [[t' v'] [Heq Hin]].
  simpl in Heq. inversion Heq; subst t. clear Heq.
  unfold gmst_climatology, groupby_mean.
  rewrite (group_value_map (fun k => nanmean (group_cells month k gmst))).
  - rewrite (nanmean_const _ (signal (month t'))).
    + rewrite (Hper _ _ Hin). simpl. f_equal. lra.
    + unfold group_cells. intros Hnil.
      assert (Hc : In v' (map snd (filter
                 (fun p => Z.eqb (month (fst p)) (month t')) gmst))).
      { apply in_map_iff. exists (t', v'). split; [reflexivity|].
        apply filter_In. split; [exact Hin|]. simpl. apply Z.eqb_refl. }
      rewrite Hnil in Hc. contradiction.
    + intros c Hc. unfold group_cells in Hc.
      apply in_map_iff in Hc. destruct Hc as [[t2 v2] [Hsnd Hf]].
      apply filter_In in Hf. destruct Hf as [Hin2 Hm]. simpl in *.
      apply Z.eqb_eq in Hm. subst c. rewrite <- Hm. now apply Hper.
  - apply In_group_labels. unfold times. rewrite map_map.
    apply in_map_iff. exists (t', v'). split; [reflexivity|exact Hin].
Qed.

Lemma groupby_mean_const (key : timestamp -> Z) (s : Series) (x : R) :
  (forall t v, In (t, v) s -> v = Num x) ->
  forall k v, In (k, v) (groupby_mean key s) -> v = Num x.
Proof.
  intros Hall k v Hin. apply groupby_mean_In in Hin.
  destruct Hin as [-> [t [c [Hin Hk]]]]. apply nanmean_const.
  - unfold group_cells. intros Hnil.
    assert (Hc : In c (map snd (filter (fun p => Z.eqb (key (fst p)) k) s))).
    { apply in_map_iff. exists (t, c). split; [reflexivity|].
      apply filter_In. split; [exact Hin|]. simpl. now apply Z.eqb_eq. }
    rewrite Hnil in Hc. contradiction.
  - intros c' Hc'. unfold group_cells in Hc'. apply in_map_iff in Hc'.
    destruct Hc' as [[t2 c2] [<- Hp]]. apply filter_In in Hp.
    apply (Hall t2 c2). tauto.
Qed.

(** X18. In exact arithmetic, a series in chronological order whose cells
    depend on the calendar month only, with a step in the years 1850 to
    1900, goes through the turn of the anomaly loop without an error;
    every year of the series has an annual anomaly, and it is zero. *)
Theorem periodic_signal_has_zero_annual_anomalies
  (gmst : Series) (signal : Z -> R) :
  ascending (times gmst) = true ->
  (forall t v, In (t, v) gmst -> v = Num (signal (month t))) ->
  (exists t v, In (t, v) gmst /\ in_slice (1850%Z, 1900%Z) t = true) ->
  exists annual,
    gmst_ann_anomalies gmst = Ok annual
    /\ (forall t v, In (t, v) gmst -> exists a, In (year t, a) annual)
    /\ forall y a, In (y, a) annual -> a = Num 0.
Proof.
  intros Ha Hper [t0 [v0 [Hin0 Hwin0]]].
  pose proof (periodic_anomalies gmst signal Hper) as Hzero.
  assert (Hin0' : exists c, In (t0, c) (gmst_anomalies gmst)).
  { unfold gmst_anomalies, groupby_sub. eexists. apply in_map_iff.
    exists (t0, v0). split; [reflexivity|exact Hin0]. }
  destruct Hin0' as [c0 Hc0].
  rewrite (gmst_ann_anomalies_ascending gmst Ha).
  eexists. split; [reflexivity|]. split.
  - intros t v Hin. apply (groupby_mean_year _ t v).
    rewrite times_shifted, times_gmst_anomalies.
    apply (in_map fst) in Hin. exact Hin.
  - apply groupby_mean_const.
    intros t v Hin. unfold shifted in Hin. apply in_map_iff in Hin.
    destruct Hin as [[t1 c1] [Heq Hin1]]. inversion Heq; subst. cbn [snd].
    rewrite (Hzero _ _ Hin1). rewrite (nanmean_const _ 0%R).
    + simpl. f_equal. lra.
    + intros Hnil.
      assert (Hc : In c0 (map snd (filter
                                     (fun p => in_slice (1850%Z, 1900%Z) (fst p))
                                     (gmst_anomalies gmst)))).
      { apply in_map_iff. exists (t0, c0). split; [reflexivity|].
        apply filter_In. now split. }
      rewrite Hnil in Hc. contradiction.
    + intros c Hc. apply in_map_iff in Hc. destruct Hc as [[t2 c2] [<- Hp]].
      apply filter_In in Hp. apply (Hzero t2 c2). tauto.
Qed.

Lemma periodic_signal_has_zero_annual_anomalies_witness :
  exists annual,
    gmst_ann_anomalies sample_periodic = Ok annual
    /\ (exists a, In (1851%Z, a) annual)
    /\ forall y a, In (y, a) annual -> a = Num 0.
Proof.
  destruct (periodic_signal_has_zero_annual_anomalies sample_periodic IZR)
    as (annual & Hrun & Hyears & Hzero).
  - reflexivity.
  - intros t c Hin. unfold sample_periodic in Hin. simpl in Hin.
    repeat (destruct Hin as [Hin|Hin]; [inversion Hin; reflexivity|]).
    contradiction.
  - exists 22200%Z, (Num 1). split; [now left|reflexivity].
  - exists annual. split; [exact Hrun|]. split; [|exact Hzero].
    apply (Hyears 22212%Z (Num 1)). simpl. tauto.
Defined.






(** ** The warming-pattern cell: the change between two periods *)

Lemma kept_positions_In (sl : Z * Z) (ts : list timestamp) (i : nat) :
  In i (kept_positions sl ts) <->
  i < List.length ts /\ in_slice sl (nth i ts 0%Z) = true.
Proof.
  unfold kept_positions. rewrite filter_In, in_seq. intuition lia.
Qed.

Lemma kept_positions_none (sl : Z * Z) (ts : list timestamp) :
  (forall t, In t ts -> in_slice sl t = false) -> kept_positions sl ts = [].
Proof.
  intros Hout. unfold kept_positions. apply filter_none. intros i Hi.
  apply in_seq in Hi. apply Hout. apply nth_In. lia.
Qed.

Lemma kept_positions_some (sl : Z * Z) (ts : list timestamp) :
  (exists t, In t ts /\ in_slice sl t = true) -> kept_positions sl ts <> [].
Proof.
  intros [t [Hin Hsl]] Hnil.
  destruct (In_nth ts t 0%Z Hin) as [i [Hi Hnth]].
  assert (Hk : In i (kept_positions sl ts)).
  { apply kept_positions_In. split; [exact Hi|now rewrite Hnth]. }
  rewrite Hnil in Hk. contradiction.
Qed.

Lemma temperature_change_run (ds : Dataset) (tas : Var) (ts : list timestamp) :
  dict_get (coords ds ++ data_vars ds) "tas" = Some tas ->
  In "time"%string (v_dims tas) ->
  time ds = Some ts ->
  ascending ts = true ->
  exists change,
    temperature_change ds = Ok change
    /\ forall env,
         da_at change env
         = vsub (nanmean (map (fun i => v_at tas (upd env "time" i))
                            (kept_positions (2080%Z, 2100%Z) ts)))
                (nanmean (map (fun i => v_at tas (upd env "time" i))
                            (kept_positions (1980%Z, 2000%Z) ts))).
Proof.
  intros Htas Hdim Ht Ha. unfold temperature_change, getitem.
  rewrite Htas. cbn [bind]. unfold sel_mean_time. rewrite Ht.
  assert (Hm : mem "time" (keys (da_dims (as_array ds tas))) = true).
  { rewrite keys_as_array. now apply mem_In. }
  rewrite Hm, !(slice_positions_ascending _ _ Ha). cbn [bind].
  eexists. split; [reflexivity|].
  intros env. reflexivity.
Qed.

(** X20. When the spliced dataset, with its time coordinate in
    chronological order, has no step in the years 2080 to 2100, or none in
    the years 1980 to 2000, the temperature change is the missing value at
    every grid cell. *)
Theorem temperature_change_needs_both_periods
  (ds : Dataset) (tas : Var) (ts : list timestamp) :
  dict_get (coords ds ++ data_vars ds) "tas" = Some tas ->
  In "time"%string (v_dims tas) ->
  time ds = Some ts ->
  ascending ts = true ->
  (forall t, In t ts -> in_slice (2080%Z, 2100%Z) t = false)
  \/ (forall t, In t ts -> in_slice (1980%Z, 2000%Z) t = false) ->
  exists change,
    temperature_change ds = Ok change
    /\ forall env, da_at change env = NaN.
Proof.
  intros Htas Hdim Ht Ha Hout.
  destruct (temperature_change_run ds tas ts Htas Hdim Ht Ha)
    as (change & Hrun & Hval).
  exists change. split; [exact Hrun|]. intros env. rewrite Hval.
  destruct Hout as [Hout|Hout]; rewrite (kept_positions_none _ _ Hout).
  - reflexivity.
  - simpl map. change (nanmean []) with NaN. apply vsub_missing.
Qed.

Lemma temperature_change_needs_both_periods_witness :
  exists change,
    temperature_change (sample_field (Num 280)) = Ok change
    /\ forall env, da_at change env = NaN.
Proof.
  apply (temperature_change_needs_both_periods (sample_field (Num 280))
           (sample_tas "lat" "lon" (Num 280)) [22200; 22201; 25200]%Z).
  - reflexivity.
  - simpl. tauto.
  - reflexivity.
  - reflexivity.
  - right. intros t [<-|[<-|[<-|[]]]]; reflexivity.
Defined.

(** X21. In exact arithmetic, on a dataset with its time coordinate in
    chronological order, at a grid cell that holds the number [x] at every
    step of the years 1980 to 2000 and the number [y] at every step of the
    years 2080 to 2100, both periods having a step, the temperature change
    is [y - x]. *)
Theorem temperature_change_between_steady_periods
  (ds : Dataset) (tas : Var) (ts : list timestamp) (env : Index) (x y : R) :
  dict_get (coords ds ++ data_vars ds) "tas" = Some tas ->
  In "time"%string (v_dims tas) ->
  time ds = Some ts ->
  ascending ts = true ->
  (exists t, In t ts /\ in_slice (1980%Z, 2000%Z) t = true) ->
  (exists t, In t ts /\ in_slice (2080%Z, 2100%Z) t = true) ->
  (forall i, i < List.length ts ->
             in_slice (1980%Z, 2000%Z) (nth i ts 0%Z) = true ->
             v_at tas (upd env "time" i) = Num x) ->
  (forall i, i < List.length ts ->
             in_slice (2080%Z, 2100%Z) (nth i ts 0%Z) = true ->
             v_at tas (upd env "time" i) = Num y) ->
  exists change,
    temperature_change ds = Ok change
    /\ da_at change env = Num (y - x).
Proof.
  intros Htas Hdim Ht Ha Hearly Hlate Hx Hy.
  destruct (temperature_change_run ds tas ts Htas Hdim Ht Ha)
    as (change & Hrun & Hval).
  exists change. split; [exact Hrun|]. rewrite Hval.
  assert (Hmean : forall sl z,
            (exists t, In t ts /\ in_slice sl t = true) ->
            (forall i, i < List.length ts -> in_slice sl (nth i ts 0%Z) = true ->
                       v_at tas (upd env "time" i) = Num z) ->
            nanmean (map (fun i => v_at tas (upd env "time" i))
                       (kept_positions sl ts)) = Num z).
  { intros sl z Hsome Hz. apply nanmean_const.
    - apply kept_positions_some in Hsome.
      destruct (kept_positions sl ts); [congruence|discriminate].
    - intros c Hc. apply in_map_iff in Hc. destruct Hc as [i [<- Hi]].
      apply kept_positions_In in Hi. now apply Hz. }
  rewrite (Hmean _ y Hlate Hy), (Hmean _ x Hearly Hx). reflexivity.
Qed.

Lemma temperature_change_between_steady_periods_witness :
  exists change,
    temperature_change sample_two_periods = Ok change
    /\ da_at change (fun _ => 0) = Num (4 - 1).
Proof.
  apply (temperature_change_between_steady_periods sample_two_periods
           sample_two_periods_tas [23760; 23761; 24960]%Z (fun _ => 0) 1 4).
  - reflexivity.
  - simpl. tauto.
  - reflexivity.
  - reflexivity.
  - exists 23760%Z. split; [now left|reflexivity].
  - exists 24960%Z. split; [simpl; tauto|reflexivity].
  - intros i Hi Hsl. destruct i as [|[|[|i]]]; simpl in Hi;
      [reflexivity|reflexivity|discriminate Hsl|lia].
  - intros i Hi Hsl. destruct i as [|[|[|i]]]; simpl in Hi;
      [discriminate Hsl|discriminate Hsl|reflexivity|lia].
Defined.

(** ** Time axes out of order, and time dimensions without a coordinate *)








